(** * stoch: a byte-level order-1 Markov model (src/stoch2.c)

    A shallow embedding of the model core of the [stoch] character device:
    the histogram update ([stoch_hist_update]), the reset
    ([stoch_hist_clear], [stoch_hists_clear]), the sampler
    ([stoch_hist_val]), the generator ([stoch_hist_gen]) and the trainer
    ([stoch_write]).  The static variables [stoch_hist] and [stoch_prev]
    are threaded through a state monad; C integers are [Z] with their
    wrap-around written out (LP64: [unsigned int] and [int] are 32 bits,
    [size_t] is 64 bits, [unsigned char] is 8 bits).  A pointer to one of
    the 256 histograms is its index in [stoch_hist.data].  The file
    operations around these functions (allocation, the copies from and
    to the caller) are left out.

    src/stoch.c is the earlier, order-0 version of the module: one
    histogram, the same update and the same sampler walk, and a
    [stoch_hist_clear] that zeroes its counters in a loop. *)

From Stdlib Require Import ZArith Lia Bool.
From Stdlib Require Import Strings.Byte.
From stdpp Require Import base list.

Local Open Scope Z_scope.

(** ** C integer types *)

Definition STOCH_HIST_SIZE : Z := 256.

(** Conversion to [unsigned char]. *)
Definition uchar (z : Z) : Z := z mod 2 ^ 8.

(** Conversion to [unsigned int]. *)
Definition uint (z : Z) : Z := z mod 2 ^ 32.

(** Conversion to [size_t]. *)
Definition size_t (z : Z) : Z := z mod 2 ^ 64.

(** Conversion to [int] (two's complement, as gcc defines it). *)
Definition int (z : Z) : Z := (z + 2 ^ 31) mod 2 ^ 32 - 2 ^ 31.

Definition INT_MAX : Z := 2 ^ 31 - 1.

(** Conversion to [ssize_t] (two's complement). *)
Definition ssize_t (z : Z) : Z := (z + 2 ^ 63) mod 2 ^ 64 - 2 ^ 63.

(** The numeric value of an [unsigned char] read from a buffer. *)
Definition byte_val (x : byte) : Z := Z.of_N (Byte.to_N x).

(** ** The data model *)

(** [struct _stoch_hist]: the histogram of one context. *)
Module _stoch_hist.
Record t : Type := mk { data : list Z; total : Z }.
End _stoch_hist.

(** The anonymous struct of the static variable [stoch_hist]: one
    [struct _stoch_hist] per previous byte, and the number of bytes
    trained overall. *)
Module model.
Record t : Type := mk { data : list _stoch_hist.t; total : Z }.
End model.

(** The state a call runs in: the two static variables of the module, the
    kernel's entropy source ([entropy k] is the k-th value
    [get_random_bytes] hands out, [drawn] the number of values handed out
    so far), and [calls], a history of the values returned by
    [stoch_hist_val] (oldest first).  [calls] is not program data: it
    records the calls of the sampler so that statements can speak about
    them. *)
Record world : Type := mkWorld {
  stoch_hist : model.t;
  stoch_prev : Z;
  entropy : nat -> Z;
  drawn : nat;
  calls : list Z
}.

Definition set_stoch_hist (m : model.t) (w : world) : world :=
  mkWorld m (stoch_prev w) (entropy w) (drawn w) (calls w).

Definition set_stoch_prev (p : Z) (w : world) : world :=
  mkWorld (stoch_hist w) p (entropy w) (drawn w) (calls w).

Definition set_drawn (n : nat) (w : world) : world :=
  mkWorld (stoch_hist w) (stoch_prev w) (entropy w) n (calls w).

Definition set_calls (l : list Z) (w : world) : world :=
  mkWorld (stoch_hist w) (stoch_prev w) (entropy w) (drawn w) l.

(** Array reads.  An index outside the array is undefined behaviour in C;
    the model reads 0 (an empty histogram) there.  Every index the code
    uses is an [unsigned char] or a loop counter below 256. *)
Definition rd (l : list Z) (i : Z) : Z := default 0 (l !! Z.to_nat i).

Definition hist_at (m : model.t) (i : Z) : _stoch_hist.t :=
  default (_stoch_hist.mk [] 0) (model.data m !! Z.to_nat i).

(** A zero-filled [struct _stoch_hist], and the zero-filled static
    storage the module starts with ([stoch_prev = 0]). *)
Definition hist_zero : _stoch_hist.t :=
  _stoch_hist.mk (replicate (Z.to_nat STOCH_HIST_SIZE) 0) 0.

Definition model_zero : model.t :=
  model.mk (replicate (Z.to_nat STOCH_HIST_SIZE) hist_zero) 0.

Definition world_init (rnd : nat -> Z) : world :=
  mkWorld model_zero 0 rnd 0%nat [].

(** ** The monad: state, with failure for a loop that runs out of fuel *)

Definition M (A : Type) : Type := world -> option (A * world).

Definition ret {A} (a : A) : M A := fun w => Some (a, w).

Definition bind {A B} (c : M A) (k : A -> M B) : M B :=
  fun w => match c w with
           | Some (a, w') => k a w'
           | None => None
           end.

Definition gets {A} (f : world -> A) : M A := fun w => Some (f w, w).

Definition modify (f : world -> world) : M unit := fun w => Some (tt, f w).

Declare Scope stoch_scope.
Delimit Scope stoch_scope with stoch.
Notation "x <- c ;; k" := (bind c (fun x => k))
  (at level 100, c at next level, right associativity) : stoch_scope.
Notation "c ;; k" := (bind c (fun _ => k))
  (at level 100, right associativity) : stoch_scope.
Local Open Scope stoch_scope.

(** The state a computation ends in, when it ends. *)
Definition exec {A} (c : M A) (w : world) : option world :=
  match c w with Some (_, w') => Some w' | None => None end.

(** [get_random_bytes(&v, n)]: the next value of the entropy source, as an
    n-byte unsigned integer. *)
Definition get_random_bytes (n : Z) : M Z :=
  fun w => Some (entropy w (drawn w) mod 2 ^ (8 * n), set_drawn (S (drawn w)) w).

(** ** Training *)

(** [h->data[x]++] for [h = &stoch_hist.data[h]]. *)
Definition incr_data (h : Z) (x : Z) : M unit :=
  modify (fun w =>
    let m := stoch_hist w in
    let hh := hist_at m h in
    let hh' := _stoch_hist.mk
                 (<[Z.to_nat x := uint (rd (_stoch_hist.data hh) x + 1)]>
                    (_stoch_hist.data hh))
                 (_stoch_hist.total hh) in
    set_stoch_hist (model.mk (<[Z.to_nat h := hh']> (model.data m)) (model.total m)) w).

(** [h->total++]. *)
Definition incr_total (h : Z) : M unit :=
  modify (fun w =>
    let m := stoch_hist w in
    let hh := hist_at m h in
    let hh' := _stoch_hist.mk (_stoch_hist.data hh) (uint (_stoch_hist.total hh + 1)) in
    set_stoch_hist (model.mk (<[Z.to_nat h := hh']> (model.data m)) (model.total m)) w).

(** [stoch_hist.total++]. *)
Definition incr_grand : M unit :=
  modify (fun w =>
    let m := stoch_hist w in
    set_stoch_hist (model.mk (model.data m) (uint (model.total m + 1))) w).

(** [stoch_hist_update(h, x)], with [h] the index of the histogram the
    pointer designates. *)
Definition stoch_hist_update (h : Z) (x : byte) : M unit :=
  let p := int (byte_val x) in
  if (0 <=? p) && (p <? STOCH_HIST_SIZE) then
    incr_data h (byte_val x) ;;
    incr_total h ;;
    incr_grand
  else ret tt.

(** The loop of [stoch_write] over the bytes copied from the caller, in
    order.  (Its counter is an [int]; the kernel passes no [count] above
    [INT_MAX].) *)
Fixpoint stoch_write_loop (tmp : list byte) : M unit :=
  match tmp with
  | [] => ret tt
  | x :: tmp' =>
      prev <- gets stoch_prev ;;
      stoch_hist_update prev x ;;
      modify (set_stoch_prev (byte_val x)) ;;
      stoch_write_loop tmp'
  end.

(** [stoch_write]: [tmp] holds the [count] bytes of the caller; the call
    returns [count]. *)
Definition stoch_write (tmp : list byte) : M Z :=
  stoch_write_loop tmp ;;
  ret (Z.of_nat (length tmp)).

(** A caller that writes the chunks one after the other, each in a call
    of [stoch_write]. *)
Fixpoint stoch_write_all (chunks : list (list byte)) : M unit :=
  match chunks with
  | [] => ret tt
  | tmp :: chunks' => stoch_write tmp ;; stoch_write_all chunks'
  end.

(** ** Reset *)

(** [memset(s, c, n)] on an object made of 32-bit little-endian words:
    the first [n] bytes become the byte [c]. *)
Definition memset_word (w c n : Z) : Z :=
  let fill := uchar c * 16843009 in
  let mask := 2 ^ (8 * n) - 1 in
  Z.lor (Z.land fill mask) (Z.land w (Z.lxor (2 ^ 32 - 1) mask)).

Fixpoint memset (s : list Z) (c : Z) (n : Z) : list Z :=
  match s with
  | [] => []
  | w :: s' =>
      if n <=? 0 then w :: s'
      else if 4 <=? n then uint (uchar c * 16843009) :: memset s' c (n - 4)
      else memset_word w c n :: s'
  end.

(** Memory layout of [struct _stoch_hist]: 256 words of [data], then
    [total]. *)
Definition hist_words (h : _stoch_hist.t) : list Z :=
  _stoch_hist.data h ++ [_stoch_hist.total h].

Definition words_hist (ws : list Z) : _stoch_hist.t :=
  _stoch_hist.mk (take (Z.to_nat STOCH_HIST_SIZE) ws) (rd ws STOCH_HIST_SIZE).

Definition sizeof_hist : Z := 4 * (STOCH_HIST_SIZE + 1).

(** Memory layout of [stoch_hist]: the 256 histograms, then [total]. *)
Definition model_words (m : model.t) : list Z :=
  concat (map hist_words (model.data m)) ++ [model.total m].

Fixpoint words_hists (n : nat) (ws : list Z) : list _stoch_hist.t :=
  match n with
  | O => []
  | S n' => words_hist (take 257 ws) :: words_hists n' (drop 257 ws)
  end.

Definition words_model (ws : list Z) : model.t :=
  model.mk (words_hists (Z.to_nat STOCH_HIST_SIZE) ws)
           (rd ws (STOCH_HIST_SIZE * (STOCH_HIST_SIZE + 1))).

Definition sizeof_stoch_hist : Z := STOCH_HIST_SIZE * sizeof_hist + 4.

(** [stoch_hist_clear(h)]: [memset( h, sizeof(struct _stoch_hist), 0 )]. *)
Definition stoch_hist_clear (h : Z) : M unit :=
  modify (fun w =>
    let m := stoch_hist w in
    let hh := words_hist (memset (hist_words (hist_at m h)) sizeof_hist 0) in
    set_stoch_hist (model.mk (<[Z.to_nat h := hh]> (model.data m)) (model.total m)) w).

(** [stoch_hists_clear()]: [memset( &stoch_hist, sizeof(stoch_hist), 0 )]. *)
Definition stoch_hists_clear : M unit :=
  modify (fun w =>
    set_stoch_hist (words_model (memset (model_words (stoch_hist w)) sizeof_stoch_hist 0)) w).

(** ** The sampler *)

(** The loop of [stoch_hist_val].  Its counter [i] is an [unsigned char],
    so [i < STOCH_HIST_SIZE] always holds and [i++] wraps from 255 to 0:
    the loop ends only through its [break].  [fuel] bounds the number of
    iterations the model follows; [None] means the bound was reached. *)
Fixpoint stoch_hist_val_loop (fuel : nat) (h : _stoch_hist.t) (p : Z) (i val tot : Z)
  : option Z :=
  match fuel with
  | O => None
  | S fuel' =>
      if i <? STOCH_HIST_SIZE then
        let tot := uint (tot + rd (_stoch_hist.data h) i) in
        let val := i in
        if tot >=? p then Some val
        else stoch_hist_val_loop fuel' h p (uchar (i + 1)) val tot
      else Some val
  end.

(** Record one call of the sampler and the value it returns. *)
Definition returns (v : Z) : M Z :=
  modify (fun w => set_calls (calls w ++ [v]) w) ;; ret v.

(** [stoch_hist_val(h, prev)], with [h] the index of the histogram the
    pointer designates. *)
Definition stoch_hist_val (fuel : nat) (h : Z) (prev : Z) : M Z :=
  hh <- gets (fun w => hist_at (stoch_hist w) h) ;;
  if _stoch_hist.total hh =? 0 then returns 0
  else
    j <- get_random_bytes 4 ;;
    let p := uint (uchar (j mod _stoch_hist.total hh)) in
    match stoch_hist_val_loop fuel hh p 0 0 0 with
    | Some val => returns val
    | None => fun _ => None
    end.

(** ** The generator *)

(** The loop of [stoch_hist_gen] that chooses the starting context; [j]
    is a [size_t], and [n] bounds the iterations (257 are enough for the
    loop condition to end it). *)
Fixpoint stoch_hist_gen_start (n : nat) (m : model.t) (i j tot prev : Z) : Z :=
  match n with
  | O => prev
  | S n' =>
      if j <? STOCH_HIST_SIZE then
        let tot := size_t (tot + _stoch_hist.total (hist_at m j)) in
        let prev := uchar j in
        if tot >=? i then prev
        else stoch_hist_gen_start n' m i (j + 1) tot prev
      else prev
  end.

(** The loop of [stoch_hist_gen] that fills the buffer: [n] iterations are
    left, [i] is the index of the next one. *)
Fixpoint stoch_hist_gen_loop (fuel : nat) (size : Z) (n : nat)
    (i pos prev : Z) (buff : list Z) : M (list Z * Z) :=
  match n with
  | O => ret (buff, pos)
  | S n' =>
      if size_t pos =? size then
        v <- stoch_hist_val fuel prev prev ;;
        let buff := <[Z.to_nat i := v]> buff in
        let prev := rd buff i in
        let pos := if rd buff i =? 0 then int i else pos in
        stoch_hist_gen_loop fuel size n' (i + 1) pos prev buff
      else
        let buff := <[Z.to_nat i := 0]> buff in
        stoch_hist_gen_loop fuel size n' (i + 1) pos prev buff
  end.

(** The first block of [stoch_hist_gen]: the values of [pos] and [prev]
    after the starting context is chosen. *)
Definition stoch_hist_gen_choose (size : Z) : M (Z * Z) :=
  let pos := int size in
  let prev := 0 in
  m <- gets stoch_hist ;;
  if model.total m =? 0 then ret (0, 0)
  else
    i <- get_random_bytes 8 ;;
    let i := i mod model.total m in
    ret (pos, stoch_hist_gen_start 257 m i 0 0 prev).

(** [stoch_hist_gen(buff, size)]: [buff] is the caller's buffer of [size]
    bytes; the call returns the buffer as it leaves it and the value of
    [pos], the logical length. *)
Definition stoch_hist_gen (fuel : nat) (buff : list Z) (size : Z)
  : M (list Z * Z) :=
  start <- stoch_hist_gen_choose size ;;
  r <- stoch_hist_gen_loop fuel size (Z.to_nat size) 0 (fst start) (snd start) buff ;;
  ret (fst r, size_t (snd r)).

(** The entropy source that hands out the values of [l], then zeros. *)
Definition rnd_of (l : list Z) : nat -> Z := fun k => default 0 (l !! k).

(** The value a computation returns, when it returns. *)
Definition out {A} (r : option (A * world)) : option A :=
  match r with Some (a, _) => Some a | None => None end.

(** ** The file operations of src/stoch2.c *)

(** [stoch_read(filp, buf, count, f_pos)]: [tmp] is the memory [kmalloc]
    hands out, [count] bytes of any content.  The call returns the
    [count] bytes it copies to the caller and its return value.  (With
    [count = 0] the store to [tmp[count-1]] is out of bounds, which is
    undefined in C; the statements take [count >= 1].) *)
Definition stoch_read (fuel : nat) (tmp : list Z) (count : Z) : M (list Z * Z) :=
  r <- stoch_hist_gen fuel tmp count ;;
  let n := snd r in
  let tmp := <[Z.to_nat (count - 1) := 0]> (fst r) in
  ret (take (Z.to_nat count) tmp, ssize_t n).

(** [stoch_init()]: [result] is what [register_chrdev] returns. *)
Definition stoch_init (result : Z) : M Z :=
  if result <? 0 then ret result
  else stoch_hists_clear ;; ret 0.

(** * The order-0 module (src/stoch.c)

    One histogram of the bytes written, whatever precedes them.  The
    loop of the sampler is the one of src/stoch2.c, on the static
    variable [stoch_hist]. *)

Module Stoch0.

Record world : Type := mkWorld {
  stoch_hist : _stoch_hist.t;
  entropy : nat -> Z;
  drawn : nat;
  calls : list Z
}.

Definition world_init (rnd : nat -> Z) : world := mkWorld hist_zero rnd 0%nat [].

Definition M (A : Type) : Type := world -> option (A * world).

Definition ret {A} (a : A) : M A := fun w => Some (a, w).

Definition bind {A B} (c : M A) (k : A -> M B) : M B :=
  fun w => match c w with
           | Some (a, w') => k a w'
           | None => None
           end.

Definition gets {A} (f : world -> A) : M A := fun w => Some (f w, w).

Definition modify (f : world -> world) : M unit := fun w => Some (tt, f w).

Declare Scope stoch0_scope.
Notation "x <- c ;; k" := (bind c (fun x => k))
  (at level 100, c at next level, right associativity) : stoch0_scope.
Notation "c ;; k" := (bind c (fun _ => k))
  (at level 100, right associativity) : stoch0_scope.
Local Open Scope stoch0_scope.

Definition set_stoch_hist (h : _stoch_hist.t) (w : world) : world :=
  mkWorld h (entropy w) (drawn w) (calls w).

Definition exec {A} (c : M A) (w : world) : option world :=
  match c w with Some (_, w') => Some w' | None => None end.

Definition get_random_bytes (n : Z) : M Z :=
  fun w => Some (entropy w (drawn w) mod 2 ^ (8 * n),
                 mkWorld (stoch_hist w) (entropy w) (S (drawn w)) (calls w)).

(** [stoch_hist_update(x)]. *)
Definition stoch_hist_update (x : byte) : M unit :=
  let p := int (byte_val x) in
  if (0 <=? p) && (p <? STOCH_HIST_SIZE) then
    modify (fun w =>
      let h := stoch_hist w in
      set_stoch_hist
        (_stoch_hist.mk (<[Z.to_nat p := uint (rd (_stoch_hist.data h) p + 1)]>
                           (_stoch_hist.data h))
                        (_stoch_hist.total h)) w) ;;
    modify (fun w =>
      let h := stoch_hist w in
      set_stoch_hist (_stoch_hist.mk (_stoch_hist.data h) (uint (_stoch_hist.total h + 1))) w)
  else ret tt.

(** The loop of [stoch_hist_clear]; [n] bounds the iterations (257 are
    enough for the loop condition to end it). *)
Fixpoint stoch_hist_clear_loop (n : nat) (i : Z) : M unit :=
  match n with
  | O => ret tt
  | S n' =>
      if i <? STOCH_HIST_SIZE then
        modify (fun w =>
          let h := stoch_hist w in
          set_stoch_hist (_stoch_hist.mk (<[Z.to_nat i := 0]> (_stoch_hist.data h))
                                         (_stoch_hist.total h)) w) ;;
        stoch_hist_clear_loop n' (int (i + 1))
      else ret tt
  end.

(** [stoch_hist_clear()]. *)
Definition stoch_hist_clear : M unit :=
  stoch_hist_clear_loop 257 0 ;;
  modify (fun w =>
    set_stoch_hist (_stoch_hist.mk (_stoch_hist.data (stoch_hist w)) 0) w).

(** Record one call of the sampler and the value it returns. *)
Definition returns (v : Z) : M Z :=
  modify (fun w => mkWorld (stoch_hist w) (entropy w) (drawn w) (calls w ++ [v])) ;;
  ret v.

(** [stoch_hist_val()]. *)
Definition stoch_hist_val (fuel : nat) : M Z :=
  hh <- gets stoch_hist ;;
  if _stoch_hist.total hh =? 0 then returns 0
  else
    j <- get_random_bytes 4 ;;
    let p := uint (uchar (j mod _stoch_hist.total hh)) in
    match stoch_hist_val_loop fuel hh p 0 0 0 with
    | Some val => returns val
    | None => fun _ => None
    end.

(** The loop of [stoch_hist_gen]: [n] iterations are left, [i] is the
    index of the next one. *)
Fixpoint stoch_hist_gen_loop (fuel : nat) (size : Z) (n : nat)
    (i pos : Z) (buff : list Z) : M (list Z * Z) :=
  match n with
  | O => ret (buff, pos)
  | S n' =>
      if size_t pos =? size then
        v <- stoch_hist_val fuel ;;
        let buff := <[Z.to_nat i := v]> buff in
        let pos := if rd buff i =? 0 then int i else pos in
        stoch_hist_gen_loop fuel size n' (i + 1) pos buff
      else
        let buff := <[Z.to_nat i := 0]> buff in
        stoch_hist_gen_loop fuel size n' (i + 1) pos buff
  end.

(** [stoch_hist_gen(buff, size)]. *)
Definition stoch_hist_gen (fuel : nat) (buff : list Z) (size : Z)
  : M (list Z * Z) :=
  let pos := int size in
  r <- stoch_hist_gen_loop fuel size (Z.to_nat size) 0 pos buff ;;
  ret (fst r, size_t (snd r)).

(** [stoch_init()]: [result] is what [register_chrdev] returns. *)
Definition stoch_init (result : Z) : M Z :=
  if result <? 0 then ret result
  else stoch_hist_clear ;; ret 0.

(** [stoch_read]: as in src/stoch2.c. *)
Definition stoch_read (fuel : nat) (tmp : list Z) (count : Z) : M (list Z * Z) :=
  r <- stoch_hist_gen fuel tmp count ;;
  let n := snd r in
  let tmp := <[Z.to_nat (count - 1) := 0]> (fst r) in
  ret (take (Z.to_nat count) tmp, ssize_t n).

(** The loop of [stoch_write] over the bytes copied from the caller. *)
Fixpoint stoch_write_loop (tmp : list byte) : M unit :=
  match tmp with
  | [] => ret tt
  | x :: tmp' => stoch_hist_update x ;; stoch_write_loop tmp'
  end.

(** [stoch_write]: returns [count]. *)
Definition stoch_write (tmp : list byte) : M Z :=
  stoch_write_loop tmp ;;
  ret (Z.of_nat (length tmp)).

End Stoch0.

(** * Vocabulary of the statements *)

(** ** Sums and well-formed states *)

(** The sum of a list of counters, as an integer. *)
Definition sumZ (l : list Z) : Z := foldr Z.add 0 l.

(** The arrays have their 256 entries, and each total is the sum of the
    counters it totals, in 32-bit arithmetic. *)
Definition wf_hist (h : _stoch_hist.t) : Prop :=
  length (_stoch_hist.data h) = 256%nat /\ _stoch_hist.total h = uint (sumZ (_stoch_hist.data h)).

(** The same for [stoch_hist]: 256 well-formed histograms, and the grand
    total is the sum of their totals in 32-bit arithmetic. *)
Definition wf_model (m : model.t) : Prop :=
  length (model.data m) = 256%nat /\
  Forall wf_hist (model.data m) /\
  model.total m = uint (sumZ (_stoch_hist.total <$> model.data m)).

(** A well-formed state: a well-formed [stoch_hist], and a byte in
    [stoch_prev]. *)
Definition wf (w : world) : Prop :=
  wf_model (stoch_hist w) /\ 0 <= stoch_prev w < 256.

(** The arrays of the state have their 256 entries. *)
Definition shaped (m : model.t) : Prop :=
  length (model.data m) = 256%nat /\
  Forall (fun h => length (_stoch_hist.data h) = 256%nat) (model.data m).

(** What the trainer needs of a state: 256 histograms and a byte in
    [stoch_prev]. *)
Definition ready (w : world) : Prop :=
  length (model.data (stoch_hist w)) = 256%nat /\ 0 <= stoch_prev w < 256.

(** Exact totals over counters that are not negative. *)
Definition exact_hist (h : _stoch_hist.t) : Prop :=
  length (_stoch_hist.data h) = 256%nat /\
  Forall (fun c => 0 <= c) (_stoch_hist.data h) /\
  _stoch_hist.total h = sumZ (_stoch_hist.data h).

(** The same for [stoch_hist]. *)
Definition exact_model (m : model.t) : Prop :=
  length (model.data m) = 256%nat /\
  Forall exact_hist (model.data m) /\
  model.total m = sumZ (_stoch_hist.total <$> model.data m).

(** Following the spec's words: every total is the sum of what it
    totals. *)
Definition totals_exact (m : model.t) : Prop :=
  (forall i, 0 <= i < 256 ->
     _stoch_hist.total (hist_at m i) = sumZ (_stoch_hist.data (hist_at m i))) /\
  model.total m = sumZ (_stoch_hist.total <$> model.data m).

(** ** The effect of training *)

(** What one [stoch_hist_update] does to the model. *)
Definition updated (h x : Z) (m : model.t) : model.t :=
  let hh := hist_at m h in
  model.mk
    (<[Z.to_nat h :=
         _stoch_hist.mk (<[Z.to_nat x := uint (rd (_stoch_hist.data hh) x + 1)]> (_stoch_hist.data hh))
                 (uint (_stoch_hist.total hh + 1))]> (model.data m))
    (uint (model.total m + 1)).

(** The state after the trainer has consumed [tmp]. *)
Fixpoint train (tmp : list byte) (w : world) : world :=
  match tmp with
  | [] => w
  | x :: tmp' =>
      train tmp' (set_stoch_prev (byte_val x)
                    (set_stoch_hist (updated (stoch_prev w) (byte_val x) (stoch_hist w)) w))
  end.

(** The model after [k + 1] bytes 'A' trained from the start. *)
Definition all_A (k : Z) : model.t :=
  model.mk
    (<[Z.to_nat 65 := _stoch_hist.mk (<[Z.to_nat 65 := uint k]> (_stoch_hist.data hist_zero)) (uint k)]>
       (<[Z.to_nat 0 := _stoch_hist.mk (<[Z.to_nat 65 := 1]> (_stoch_hist.data hist_zero)) 1]>
          (model.data model_zero)))
    (uint (k + 1)).

(** ** The effect of a call on the environment *)

(** The world after a call: only the entropy position and the history of
    sampler calls differ. *)
Definition after (w : world) (d : nat) (c : list Z) : world :=
  mkWorld (stoch_hist w) (stoch_prev w) (entropy w) d c.

(** The value the sampler draws and reduces. *)
Definition drawn_p (w : world) (h : Z) : Z :=
  uint (uchar ((entropy w (drawn w) mod 2 ^ (8 * 4))
               mod _stoch_hist.total (hist_at (stoch_hist w) h))).

(** ** The output of the generator *)

(** What the loop does to the buffer once generation is inactive: it
    stores 0 at the [n] positions from [i] on. *)
Fixpoint zero_fill (n : nat) (i : Z) (buff : list Z) : list Z :=
  match n with
  | O => buff
  | S n' => zero_fill n' (i + 1) (<[Z.to_nat i := 0]> buff)
  end.

(** The position of the first terminator among the sampled symbols. *)
Fixpoint first_zero (l : list Z) : option nat :=
  match l with
  | [] => None
  | v :: l' => if v =? 0 then Some O else S <$> first_zero l'
  end.

(** How the buffer [b] and the value [pos] a run of the loop ends with
    relate to the symbols [smp] it sampled, for a run that starts active
    at index [i] with [n] iterations to go on the buffer [buff]. *)
Definition described (buff b : list Z) (i : nat) (size : Z) (n : nat)
    (pos : Z) (smp : list Z) : Prop :=
  length b = length buff /\
  (length smp <= n)%nat /\
  (forall j, (j < i)%nat -> b !! j = buff !! j) /\
  (forall k v, smp !! k = Some v -> b !! (i + k)%nat = Some v) /\
  (forall j, (i + length smp <= j < length buff)%nat -> b !! j = Some 0) /\
  (first_zero smp = None -> pos = size /\ length smp = n) /\
  (forall k, first_zero smp = Some k -> pos = Z.of_nat (i + k) /\ length smp = S k).

(** The rule of the terminator, for a call that returned the buffer [b]
    and the logical length [pos] after the sampler returned the symbols
    [smp], in this order: the k-th sampled symbol is stored at position
    k; if the first 0 among them is the i-th, the sampler was called
    exactly i + 1 times, every position from i on holds 0 and the
    logical length is i; if none is 0 the logical length is [size]; the
    logical length lies in [0, size]. *)
Definition terminator_rule (size : Z) (b : list Z) (pos : Z) (smp : list Z) : Prop :=
  length b = Z.to_nat size /\
  0 <= pos <= size /\
  (forall k v, smp !! k = Some v -> b !! k = Some v) /\
  (forall i, first_zero smp = Some i ->
     pos = Z.of_nat i /\ length smp = S i /\
     forall j, (i <= j < Z.to_nat size)%nat -> b !! j = Some 0) /\
  (first_zero smp = None -> pos = size).

(** A call of [stoch_hist_gen] returns and obeys the rule. *)
Definition generates_by_rule (fuel : nat) (buff : list Z) (size : Z) (w : world) : Prop :=
  exists b pos w' smp,
    stoch_hist_gen fuel buff size w = Some ((b, pos), w') /\
    calls w' = calls w ++ smp /\
    terminator_rule size b pos smp.

(** ** Draws and what they select *)

(** The symbol [stoch_hist_val] returns on the histogram of context [h]
    when [get_random_bytes] hands out [r]. *)
Definition sample_at (fuel : nat) (w : world) (h r : Z) : option Z :=
  out (stoch_hist_val fuel h h (mkWorld (stoch_hist w) (stoch_prev w) (fun _ => r) 0 [])).

(** Among the [total] draws [0 .. total - 1], the number of those on
    which the sampler returns [s]. *)
Definition hits (fuel : nat) (w : world) (h s : Z) : Z :=
  Z.of_nat (length (List.filter
    (fun r => match sample_at fuel w h r with Some v => v =? s | None => false end)
    (seqZ 0 (_stoch_hist.total (hist_at (stoch_hist w) h))))).

(** Following the spec's words: walking the symbols in ascending order
    and accumulating the counts, the first symbol at which the running
    sum is [>= r]. *)
Fixpoint first_reaching (data : list Z) (r s acc : Z) : option Z :=
  match data with
  | [] => None
  | c :: data' =>
      if r <=? acc + c then Some s else first_reaching data' r (s + 1) (acc + c)
  end.

(** Following the spec's words: [r] is the draw reduced to [[0, total)]. *)
Definition spec_sample (h : _stoch_hist.t) (j : Z) : option Z :=
  first_reaching (_stoch_hist.data h) (j mod _stoch_hist.total h) 0 0.

(** The starting context the first block of [stoch_hist_gen] chooses when
    [get_random_bytes] hands out [r]. *)
Definition start_at (w : world) (r : Z) : option Z :=
  option_map snd
    (out (stoch_hist_gen_choose 1 (mkWorld (stoch_hist w) (stoch_prev w) (fun _ => r) 0 []))).

(** Among the [stoch_hist.total] draws, the number of those that choose
    the context [c]. *)
Definition start_hits (w : world) (c : Z) : Z :=
  Z.of_nat (length (List.filter
    (fun r => match start_at w r with Some v => v =? c | None => false end)
    (seqZ 0 (model.total (stoch_hist w))))).

(** ** What the generator draws and follows *)

(** The value the first block of [stoch_hist_gen] draws and reduces. *)
Definition drawn_i (w : world) : Z :=
  (entropy w (drawn w) mod 2 ^ (8 * 8)) mod model.total (stoch_hist w).

(** Every symbol of [smp] that is not 0 has a counter that is not 0 in
    the histogram of the symbol before it, the first one in the
    histogram of [prev]. *)
Fixpoint follows (m : model.t) (prev : Z) (smp : list Z) : Prop :=
  match smp with
  | [] => True
  | v :: smp' =>
      (v <> 0 -> rd (_stoch_hist.data (hist_at m prev)) v <> 0) /\ follows m v smp'
  end.

(** ** The stream of trained bytes *)

(** The number of places in [l] where [b] comes right after [a]. *)
Fixpoint count_pairs (a b : Z) (l : list Z) : Z :=
  match l with
  | [] => 0
  | x :: l' =>
      match l' with
      | [] => 0
      | y :: _ => (if (x =? a) && (y =? b) then 1 else 0) + count_pairs a b l'
      end
  end.

(** The number of occurrences of [x] in [l]. *)
Fixpoint count_occ (x : Z) (l : list Z) : Z :=
  match l with
  | [] => 0
  | y :: l' => (if y =? x then 1 else 0) + count_occ x l'
  end.

(** ** The order-0 module *)

(** What one [stoch_hist_update] of src/stoch.c does to the histogram. *)
Definition stoch0_updated (x : Z) (h : _stoch_hist.t) : _stoch_hist.t :=
  _stoch_hist.mk (<[Z.to_nat x := uint (rd (_stoch_hist.data h) x + 1)]> (_stoch_hist.data h))
                 (uint (_stoch_hist.total h + 1)).

(** The state after the trainer of src/stoch.c has consumed [tmp]. *)
Fixpoint stoch0_train (tmp : list byte) (w : Stoch0.world) : Stoch0.world :=
  match tmp with
  | [] => w
  | x :: tmp' =>
      stoch0_train tmp'
        (Stoch0.set_stoch_hist (stoch0_updated (byte_val x) (Stoch0.stoch_hist w)) w)
  end.

(** The state after calls of the sampler of src/stoch.c: the histogram
    is kept, the entropy position and the history move on. *)
Definition stoch0_after (w : Stoch0.world) (d : nat) (c : list Z) : Stoch0.world :=
  Stoch0.mkWorld (Stoch0.stoch_hist w) (Stoch0.entropy w) d c.

(** The value the sampler of src/stoch.c draws and reduces. *)
Definition stoch0_drawn_p (w : Stoch0.world) : Z :=
  uint (uchar ((Stoch0.entropy w (Stoch0.drawn w) mod 2 ^ (8 * 4))
               mod _stoch_hist.total (Stoch0.stoch_hist w))).

(** * Properties *)

(** ** Integer conversions *)

Lemma uint_range z : 0 <= uint z < 4294967296.
Proof. unfold uint. change (2 ^ 32) with 4294967296. apply Z.mod_pos_bound. lia. Qed.

Lemma uint_small z : 0 <= z < 4294967296 -> uint z = z.
Proof. intros H. unfold uint. change (2 ^ 32) with 4294967296. apply Z.mod_small, H. Qed.

Lemma uint_add_l a b : uint (uint a + b) = uint (a + b).
Proof. unfold uint. apply Zplus_mod_idemp_l. Qed.

Lemma uint_add_r a b : uint (a + uint b) = uint (a + b).
Proof. unfold uint. apply Zplus_mod_idemp_r. Qed.

Lemma uint_bump a b : uint (a - b + uint (b + 1)) = uint (a + 1).
Proof. rewrite uint_add_r. f_equal. lia. Qed.

Lemma uchar_range z : 0 <= uchar z < 256.
Proof. unfold uchar. change (2 ^ 8) with 256. apply Z.mod_pos_bound. lia. Qed.

Lemma uchar_small z : 0 <= z < 256 -> uchar z = z.
Proof. intros H. unfold uchar. change (2 ^ 8) with 256. apply Z.mod_small, H. Qed.

Lemma size_t_small z : 0 <= z < 18446744073709551616 -> size_t z = z.
Proof.
  intros H. unfold size_t. change (2 ^ 64) with 18446744073709551616.
  apply Z.mod_small, H.
Qed.

Lemma int_small z : -2147483648 <= z <= 2147483647 -> int z = z.
Proof.
  intros H. unfold int. change (2 ^ 31) with 2147483648.
  change (2 ^ 32) with 4294967296. rewrite Z.mod_small; lia.
Qed.

Lemma byte_val_range x : 0 <= byte_val x < 256.
Proof. unfold byte_val. pose proof (Byte.to_N_bounded x). lia. Qed.

(** ** Sums of counters *)

Lemma sumZ_app l k : sumZ (l ++ k) = sumZ l + sumZ k.
Proof. unfold sumZ. induction l as [|a l IH]; simpl; lia. Qed.

Lemma sumZ_insert l i v :
  (i < length l)%nat -> sumZ (<[i := v]> l) = sumZ l - default 0 (l !! i) + v.
Proof.
  revert i. induction l as [|a l IH]; intros i Hi; simpl in Hi; [lia|].
  destruct i as [|i]; simpl.
  - unfold sumZ. simpl. lia.
  - unfold sumZ in *. simpl. rewrite IH by lia. lia.
Qed.

Lemma sumZ_nonneg l : Forall (fun c => 0 <= c) l -> 0 <= sumZ l.
Proof. induction 1; unfold sumZ in *; simpl; lia. Qed.

Lemma sumZ_take_S l i :
  (i < length l)%nat -> sumZ (take (S i) l) = sumZ (take i l) + default 0 (l !! i).
Proof.
  intros Hi. destruct (lookup_lt_is_Some_2 l i Hi) as [x Hx].
  rewrite (take_S_r _ _ _ Hx), sumZ_app, Hx. unfold sumZ. simpl. lia.
Qed.

Lemma sumZ_lookup_le l i c :
  Forall (fun c => 0 <= c) l -> l !! i = Some c -> 0 <= c <= sumZ l.
Proof.
  intros Hall. revert i. induction Hall as [|a l Ha Hall IH]; intros i Hi.
  - rewrite lookup_nil in Hi. discriminate.
  - pose proof (sumZ_nonneg l Hall) as Hs. unfold sumZ in *. cbn [foldr].
    destruct i as [|i]; cbn in Hi.
    + injection Hi as <-. lia.
    + specialize (IH i Hi). lia.
Qed.

Lemma sumZ_take_le l k :
  Forall (fun c => 0 <= c) l -> 0 <= sumZ (take k l) <= sumZ l.
Proof.
  intros Hall. rewrite <- (take_drop k l) at 3. rewrite sumZ_app.
  assert (0 <= sumZ (take k l)) by (apply sumZ_nonneg, Forall_take, Hall).
  assert (0 <= sumZ (drop k l)) by (apply sumZ_nonneg, Forall_drop, Hall). lia.
Qed.

(** ** The monad *)

Lemma bind_assoc {A B C} (c : M A) (k : A -> M B) (k' : B -> M C) w :
  bind (bind c k) k' w = bind c (fun a => bind (k a) k') w.
Proof. unfold bind. destruct (c w) as [[a w']|]; reflexivity. Qed.

Lemma bind_ext {A B} (c : M A) (k k' : A -> M B) w :
  (forall a w', k a w' = k' a w') -> bind c k w = bind c k' w.
Proof. intros H. unfold bind. destruct (c w) as [[a w']|]; [apply H|reflexivity]. Qed.

(** ** Well-formed states *)

Lemma hist_at_lookup m i :
  (Z.to_nat i < length (model.data m))%nat ->
  model.data m !! Z.to_nat i = Some (hist_at m i).
Proof.
  intros Hi. unfold hist_at.
  destruct (lookup_lt_is_Some_2 _ _ Hi) as [h Hh]. now rewrite Hh.
Qed.

Lemma hist_at_insert_eq l t i v :
  (Z.to_nat i < length l)%nat -> hist_at (model.mk (<[Z.to_nat i := v]> l) t) i = v.
Proof.
  intros Hi. unfold hist_at. cbn [model.data].
  now rewrite list_lookup_insert_eq by exact Hi.
Qed.

Lemma hist_at_model_zero i : 0 <= i < 256 -> hist_at model_zero i = hist_zero.
Proof.
  intros Hi. unfold hist_at, model_zero. cbn [model.data].
  rewrite lookup_replicate_2 by (unfold STOCH_HIST_SIZE; lia). reflexivity.
Qed.

Lemma rd_replicate n v i : rd (replicate n v) i = if decide (Z.to_nat i < n)%nat then v else 0.
Proof.
  unfold rd. destruct (decide (Z.to_nat i < n)%nat) as [Hlt|Hge].
  - now rewrite lookup_replicate_2.
  - rewrite lookup_ge_None_2; [reflexivity|rewrite length_replicate; lia].
Qed.

Lemma rd_insert_range (buff : list Z) i v :
  0 <= v < 256 -> 0 <= rd (<[Z.to_nat i := v]> buff) i < 256.
Proof.
  intros Hv. unfold rd.
  destruct (decide (Z.to_nat i < length buff)%nat) as [Hlt|Hge].
  - rewrite list_lookup_insert_eq by exact Hlt. exact Hv.
  - rewrite list_insert_ge by lia. rewrite lookup_ge_None_2 by lia.
    cbn [default]. lia.
Qed.

Lemma rd_insert_eq (buff : list Z) i v :
  (Z.to_nat i < length buff)%nat -> rd (<[Z.to_nat i := v]> buff) i = v.
Proof. intros Hlt. unfold rd. now rewrite list_lookup_insert_eq by exact Hlt. Qed.

Lemma wf_hist_at m i : wf_model m -> 0 <= i < 256 -> wf_hist (hist_at m i).
Proof.
  intros (Hlen & Hall & _) Hi.
  assert (Hlt : (Z.to_nat i < length (model.data m))%nat) by lia.
  pose proof (hist_at_lookup m i Hlt) as Hl.
  eapply Forall_lookup_1 in Hall; eauto.
Qed.

Lemma wf_hist_zero : wf_hist hist_zero.
Proof. split; reflexivity. Qed.

Lemma wf_init rnd : wf (world_init rnd).
Proof.
  split; [|cbn [world_init stoch_prev]; lia].
  split; [reflexivity|]. split; [|reflexivity].
  apply Forall_replicate, wf_hist_zero.
Qed.

Lemma wf_shaped m : wf_model m -> shaped m.
Proof.
  intros (Hl & Hall & _). split; [exact Hl|].
  eapply Forall_impl; [exact Hall|]. intros h [Hh _]. exact Hh.
Qed.

Lemma ready_init rnd : ready (world_init rnd).
Proof. split; [reflexivity|cbn [world_init stoch_prev]; lia]. Qed.

(** ** Training *)

Lemma stoch_hist_update_eq h x w :
  (Z.to_nat h < length (model.data (stoch_hist w)))%nat ->
  stoch_hist_update h x w
  = Some (tt, set_stoch_hist (updated h (byte_val x) (stoch_hist w)) w).
Proof.
  intros Hh. unfold stoch_hist_update.
  pose proof (byte_val_range x) as Hx.
  rewrite int_small by lia.
  replace ((0 <=? byte_val x) && (byte_val x <? STOCH_HIST_SIZE)) with true
    by (symmetry; apply andb_true_iff; unfold STOCH_HIST_SIZE; split; lia).
  unfold bind, incr_data, incr_total, incr_grand, modify, updated.
  destruct w as [m p e d c]. cbn [stoch_hist set_stoch_hist stoch_prev entropy drawn calls
                                  model.data model.total] in *.
  do 2 f_equal. unfold set_stoch_hist. cbn [stoch_hist stoch_prev entropy drawn calls
                                            model.data model.total].
  rewrite !hist_at_insert_eq by exact Hh. cbn [_stoch_hist.data _stoch_hist.total].
  rewrite list_insert_insert_eq. reflexivity.
Qed.

Lemma updated_length h x m :
  length (model.data (updated h x m)) = length (model.data m).
Proof. unfold updated. cbn [model.data]. apply length_insert. Qed.

Lemma stoch_write_loop_eq tmp w :
  ready w -> stoch_write_loop tmp w = Some (tt, train tmp w).
Proof.
  revert w. induction tmp as [|x tmp IH]; intros w [Hlen Hp]; [reflexivity|].
  cbn [stoch_write_loop train]. unfold bind at 1. unfold gets.
  unfold bind at 1. rewrite stoch_hist_update_eq by lia.
  unfold bind at 1. unfold modify at 1.
  apply IH. split.
  - cbn [stoch_hist set_stoch_prev set_stoch_hist]. rewrite updated_length. exact Hlen.
  - cbn [stoch_prev set_stoch_prev]. apply byte_val_range.
Qed.

Lemma stoch_write_eq tmp w :
  ready w -> stoch_write tmp w = Some (Z.of_nat (length tmp), train tmp w).
Proof.
  intros H. unfold stoch_write, bind. rewrite stoch_write_loop_eq by exact H.
  reflexivity.
Qed.

Lemma exec_stoch_write tmp w : ready w -> exec (stoch_write tmp) w = Some (train tmp w).
Proof. intros H. unfold exec. now rewrite stoch_write_eq. Qed.

Lemma train_app a b w : train (a ++ b) w = train b (train a w).
Proof. revert w. induction a as [|x a IH]; intros w; [reflexivity|]. apply IH. Qed.

Lemma train_ready tmp w : ready w -> ready (train tmp w).
Proof.
  revert w. induction tmp as [|x tmp IH]; intros w [Hlen Hp]; [split; assumption|].
  apply IH. split.
  - cbn [stoch_hist set_stoch_prev set_stoch_hist]. rewrite updated_length. exact Hlen.
  - cbn [stoch_prev set_stoch_prev]. apply byte_val_range.
Qed.

Lemma exec_stoch_write_all chunks : forall w,
  ready w -> exec (stoch_write_all chunks) w = Some (train (concat chunks) w).
Proof.
  induction chunks as [|tmp chunks IH]; intros w Hr; [reflexivity|].
  cbn [stoch_write_all concat]. unfold exec, bind.
  rewrite stoch_write_eq by exact Hr. rewrite train_app.
  apply (IH (train tmp w)), train_ready, Hr.
Qed.

Lemma stoch_hist_update_total h x w : exists w', stoch_hist_update h x w = Some (tt, w').
Proof.
  unfold stoch_hist_update.
  destruct ((0 <=? int (byte_val x)) && (int (byte_val x) <? STOCH_HIST_SIZE));
    unfold bind, incr_data, incr_total, incr_grand, modify, ret; eauto.
Qed.

Lemma stoch_write_loop_total tmp w : exists w', stoch_write_loop tmp w = Some (tt, w').
Proof.
  revert w. induction tmp as [|x tmp IH]; intros w; [eexists; reflexivity|].
  cbn [stoch_write_loop]. unfold bind at 1. unfold gets.
  unfold bind at 1. destruct (stoch_hist_update_total (stoch_prev w) x w) as [w1 ->].
  unfold bind at 1. unfold modify at 1. apply IH.
Qed.

Lemma stoch_write_loop_app a b w :
  stoch_write_loop (a ++ b) w = (stoch_write_loop a ;; stoch_write_loop b) w.
Proof.
  revert w. induction a as [|x a IH]; intros w; [reflexivity|].
  cbn [app stoch_write_loop]. rewrite bind_assoc.
  apply bind_ext; intros prev w1. rewrite bind_assoc.
  apply bind_ext; intros _ w2. rewrite bind_assoc.
  apply bind_ext; intros _ w3. apply IH.
Qed.

Lemma stoch_write_sets_prev tmp x w :
  exists w', exec (stoch_write (tmp ++ [x])) w = Some w' /\ stoch_prev w' = byte_val x.
Proof.
  destruct (stoch_write_loop_total tmp w) as [w1 H1].
  unfold exec, stoch_write. unfold bind at 1. rewrite stoch_write_loop_app.
  unfold bind at 1. rewrite H1. cbn [stoch_write_loop]. unfold bind at 1. unfold gets.
  unfold bind at 1. destruct (stoch_hist_update_total (stoch_prev w1) x w1) as [w2 ->].
  unfold bind, modify, ret. eexists. split; reflexivity.
Qed.

Lemma updated_wf h x m :
  wf_model m -> 0 <= h < 256 -> 0 <= x < 256 -> wf_model (updated h x m).
Proof.
  intros Hm Hh Hx. pose proof (wf_hist_at m h Hm Hh) as [Hl Ht].
  destruct Hm as (Hlen & Hall & Hg).
  assert (Hlt : (Z.to_nat h < length (model.data m))%nat) by lia.
  pose proof (hist_at_lookup m h Hlt) as Hlk.
  unfold updated. split; [|split]; cbn [model.data model.total].
  - rewrite length_insert. exact Hlen.
  - apply Forall_insert; [exact Hall|]. split; cbn [_stoch_hist.data _stoch_hist.total].
    + rewrite length_insert. exact Hl.
    + rewrite sumZ_insert by lia. rewrite Ht. unfold rd.
      rewrite uint_add_l. symmetry. apply uint_bump.
  - rewrite list_fmap_insert. rewrite sumZ_insert by (rewrite length_fmap; lia).
    rewrite list_lookup_fmap, Hlk. cbn [fmap option_fmap option_map default _stoch_hist.total].
    rewrite Hg, uint_add_l. symmetry. apply uint_bump.
Qed.

Lemma train_wf tmp w : wf w -> wf (train tmp w).
Proof.
  revert w. induction tmp as [|x tmp IH]; intros w [Hm Hp]; [split; assumption|].
  apply IH. split.
  - cbn [stoch_hist set_stoch_prev set_stoch_hist].
    apply updated_wf; [exact Hm|exact Hp|apply byte_val_range].
  - cbn [stoch_prev set_stoch_prev]. apply byte_val_range.
Qed.

(** ** Training in chunks *)

(** C5: training [a] and then [b] in two calls of [stoch_write] ends in
    exactly the state that training [a ++ b] in one call ends in, from
    every starting state: all counts, all totals, the grand total and
    [stoch_prev] agree (and so does everything else in the state). *)
Theorem training_is_chunk_independent a b w :
  exists w', exec (stoch_write a ;; stoch_write b) w = Some w' /\
             exec (stoch_write (a ++ b)) w = Some w'.
Proof.
  destruct (stoch_write_loop_total a w) as [w1 H1].
  destruct (stoch_write_loop_total b w1) as [w2 H2].
  exists w2. unfold exec, stoch_write, bind, ret.
  rewrite stoch_write_loop_app. unfold bind. rewrite H1, H2. split; reflexivity.
Qed.

(** ** The totals, before any counter overflows *)

Lemma exact_totals_nonneg hs :
  Forall exact_hist hs -> Forall (fun c => 0 <= c) (_stoch_hist.total <$> hs).
Proof.
  intros Hall. apply Forall_fmap. eapply Forall_impl; [exact Hall|].
  intros h (_ & Hn & Ht). cbn. rewrite Ht. apply sumZ_nonneg, Hn.
Qed.

Lemma exact_model_zero : exact_model model_zero.
Proof.
  split; [reflexivity|]. split; [|reflexivity].
  apply Forall_replicate. split; [reflexivity|]. split; [|reflexivity].
  apply Forall_replicate. lia.
Qed.

Lemma updated_exact h x m :
  exact_model m -> 0 <= h < 256 -> 0 <= x < 256 -> model.total m < 4294967295 ->
  exact_model (updated h x m) /\ model.total (updated h x m) = model.total m + 1.
Proof.
  intros (Hlen & Hall & Hg) Hh Hx Hlim.
  assert (Hlt : (Z.to_nat h < length (model.data m))%nat) by lia.
  pose proof (hist_at_lookup m h Hlt) as Hlk.
  pose proof (Forall_lookup_1 _ _ _ _ Hall Hlk) as (Hl & Hn & Ht).
  pose proof (exact_totals_nonneg _ Hall) as Htn.
  assert (Hth : 0 <= _stoch_hist.total (hist_at m h) <= model.total m).
  { rewrite Hg. apply (sumZ_lookup_le _ (Z.to_nat h)); [exact Htn|].
    now rewrite list_lookup_fmap, Hlk. }
  destruct (lookup_lt_is_Some_2 (_stoch_hist.data (hist_at m h)) (Z.to_nat x) ltac:(lia)) as [c Hc].
  assert (Hcr : 0 <= c <= _stoch_hist.total (hist_at m h)).
  { rewrite Ht. apply (sumZ_lookup_le _ (Z.to_nat x)); assumption. }
  assert (Hrd : rd (_stoch_hist.data (hist_at m h)) x = c) by (unfold rd; now rewrite Hc).
  unfold updated. cbn [model.data model.total]. rewrite Hrd.
  rewrite !uint_small by lia.
  split; [|reflexivity]. split; [|split]; cbn [model.data model.total].
  - rewrite length_insert. exact Hlen.
  - apply Forall_insert; [exact Hall|]. split; [|split]; cbn [_stoch_hist.data _stoch_hist.total].
    + rewrite length_insert. exact Hl.
    + apply Forall_insert; [exact Hn|lia].
    + rewrite sumZ_insert by lia. rewrite Hc, Ht. cbn. lia.
  - rewrite list_fmap_insert, sumZ_insert by (rewrite length_fmap; lia).
    rewrite list_lookup_fmap, Hlk, Hg. cbn. lia.
Qed.

Lemma train_exact tmp : forall w,
  exact_model (stoch_hist w) -> 0 <= stoch_prev w < 256 ->
  model.total (stoch_hist w) + Z.of_nat (length tmp) < 4294967296 ->
  exact_model (stoch_hist (train tmp w)) /\
  model.total (stoch_hist (train tmp w)) = model.total (stoch_hist w) + Z.of_nat (length tmp).
Proof.
  induction tmp as [|x tmp IH]; intros w Hm Hp Hlim.
  - cbn [train length]. split; [exact Hm|lia].
  - cbn [train]. cbn [length] in Hlim.
    destruct (updated_exact (stoch_prev w) (byte_val x) (stoch_hist w))
      as [Hm' Ht']; [exact Hm|exact Hp|apply byte_val_range|lia|].
    destruct (IH (set_stoch_prev (byte_val x)
                   (set_stoch_hist (updated (stoch_prev w) (byte_val x) (stoch_hist w)) w)))
      as [Hm'' Ht'']; cbn [stoch_hist stoch_prev set_stoch_prev set_stoch_hist] in *.
    + exact Hm'.
    + apply byte_val_range.
    + lia.
    + split; [exact Hm''|]. rewrite Ht'', Ht'. cbn [length]. lia.
Qed.

Lemma exact_model_totals m : exact_model m -> totals_exact m.
Proof.
  intros (Hlen & Hall & Hg). split; [|exact Hg].
  intros i Hi.
  assert (Hlt : (Z.to_nat i < length (model.data m))%nat) by lia.
  pose proof (hist_at_lookup m i Hlt) as Hlk.
  now pose proof (Forall_lookup_1 _ _ _ _ Hall Hlk) as (_ & _ & Ht).
Qed.

(** While fewer than 2^32 bytes have been trained from the start, in
    any number of calls, no counter has wrapped and the totals are
    exact. *)
Lemma totals_exact_below_overflow rnd (chunks : list (list byte)) :
  Z.of_nat (length (concat chunks)) < 4294967296 ->
  exists w, exec (stoch_write_all chunks) (world_init rnd) = Some w /\
            totals_exact (stoch_hist w) /\
            model.total (stoch_hist w) = Z.of_nat (length (concat chunks)).
Proof.
  intros Hlim. exists (train (concat chunks) (world_init rnd)).
  split; [apply exec_stoch_write_all, ready_init|].
  destruct (train_exact (concat chunks) (world_init rnd)) as [Hm Ht].
  - apply exact_model_zero.
  - cbn [world_init stoch_prev]. lia.
  - cbn [world_init stoch_hist model_zero model.total]. lia.
  - split; [apply exact_model_totals, Hm|]. rewrite Ht. reflexivity.
Qed.

(** ** The totals, after 2^32 bytes *)

Lemma all_A_step k : updated 65 65 (all_A k) = all_A (k + 1).
Proof.
  unfold updated, all_A. cbn [model.data model.total].
  rewrite hist_at_insert_eq by (rewrite length_insert; vm_compute; lia).
  cbn [_stoch_hist.data _stoch_hist.total].
  rewrite rd_insert_eq by (vm_compute; lia).
  rewrite !list_insert_insert_eq, !uint_add_l. reflexivity.
Qed.

Lemma all_A_first rnd :
  train [x41] (world_init rnd) = mkWorld (all_A 0) 65 rnd 0 [].
Proof. vm_compute. reflexivity. Qed.

Lemma all_A_train rnd n : forall k,
  train (replicate n x41) (mkWorld (all_A k) 65 rnd 0 [])
  = mkWorld (all_A (k + Z.of_nat n)) 65 rnd 0 [].
Proof.
  induction n as [|n IH]; intros k.
  - cbn [replicate train]. now rewrite Z.add_0_r.
  - cbn [replicate train]. change (byte_val x41) with 65.
    cbn [stoch_prev stoch_hist set_stoch_hist set_stoch_prev entropy drawn calls].
    unfold set_stoch_prev, set_stoch_hist.
    cbn [stoch_prev stoch_hist entropy drawn calls].
    rewrite all_A_step, IH. do 2 f_equal. lia.
Qed.

Lemma all_A_sum k : sumZ (_stoch_hist.total <$> model.data (all_A k)) = 1 + uint k.
Proof.
  unfold all_A. cbn [model.data]. rewrite list_fmap_insert. cbn [_stoch_hist.total].
  rewrite sumZ_insert by (vm_compute; lia).
  set (l := _stoch_hist.total <$> _).
  assert (Hs : sumZ l = 1) by (vm_compute; reflexivity).
  assert (Hl : l !! Z.to_nat 65 = Some 0) by (vm_compute; reflexivity).
  rewrite Hs, Hl. cbn. lia.
Qed.

Lemma concat_replicate_replicate (x : byte) m n :
  concat (replicate n (replicate m x)) = replicate (n * m) x.
Proof.
  induction n as [|n IH]; [reflexivity|].
  rewrite replicate_S. cbn [concat]. rewrite IH, <- replicate_add. reflexivity.
Qed.

Lemma all_A_total rnd n :
  (1 <= n)%nat ->
  train (replicate n x41) (world_init rnd) = mkWorld (all_A (Z.of_nat n - 1)) 65 rnd 0 [].
Proof.
  intros Hn. destruct n as [|n]; [lia|].
  rewrite replicate_S.
  change (x41 :: replicate n x41) with ([x41] ++ replicate n x41).
  rewrite train_app, all_A_first, all_A_train. do 2 f_equal. lia.
Qed.

(** C6 does not hold of the code, which increments its 32-bit counters
    without the overflow check its own comment asks for.  After 65536
    calls of [stoch_write] with 65536 bytes 'A' each (2^32 bytes) on the
    module as loaded, [stoch_hist.total] has wrapped to 0 while the
    totals of the contexts add up to 2^32 (1 in context 0, 2^32 - 1 in
    context 'A'). *)
Theorem totals_wrap_around :
  exists w,
    exec (stoch_write_all (replicate (Z.to_nat 65536) (replicate (Z.to_nat 65536) x41)))
         (world_init (rnd_of [])) = Some w /\
    model.total (stoch_hist w) = 0 /\
    _stoch_hist.total (hist_at (stoch_hist w) 0) = 1 /\
    _stoch_hist.total (hist_at (stoch_hist w) 65) = 4294967295 /\
    sumZ (_stoch_hist.total <$> model.data (stoch_hist w)) = 4294967296 /\
    ~ totals_exact (stoch_hist w).
Proof.
  exists (mkWorld (all_A 4294967295) 65 (rnd_of []) 0 []).
  assert (Hsum : sumZ (_stoch_hist.total <$> model.data (all_A 4294967295)) = 4294967296).
  { rewrite all_A_sum. reflexivity. }
  split.
  { rewrite exec_stoch_write_all by apply ready_init.
    rewrite concat_replicate_replicate, all_A_total by lia.
    assert (Hk : Z.of_nat (Z.to_nat 65536 * Z.to_nat 65536) - 1 = 4294967295) by lia.
    rewrite Hk. reflexivity. }
  cbn [stoch_hist].
  split; [reflexivity|].
  split; [reflexivity|].
  split; [reflexivity|].
  split; [exact Hsum|].
  intros [_ Hg]. rewrite Hsum in Hg. discriminate.
Qed.

(** ** Reset *)

Lemma memset_0 s c : memset s c 0 = s.
Proof. destruct s; reflexivity. Qed.

Lemma words_hist_words h :
  length (_stoch_hist.data h) = 256%nat -> words_hist (hist_words h) = h.
Proof.
  intros Hl. destruct h as [d t]. cbn [_stoch_hist.data] in Hl.
  unfold words_hist, hist_words, rd. cbn [_stoch_hist.data _stoch_hist.total]. f_equal.
  - apply take_app_length'. rewrite Hl. reflexivity.
  - rewrite lookup_app_r by (rewrite Hl; unfold STOCH_HIST_SIZE; lia).
    rewrite Hl. reflexivity.
Qed.

Lemma hist_words_length h :
  length (_stoch_hist.data h) = 256%nat -> length (hist_words h) = 257%nat.
Proof. intros Hl. unfold hist_words. rewrite length_app, Hl. reflexivity. Qed.

Lemma words_hists_words hs : forall rest,
  Forall (fun h => length (_stoch_hist.data h) = 256%nat) hs ->
  words_hists (length hs) (concat (map hist_words hs) ++ rest) = hs.
Proof.
  induction hs as [|h hs IH]; intros rest Hall; [reflexivity|].
  apply Forall_cons in Hall as [Hh Hall].
  cbn [length map concat words_hists]. rewrite <- app_assoc.
  rewrite take_app_length' by (now rewrite hist_words_length).
  rewrite drop_app_length' by (now rewrite hist_words_length).
  rewrite words_hist_words by exact Hh. f_equal. apply IH, Hall.
Qed.

Lemma concat_hist_words_length hs :
  Forall (fun h => length (_stoch_hist.data h) = 256%nat) hs ->
  length (concat (map hist_words hs)) = (257 * length hs)%nat.
Proof.
  induction 1 as [|h hs Hh _ IH]; [reflexivity|].
  cbn [map concat length]. rewrite length_app, IH, hist_words_length by exact Hh. lia.
Qed.

Lemma words_model_words m : shaped m -> words_model (model_words m) = m.
Proof.
  intros [Hl Hall]. destruct m as [hs g]. cbn [model.data] in *.
  unfold words_model, model_words. cbn [model.data model.total]. f_equal.
  - change (Z.to_nat STOCH_HIST_SIZE) with 256%nat. rewrite <- Hl.
    apply words_hists_words, Hall.
  - unfold rd. rewrite lookup_app_r; rewrite concat_hist_words_length by exact Hall;
      rewrite Hl; [|unfold STOCH_HIST_SIZE; lia].
    reflexivity.
Qed.

(** [stoch_hists_clear] and [stoch_hist_clear] return every state of the
    module as they found it. *)
Lemma stoch_hists_clear_noop w :
  shaped (stoch_hist w) -> stoch_hists_clear w = Some (tt, w).
Proof.
  intros Hs. unfold stoch_hists_clear, modify.
  rewrite memset_0, words_model_words by exact Hs. now destruct w.
Qed.

Lemma stoch_hist_clear_noop h w :
  shaped (stoch_hist w) -> 0 <= h < 256 -> stoch_hist_clear h w = Some (tt, w).
Proof.
  intros [Hl Hall] Hh. unfold stoch_hist_clear, modify.
  assert (Hlt : (Z.to_nat h < length (model.data (stoch_hist w)))%nat) by lia.
  pose proof (hist_at_lookup _ _ Hlt) as Hlk.
  rewrite memset_0, words_hist_words
    by (eapply Forall_lookup_1 in Hall; [exact Hall|exact Hlk]).
  rewrite list_insert_id by exact Hlk. now destruct w as [[hs g] p e d c].
Qed.

(** C3 does not hold of the code.  Both reset functions call [memset]
    with the fill byte and the length exchanged, so they write 0 bytes.
    After training "AAA", [stoch_hists_clear] returns with the state it
    was called in: the count of 'A' in context 0 is still 1, the grand
    total still 3, and a [stoch_hist_gen] of size 1 (draws 2 and 1)
    right after the reset returns the byte 'A' and the logical length 1. *)
Theorem reset_clears_nothing :
  let w := train [x41; x41; x41] (world_init (rnd_of [2; 1])) in
  exec (stoch_write [x41; x41; x41]) (world_init (rnd_of [2; 1])) = Some w /\
  stoch_hists_clear w = Some (tt, w) /\
  stoch_hist_clear 65 w = Some (tt, w) /\
  rd (_stoch_hist.data (hist_at (stoch_hist w) 0)) 65 = 1 /\
  _stoch_hist.total (hist_at (stoch_hist w) 65) = 2 /\
  model.total (stoch_hist w) = 3 /\
  out ((stoch_hists_clear ;; stoch_hist_gen 256 [7] 1) w) = Some ([65], 1).
Proof. vm_compute. repeat split; reflexivity. Qed.

(** ** The sampler returns *)

(** On a well-formed histogram the walk of [stoch_hist_val] stops during
    its first pass over the 256 counters, at the first symbol whose
    running sum (in 32-bit arithmetic) has reached [p]. *)
Lemma stoch_hist_val_loop_stops n : forall fuel h p i val tot,
  length (_stoch_hist.data h) = 256%nat ->
  0 <= i -> (1 <= n)%nat -> i + Z.of_nat n = 256 -> (n <= fuel)%nat ->
  tot = uint (sumZ (take (Z.to_nat i) (_stoch_hist.data h))) ->
  p <= uint (sumZ (_stoch_hist.data h)) ->
  exists v, stoch_hist_val_loop fuel h p i val tot = Some v /\
            i <= v < 256 /\
            p <= uint (sumZ (take (S (Z.to_nat v)) (_stoch_hist.data h))) /\
            forall u, i <= u < v -> uint (sumZ (take (S (Z.to_nat u)) (_stoch_hist.data h))) < p.
Proof.
  induction n as [|n IH]; intros fuel h p i val tot Hlen Hi Hn Hin Hfuel Htot Hp; [lia|].
  destruct fuel as [|fuel]; [lia|]. cbn [stoch_hist_val_loop].
  replace (i <? STOCH_HIST_SIZE) with true
    by (symmetry; apply Z.ltb_lt; unfold STOCH_HIST_SIZE; lia).
  assert (Hstep : uint (tot + rd (_stoch_hist.data h) i)
                  = uint (sumZ (take (S (Z.to_nat i)) (_stoch_hist.data h)))).
  { rewrite Htot, uint_add_l, sumZ_take_S by lia. reflexivity. }
  rewrite Hstep.
  destruct (Z.geb_spec (uint (sumZ (take (S (Z.to_nat i)) (_stoch_hist.data h)))) p) as [Hge|Hlt].
  - exists i. repeat split; try lia.
  - assert (Hi' : i <> 255).
    { intros ->. rewrite take_ge in Hlt by lia. lia. }
    rewrite uchar_small by lia.
    destruct (IH fuel h p (i + 1) i (uint (sumZ (take (S (Z.to_nat i)) (_stoch_hist.data h)))))
      as (v & Hv & Hr & Hpv & Hmin); try lia.
    { replace (Z.to_nat (i + 1)) with (S (Z.to_nat i)) by lia. reflexivity. }
    exists v. repeat split; try lia; try assumption.
    intros u Hu. destruct (Z.eq_dec u i) as [->|Hne]; [lia|]. apply Hmin. lia.
Qed.

Lemma after_same w : after w (drawn w) (calls w) = w.
Proof. destruct w; reflexivity. Qed.

Lemma drawn_p_le w h :
  wf_hist (hist_at (stoch_hist w) h) -> _stoch_hist.total (hist_at (stoch_hist w) h) <> 0 ->
  drawn_p w h <= uint (sumZ (_stoch_hist.data (hist_at (stoch_hist w) h))).
Proof.
  intros [_ Ht] Hnz. rewrite <- Ht. unfold drawn_p.
  set (t := _stoch_hist.total (hist_at (stoch_hist w) h)) in *.
  set (j := entropy w (drawn w) mod 2 ^ (8 * 4)).
  assert (0 < t) by (pose proof (uint_range (sumZ (_stoch_hist.data (hist_at (stoch_hist w) h)))); lia).
  pose proof (Z.mod_pos_bound j t ltac:(lia)) as Hr.
  pose proof (uchar_range (j mod t)) as Hc.
  rewrite uint_small by lia.
  assert (uchar (j mod t) <= j mod t); [|lia].
  unfold uchar. apply Z.mod_le; [lia|]. change (2 ^ 8) with 256. lia.
Qed.

Lemma stoch_hist_val_returns fuel h prev w :
  wf_hist (hist_at (stoch_hist w) h) -> (256 <= fuel)%nat ->
  exists v d, stoch_hist_val fuel h prev w = Some (v, after w d (calls w ++ [v])) /\
              0 <= v < 256.
Proof.
  intros Hwf Hfuel. unfold stoch_hist_val, bind, gets.
  destruct (Z.eqb_spec (_stoch_hist.total (hist_at (stoch_hist w) h)) 0) as [Hz|Hnz].
  - exists 0, (drawn w). split; [reflexivity|lia].
  - unfold get_random_bytes.
    destruct (stoch_hist_val_loop_stops 256 fuel (hist_at (stoch_hist w) h)
                (drawn_p w h) 0 0 0) as (v & Hv & Hr & _); try lia.
    + apply Hwf.
    + reflexivity.
    + apply drawn_p_le; assumption.
    + unfold drawn_p in Hv. rewrite Hv.
      exists v, (S (drawn w)). split; [reflexivity|lia].
Qed.

(** A call of the sampler changes nothing but the entropy position and
    the history, and its result does not depend on the history or on
    [stoch_prev]. *)
Lemma stoch_hist_val_frame fuel h prev w v w' :
  stoch_hist_val fuel h prev w = Some (v, w') ->
  exists d, w' = after w d (calls w ++ [v]) /\
    forall sp c,
      stoch_hist_val fuel h prev (mkWorld (stoch_hist w) sp (entropy w) (drawn w) c)
      = Some (v, mkWorld (stoch_hist w) sp (entropy w) d (c ++ [v])).
Proof.
  unfold stoch_hist_val, bind, gets. cbn [stoch_hist entropy drawn calls].
  destruct (_stoch_hist.total (hist_at (stoch_hist w) h) =? 0).
  - intros [= <- <-]. exists (drawn w). split; reflexivity.
  - unfold get_random_bytes. cbn [stoch_hist entropy drawn calls].
    destruct (stoch_hist_val_loop fuel _ _ 0 0 0) as [val|]; [|discriminate].
    intros [= <- <-]. exists (S (drawn w)). split; reflexivity.
Qed.

(** ** The walk of the sampler against the spec's walk *)

(** On a histogram with exact totals below 2^32, the loop of
    [stoch_hist_val] started with the threshold [r] is the spec's walk. *)
Lemma stoch_hist_val_loop_walk n : forall fuel h r i val,
  exact_hist h -> sumZ (_stoch_hist.data h) < 4294967296 -> r <= sumZ (_stoch_hist.data h) ->
  0 <= i -> (1 <= n)%nat -> i + Z.of_nat n = 256 -> (n <= fuel)%nat ->
  stoch_hist_val_loop fuel h r i val (uint (sumZ (take (Z.to_nat i) (_stoch_hist.data h))))
  = first_reaching (drop (Z.to_nat i) (_stoch_hist.data h)) r i
      (sumZ (take (Z.to_nat i) (_stoch_hist.data h))).
Proof.
  induction n as [|n IH]; intros fuel h r i val Hex Hlim Hr Hi Hn Hin Hfuel; [lia|].
  destruct fuel as [|fuel]; [lia|]. destruct Hex as (Hlen & Hnn & Ht).
  destruct (lookup_lt_is_Some_2 (_stoch_hist.data h) (Z.to_nat i) ltac:(lia)) as [c Hc].
  rewrite (drop_S _ _ _ Hc). cbn [stoch_hist_val_loop first_reaching].
  replace (i <? STOCH_HIST_SIZE) with true
    by (symmetry; apply Z.ltb_lt; unfold STOCH_HIST_SIZE; lia).
  pose proof (sumZ_take_le (_stoch_hist.data h) (Z.to_nat i) Hnn) as Hpi.
  pose proof (sumZ_take_le (_stoch_hist.data h) (S (Z.to_nat i)) Hnn) as Hps.
  pose proof (sumZ_take_S (_stoch_hist.data h) (Z.to_nat i) ltac:(lia)) as Hstep.
  rewrite Hc in Hstep. cbn [default from_option id] in Hstep.
  assert (Hrd : rd (_stoch_hist.data h) i = c) by (unfold rd; now rewrite Hc).
  rewrite Hrd, uint_add_l, <- Hstep, (uint_small (sumZ (take (S _) _))) by lia.
  rewrite Z.geb_leb.
  destruct (Z.leb_spec r (sumZ (take (S (Z.to_nat i)) (_stoch_hist.data h)))) as [Hle|Hgt];
    [reflexivity|].
  assert (Hi' : i <> 255).
  { intros ->. rewrite take_ge in Hgt by lia. lia. }
  rewrite uchar_small by lia.
  replace (S (Z.to_nat i)) with (Z.to_nat (i + 1)) by lia.
  rewrite <- (uint_small (sumZ (take (Z.to_nat (i + 1)) _)))
    by (replace (Z.to_nat (i + 1)) with (S (Z.to_nat i)) by lia; lia).
  rewrite (uint_small (sumZ (take (Z.to_nat (i + 1)) _))) at 2
    by (replace (Z.to_nat (i + 1)) with (S (Z.to_nat i)) by lia; lia).
  apply (IH fuel h r (i + 1) i); try lia. repeat split; assumption.
Qed.

(** While the total is at most 256 (and below overflow) the sampler is
    the walk of the spec: the cast of the draw to [unsigned char] changes
    nothing there. *)
Lemma sampler_follows_spec_small_total fuel w h j :
  exact_hist (hist_at (stoch_hist w) h) ->
  0 < _stoch_hist.total (hist_at (stoch_hist w) h) <= 256 ->
  0 <= j < 4294967296 -> (256 <= fuel)%nat ->
  sample_at fuel w h j = spec_sample (hist_at (stoch_hist w) h) j.
Proof.
  intros Hex Htot Hj Hfuel. pose proof Hex as (Hlen & Hnn & Ht).
  unfold sample_at, stoch_hist_val, bind, gets, spec_sample.
  cbn [stoch_hist entropy drawn calls].
  destruct (Z.eqb_spec (_stoch_hist.total (hist_at (stoch_hist w) h)) 0) as [?|_]; [lia|].
  unfold get_random_bytes. cbn [stoch_hist entropy drawn calls].
  change (2 ^ (8 * 4)) with 4294967296. rewrite (Z.mod_small j) by lia.
  pose proof (Z.mod_pos_bound j (_stoch_hist.total (hist_at (stoch_hist w) h)) ltac:(lia)) as Hr.
  rewrite uchar_small, uint_small by lia.
  pose proof (stoch_hist_val_loop_walk 256 fuel (hist_at (stoch_hist w) h)
                (j mod _stoch_hist.total (hist_at (stoch_hist w) h)) 0 0 Hex) as Hwalk.
  change (Z.to_nat 0) with 0%nat in Hwalk. rewrite take_0, drop_0 in Hwalk.
  change (sumZ []) with 0 in Hwalk. change (uint 0) with 0 in Hwalk.
  rewrite Hwalk by lia.
  destruct (first_reaching _ _ 0 0); reflexivity.
Qed.

(** Whatever the counts, the draw 0 returns symbol 0. *)
Lemma draw_zero_returns_zero fuel w h :
  0 < _stoch_hist.total (hist_at (stoch_hist w) h) -> (1 <= fuel)%nat ->
  sample_at fuel w h 0 = Some 0.
Proof.
  intros Htot Hfuel. unfold sample_at, stoch_hist_val, bind, gets.
  cbn [stoch_hist entropy drawn calls].
  destruct (Z.eqb_spec (_stoch_hist.total (hist_at (stoch_hist w) h)) 0) as [?|_]; [lia|].
  unfold get_random_bytes. cbn [stoch_hist entropy drawn calls].
  change (0 mod 2 ^ (8 * 4)) with 0. rewrite Z.mod_0_l by lia.
  change (uint (uchar 0)) with 0.
  destruct fuel as [|fuel]; [lia|]. cbn [stoch_hist_val_loop].
  change (0 <? STOCH_HIST_SIZE) with true. cbn match.
  pose proof (uint_range (0 + rd (_stoch_hist.data (hist_at (stoch_hist w) h)) 0)) as Hu.
  destruct (Z.geb_spec (uint (0 + rd (_stoch_hist.data (hist_at (stoch_hist w) h)) 0)) 0); [|lia].
  reflexivity.
Qed.

(** C1 does not hold of the code.  After training "AAAAB" the histogram
    of context 'A' has the counts 3 for 'A' and 1 for 'B' (total 4).  Of
    the four draws 0..3, one returns symbol 0, whose count is 0 (the walk
    stops at once when r = 0, because it tests [tot >= p]), three return
    'A' and none returns 'B', whose count is 1. *)
Theorem sampler_not_proportional :
  let w := train [x41; x41; x41; x41; x42] (world_init (rnd_of [])) in
  let h := hist_at (stoch_hist w) 65 in
  exec (stoch_write [x41; x41; x41; x41; x42]) (world_init (rnd_of [])) = Some w /\
  _stoch_hist.total h = 4 /\
  rd (_stoch_hist.data h) 0 = 0 /\
  rd (_stoch_hist.data h) 65 = 3 /\
  rd (_stoch_hist.data h) 66 = 1 /\
  sample_at 256 w 65 0 = Some 0 /\ sample_at 256 w 65 1 = Some 65 /\
  sample_at 256 w 65 2 = Some 65 /\ sample_at 256 w 65 3 = Some 65 /\
  hits 256 w 65 0 = 1 /\ hits 256 w 65 65 = 3 /\ hits 256 w 65 66 = 0 /\
  ~ (forall s, 0 <= s < 256 -> hits 256 w 65 s = rd (_stoch_hist.data h) s).
Proof.
  cbv zeta. repeat split; try (vm_compute; reflexivity).
  intros H. specialize (H 66 ltac:(lia)). vm_compute in H. discriminate.
Qed.

(** C2 does not hold of the code.  After 301 bytes 'B' the histogram of
    context 'B' has the count 300 for 'B' (total 300).  On the draw 256
    the value r = 256 mod 300 = 256 lies in [0, total), and the first
    symbol whose running sum reaches it is 'B'; the code casts r to
    [unsigned char], compares with 0 and returns symbol 0. *)
Theorem sampler_truncates_draw :
  let w := train (replicate 301 x42) (world_init (rnd_of [])) in
  let h := hist_at (stoch_hist w) 66 in
  exec (stoch_write (replicate 301 x42)) (world_init (rnd_of [])) = Some w /\
  _stoch_hist.total h = 300 /\ rd (_stoch_hist.data h) 66 = 300 /\
  spec_sample h 256 = Some 66 /\
  sample_at 256 w 66 256 = Some 0 /\
  sample_at 256 w 66 256 <> spec_sample h 256.
Proof.
  cbv zeta. repeat split; try (vm_compute; reflexivity).
  vm_compute. discriminate.
Qed.

(** ** The generator: frame and termination *)

Lemma stoch_hist_gen_start_range n : forall m i j tot prev,
  0 <= prev < 256 -> 0 <= stoch_hist_gen_start n m i j tot prev < 256.
Proof.
  induction n as [|n IH]; intros m i j tot prev Hp; cbn [stoch_hist_gen_start]; [exact Hp|].
  destruct (j <? STOCH_HIST_SIZE); [|exact Hp].
  destruct (_ >=? i); [apply uchar_range|apply IH, uchar_range].
Qed.

(** The first block draws at most one value and leaves [prev] a byte. *)
Lemma stoch_hist_gen_choose_eq size w :
  exists pos prev d,
    stoch_hist_gen_choose size w = Some ((pos, prev), after w d (calls w)) /\
    0 <= prev < 256 /\
    (model.total (stoch_hist w) = 0 -> pos = 0 /\ d = drawn w) /\
    (model.total (stoch_hist w) <> 0 -> pos = int size /\ d = S (drawn w)) /\
    forall sp c,
      stoch_hist_gen_choose size (mkWorld (stoch_hist w) sp (entropy w) (drawn w) c)
      = Some ((pos, prev), mkWorld (stoch_hist w) sp (entropy w) d c).
Proof.
  unfold stoch_hist_gen_choose, bind, gets. cbn [stoch_hist entropy drawn calls].
  destruct (Z.eqb_spec (model.total (stoch_hist w)) 0) as [Hz|Hnz].
  - exists 0, 0, (drawn w). unfold ret. rewrite after_same.
    repeat split; try lia; try reflexivity.
  - unfold get_random_bytes, ret. cbn [stoch_hist entropy drawn calls].
    eexists _, _, (S (drawn w)). split; [reflexivity|].
    split; [apply stoch_hist_gen_start_range; lia|].
    repeat split; try lia; try reflexivity.
Qed.

Lemma stoch_hist_gen_loop_frame n : forall fuel size i pos prev buff w b p w',
  stoch_hist_gen_loop fuel size n i pos prev buff w = Some ((b, p), w') ->
  exists d smp, w' = after w d (calls w ++ smp) /\
    forall sp c,
      stoch_hist_gen_loop fuel size n i pos prev buff
        (mkWorld (stoch_hist w) sp (entropy w) (drawn w) c)
      = Some ((b, p), mkWorld (stoch_hist w) sp (entropy w) d (c ++ smp)).
Proof.
  induction n as [|n IH]; intros fuel size i pos prev buff w b p w' H;
    cbn [stoch_hist_gen_loop] in *.
  - injection H as <- <- <-. exists (drawn w), [].
    rewrite app_nil_r, after_same. split; [reflexivity|].
    intros sp c. now rewrite app_nil_r.
  - destruct (size_t pos =? size).
    + unfold bind in H at 1.
      destruct (stoch_hist_val fuel prev prev w) as [[v w1]|] eqn:Hv; [|discriminate].
      destruct (stoch_hist_val_frame _ _ _ _ _ _ Hv) as (d1 & -> & Hv').
      destruct (IH _ _ _ _ _ _ _ _ _ _ H) as (d & smp & -> & Hrest).
      exists d, (v :: smp). cbn [after stoch_hist stoch_prev entropy drawn calls] in *.
      rewrite <- app_assoc. split; [reflexivity|].
      intros sp c. unfold bind at 1. rewrite Hv'.
      rewrite (Hrest sp (c ++ [v])), <- app_assoc. reflexivity.
    + destruct (IH _ _ _ _ _ _ _ _ _ _ H) as (d & smp & -> & Hrest).
      exists d, smp. split; [reflexivity|]. exact Hrest.
Qed.

Lemma stoch_hist_gen_loop_returns n : forall fuel size i pos prev buff w,
  wf_model (stoch_hist w) -> 0 <= prev < 256 -> (256 <= fuel)%nat ->
  exists r w', stoch_hist_gen_loop fuel size n i pos prev buff w = Some (r, w').
Proof.
  induction n as [|n IH]; intros fuel size i pos prev buff w Hwf Hp Hfuel;
    cbn [stoch_hist_gen_loop].
  - eexists _, _. reflexivity.
  - destruct (size_t pos =? size).
    + destruct (stoch_hist_val_returns fuel prev prev w) as (v & d & Hv & Hr);
        [apply wf_hist_at; assumption|exact Hfuel|].
      unfold bind at 1. rewrite Hv. apply IH; try assumption.
      apply rd_insert_range, Hr.
    + apply IH; assumption.
Qed.

Lemma take_S_insert (b : list Z) i v :
  (i < length b)%nat -> take (S i) (<[i := v]> b) = take i b ++ [v].
Proof.
  intros Hi. rewrite (take_S_r _ _ v) by (now apply list_lookup_insert_eq).
  now rewrite take_insert_ge by lia.
Qed.

(** The loop overwrites every position from [i] on: what the buffer held
    there before the call does not matter. *)
Lemma stoch_hist_gen_loop_buffer n : forall fuel size i pos prev b1 b2 w,
  length b1 = length b2 -> 0 <= i -> (Z.to_nat i + n = length b1)%nat ->
  take (Z.to_nat i) b1 = take (Z.to_nat i) b2 ->
  stoch_hist_gen_loop fuel size n i pos prev b1 w
  = stoch_hist_gen_loop fuel size n i pos prev b2 w.
Proof.
  induction n as [|n IH]; intros fuel size i pos prev b1 b2 w Hlen Hi Hn Htake;
    cbn [stoch_hist_gen_loop].
  - rewrite !take_ge in Htake by lia. now subst.
  - assert (Hnext : forall v, take (Z.to_nat (i + 1)) (<[Z.to_nat i := v]> b1)
                              = take (Z.to_nat (i + 1)) (<[Z.to_nat i := v]> b2)).
    { intros v. replace (Z.to_nat (i + 1)) with (S (Z.to_nat i)) by lia.
      rewrite !take_S_insert by lia. now rewrite Htake. }
    destruct (size_t pos =? size).
    + unfold bind. destruct (stoch_hist_val fuel prev prev w) as [[v w1]|]; [|reflexivity].
      rewrite !rd_insert_eq by lia.
      apply IH; rewrite ?length_insert; try lia. apply Hnext.
    + apply IH; rewrite ?length_insert; try lia. apply Hnext.
Qed.

Lemma stoch_hist_gen_buffer fuel size b1 b2 w :
  length b1 = Z.to_nat size -> length b2 = Z.to_nat size ->
  stoch_hist_gen fuel b1 size w = stoch_hist_gen fuel b2 size w.
Proof.
  intros H1 H2. unfold stoch_hist_gen. apply bind_ext. intros start w1.
  unfold bind.
  rewrite (stoch_hist_gen_loop_buffer (Z.to_nat size) fuel size 0 (fst start) (snd start) b1 b2);
    [reflexivity|lia|lia|simpl; lia|reflexivity].
Qed.

(** The whole call changes nothing but the entropy position and the
    history, and its result depends on neither the history nor
    [stoch_prev]. *)
Lemma stoch_hist_gen_frame fuel buff size w o w' :
  stoch_hist_gen fuel buff size w = Some (o, w') ->
  exists d smp, w' = after w d (calls w ++ smp) /\
    forall sp c,
      stoch_hist_gen fuel buff size (mkWorld (stoch_hist w) sp (entropy w) (drawn w) c)
      = Some (o, mkWorld (stoch_hist w) sp (entropy w) d (c ++ smp)).
Proof.
  unfold stoch_hist_gen. intros H. unfold bind in H at 1.
  destruct (stoch_hist_gen_choose_eq size w) as (pos & prev & d0 & Hc & _ & _ & _ & Hc').
  rewrite Hc in H. unfold bind in H at 1. cbn [fst snd] in H.
  destruct (stoch_hist_gen_loop fuel size (Z.to_nat size) 0 pos prev buff
              (after w d0 (calls w))) as [[[b p] w1]|] eqn:Hl; [|discriminate].
  injection H as <- <-.
  destruct (stoch_hist_gen_loop_frame _ _ _ _ _ _ _ _ _ _ _ Hl) as (d & smp & -> & Hl').
  cbn [after stoch_hist stoch_prev entropy drawn calls] in *.
  exists d, smp. split; [reflexivity|].
  intros sp c. unfold bind at 1. rewrite Hc'. unfold bind at 1. cbn [fst snd].
  rewrite Hl'. reflexivity.
Qed.

Lemma stoch_hist_gen_returns fuel buff size w :
  wf w -> (256 <= fuel)%nat ->
  exists o w', stoch_hist_gen fuel buff size w = Some (o, w').
Proof.
  intros [Hwf _] Hfuel. unfold stoch_hist_gen. unfold bind at 1.
  destruct (stoch_hist_gen_choose_eq size w) as (pos & prev & d0 & -> & Hp & _).
  unfold bind at 1. cbn [fst snd].
  destruct (stoch_hist_gen_loop_returns (Z.to_nat size) fuel size 0 pos prev buff
              (after w d0 (calls w))) as ([b p] & w1 & ->); try assumption.
  eexists _, _. reflexivity.
Qed.

(** C9: a call of [stoch_hist_gen] that returns leaves [stoch_hist] (all
    counts, all totals, the grand total) and [stoch_prev] as they were,
    whatever the state, the size and the values of the entropy source.
    Its buffer and logical length are determined by [stoch_hist], the
    entropy sequence and the size: run again from the state it ended in,
    with the entropy source set back to the same sequence, it returns
    the same buffer and the same logical length, and so does any call on
    the same [stoch_hist] and entropy sequence, whatever [stoch_prev]
    holds and whatever the buffer of [size] bytes held before.  On a
    well-formed state the call does return (256 iterations of the
    sampler's walk are always enough). *)
Theorem generate_preserves_model fuel buff size w :
  (forall o w', stoch_hist_gen fuel buff size w = Some (o, w') ->
     stoch_hist w' = stoch_hist w /\ stoch_prev w' = stoch_prev w /\
     (exists w'', stoch_hist_gen fuel buff size (set_drawn (drawn w) w') = Some (o, w'') /\
                  stoch_hist w'' = stoch_hist w /\ stoch_prev w'' = stoch_prev w) /\
     (forall buff2 sp c,
        length buff = Z.to_nat size -> length buff2 = Z.to_nat size ->
        exists w2, stoch_hist_gen fuel buff2 size
                     (mkWorld (stoch_hist w) sp (entropy w) (drawn w) c) = Some (o, w2))) /\
  (wf w -> (256 <= fuel)%nat ->
     exists o w', stoch_hist_gen fuel buff size w = Some (o, w')).
Proof.
  split.
  - intros o w' H. destruct (stoch_hist_gen_frame _ _ _ _ _ _ H) as (d & smp & -> & Hagain).
    cbn [after stoch_hist stoch_prev]. split; [reflexivity|]. split; [reflexivity|].
    split.
    + eexists. split; [apply Hagain|]. split; reflexivity.
    + intros buff2 sp c H1 H2. eexists.
      rewrite (stoch_hist_gen_buffer fuel size buff2 buff) by assumption. apply Hagain.
  - apply stoch_hist_gen_returns.
Qed.

Lemma generate_preserves_model_witness :
  (wf (train [x41; x41; x41] (world_init (rnd_of [2; 1]))) /\ (256 <= 256)%nat) /\
  exists o w',
    stoch_hist_gen 256 [7] 1 (train [x41; x41; x41] (world_init (rnd_of [2; 1])))
    = Some (o, w') /\
    stoch_hist w' = stoch_hist (train [x41; x41; x41] (world_init (rnd_of [2; 1]))) /\
    stoch_prev w' = stoch_prev (train [x41; x41; x41] (world_init (rnd_of [2; 1]))).
Proof.
  assert (Hwf : wf (train [x41; x41; x41] (world_init (rnd_of [2; 1]))))
    by apply train_wf, wf_init.
  split; [split; [exact Hwf|lia]|].
  destruct (proj2 (generate_preserves_model 256 [7] 1
                     (train [x41; x41; x41] (world_init (rnd_of [2; 1])))) Hwf)
    as (o & w' & H); [lia|].
  exists o, w'. split; [exact H|].
  destruct (proj1 (generate_preserves_model 256 [7] 1
                     (train [x41; x41; x41] (world_init (rnd_of [2; 1])))) o w' H)
    as (H1 & H2 & _).
  split; assumption.
Defined.

(** ** The starting context *)

(** On the untrained model the starting context is 0 and nothing is
    drawn. *)
Lemma start_untrained size w :
  model.total (stoch_hist w) = 0 -> stoch_hist_gen_choose size w = Some ((0, 0), w).
Proof.
  intros Hz. unfold stoch_hist_gen_choose, bind, gets. rewrite Hz. reflexivity.
Qed.

(** C8 does not hold of the code.  After training "AB" the contexts 0
    and 'A' each hold one of the two trained bytes, but both draws 0 and
    1 choose context 0 (the walk tests [tot >= i], and the total of
    context 0 already reaches 1): context 'A' is never chosen. *)
Theorem start_not_proportional :
  let w := train [x41; x42] (world_init (rnd_of [])) in
  exec (stoch_write [x41; x42]) (world_init (rnd_of [])) = Some w /\
  model.total (stoch_hist w) = 2 /\
  _stoch_hist.total (hist_at (stoch_hist w) 0) = 1 /\
  _stoch_hist.total (hist_at (stoch_hist w) 65) = 1 /\
  start_at w 0 = Some 0 /\ start_at w 1 = Some 0 /\
  start_hits w 0 = 2 /\ start_hits w 65 = 0 /\
  ~ (forall c, 0 <= c < 256 ->
       start_hits w c = _stoch_hist.total (hist_at (stoch_hist w) c)).
Proof.
  cbv zeta. repeat split; try (vm_compute; reflexivity).
  intros H. specialize (H 65 ltac:(lia)). vm_compute in H. discriminate.
Qed.

(** ** The generator: the padding *)

Lemma zero_fill_length n : forall i buff, length (zero_fill n i buff) = length buff.
Proof.
  induction n as [|n IH]; intros i buff; cbn [zero_fill]; [reflexivity|].
  now rewrite IH, length_insert.
Qed.

Lemma zero_fill_before n : forall i buff j,
  0 <= i -> (j < Z.to_nat i)%nat -> zero_fill n i buff !! j = buff !! j.
Proof.
  induction n as [|n IH]; intros i buff j Hi Hj; cbn [zero_fill]; [reflexivity|].
  rewrite IH by lia. apply list_lookup_insert_ne. lia.
Qed.

Lemma zero_fill_inside n : forall i buff j,
  0 <= i -> (Z.to_nat i <= j < Z.to_nat i + n)%nat -> (j < length buff)%nat ->
  zero_fill n i buff !! j = Some 0.
Proof.
  induction n as [|n IH]; intros i buff j Hi Hj Hlen; cbn [zero_fill]; [lia|].
  destruct (decide (j = Z.to_nat i)) as [->|Hne].
  - rewrite zero_fill_before by lia. now apply list_lookup_insert_eq.
  - apply IH; [lia|lia|now rewrite length_insert].
Qed.

Lemma zero_fill_all buff : zero_fill (length buff) 0 buff = replicate (length buff) 0.
Proof.
  apply list_eq. intros j.
  destruct (decide (j < length buff)%nat) as [Hlt|Hge].
  - rewrite zero_fill_inside by (simpl; lia). now rewrite lookup_replicate_2.
  - rewrite !lookup_ge_None_2; [reflexivity| |]; rewrite ?zero_fill_length, ?length_replicate; lia.
Qed.

(** Once [pos] differs from [size] the loop only pads: it calls the
    sampler no more and keeps [pos]. *)
Lemma stoch_hist_gen_loop_inactive n : forall fuel size i pos prev buff w,
  size_t pos <> size ->
  stoch_hist_gen_loop fuel size n i pos prev buff w = Some ((zero_fill n i buff, pos), w).
Proof.
  induction n as [|n IH]; intros fuel size i pos prev buff w Hne;
    cbn [stoch_hist_gen_loop zero_fill]; [reflexivity|].
  destruct (Z.eqb_spec (size_t pos) size) as [He|_]; [contradiction|].
  now apply IH.
Qed.

(** With [stoch_hist.total] at 0 the call pads the whole buffer and
    touches nothing. *)
Lemma stoch_hist_gen_untrained fuel buff size w :
  model.total (stoch_hist w) = 0 -> 1 <= size -> length buff = Z.to_nat size ->
  stoch_hist_gen fuel buff size w = Some ((replicate (Z.to_nat size) 0, 0), w).
Proof.
  intros Hz Hsize Hlen. unfold stoch_hist_gen. unfold bind at 1.
  destruct (stoch_hist_gen_choose_eq size w) as (pos & prev & d & -> & _ & Hzero & _).
  destruct (Hzero Hz) as [-> ->]. rewrite after_same.
  unfold bind at 1. cbn [fst snd].
  rewrite stoch_hist_gen_loop_inactive by (rewrite size_t_small; lia).
  unfold ret. rewrite <- Hlen, zero_fill_all. reflexivity.
Qed.

(** C7: on every state whose [stoch_hist.total] is 0, and for every
    requested size of at least 1, [stoch_hist_gen] returns the buffer
    filled with [size] zeros and the logical length 0, and it ends in
    the state it started in: the sampler was not called (the history of
    its calls is the same) and no random value was drawn. *)
Theorem generate_untrained fuel buff size w :
  model.total (stoch_hist w) = 0 -> 1 <= size -> length buff = Z.to_nat size ->
  exists b pos w',
    stoch_hist_gen fuel buff size w = Some ((b, pos), w') /\
    length b = Z.to_nat size /\ (forall j v, b !! j = Some v -> v = 0) /\
    pos = 0 /\ calls w' = calls w /\ drawn w' = drawn w /\ w' = w.
Proof.
  intros Hz Hsize Hlen.
  exists (replicate (Z.to_nat size) 0), 0, w.
  split; [now apply stoch_hist_gen_untrained|].
  split; [apply length_replicate|].
  split; [|repeat split; reflexivity].
  intros j v Hj. apply lookup_replicate in Hj as [-> _]. reflexivity.
Qed.

Lemma generate_untrained_witness :
  (model.total (stoch_hist (world_init (rnd_of [5; 9]))) = 0 /\ 1 <= 3 /\
   length [7; 7; 7] = Z.to_nat 3) /\
  exists b pos w',
    stoch_hist_gen 256 [7; 7; 7] 3 (world_init (rnd_of [5; 9])) = Some ((b, pos), w') /\
    length b = Z.to_nat 3 /\ (forall j v, b !! j = Some v -> v = 0) /\
    pos = 0 /\ calls w' = calls (world_init (rnd_of [5; 9])) /\
    drawn w' = drawn (world_init (rnd_of [5; 9])) /\ w' = world_init (rnd_of [5; 9]).
Proof.
  split; [split; [reflexivity|split; [lia|reflexivity]]|].
  apply (generate_untrained 256 [7; 7; 7] 3 (world_init (rnd_of [5; 9])));
    [reflexivity|lia|reflexivity].
Defined.

(** ** The generator: the terminator *)

Lemma first_zero_lookup l : forall i, first_zero l = Some i -> l !! i = Some 0.
Proof.
  induction l as [|v l IH]; intros i H; cbn [first_zero] in H; [discriminate|].
  destruct (Z.eqb_spec v 0) as [->|_].
  - injection H as <-. reflexivity.
  - destruct (first_zero l) as [k|]; [|discriminate].
    injection H as <-. apply (IH k eq_refl).
Qed.

Lemma stoch_hist_gen_loop_active n : forall fuel size i prev buff w,
  wf_model (stoch_hist w) -> 0 <= prev < 256 -> (256 <= fuel)%nat ->
  0 <= i -> i + Z.of_nat n = size -> size <= INT_MAX ->
  length buff = Z.to_nat size ->
  exists b pos d smp,
    stoch_hist_gen_loop fuel size n i size prev buff w
    = Some ((b, pos), after w d (calls w ++ smp)) /\
    described buff b (Z.to_nat i) size n pos smp.
Proof.
  unfold INT_MAX. change (2 ^ 31 - 1) with 2147483647.
  induction n as [|n IH]; intros fuel size i prev buff w Hwf Hp Hfuel Hi Hin Hmax Hlen;
    cbn [stoch_hist_gen_loop].
  - exists buff, size, (drawn w), []. rewrite app_nil_r, after_same.
    split; [reflexivity|]. unfold described. cbn [length first_zero].
    repeat split; try reflexivity; try lia; try discriminate.
  - rewrite size_t_small by lia. rewrite Z.eqb_refl.
    destruct (stoch_hist_val_returns fuel prev prev w) as (v & d1 & Hv & Hr);
      [apply wf_hist_at; assumption|exact Hfuel|].
    unfold bind at 1. rewrite Hv.
    assert (Hilt : (Z.to_nat i < length buff)%nat) by lia.
    rewrite rd_insert_eq by exact Hilt.
    destruct (Z.eqb_spec v 0) as [->|Hnz].
    + rewrite int_small by lia.
      rewrite stoch_hist_gen_loop_inactive by (rewrite size_t_small; lia).
      exists (zero_fill n (i + 1) (<[Z.to_nat i := 0]> buff)), i, d1, [0].
      split; [reflexivity|]. unfold described. cbn [length first_zero Z.eqb].
      split; [now rewrite zero_fill_length, length_insert|].
      split; [lia|].
      split; [intros j Hj; rewrite zero_fill_before by lia;
              apply list_lookup_insert_ne; lia|].
      split.
      { intros [|k] v Hk; [|rewrite lookup_cons, lookup_nil in Hk; discriminate].
        injection Hk as <-. rewrite Nat.add_0_r, zero_fill_before by lia.
        now apply list_lookup_insert_eq. }
      split; [intros j Hj; apply zero_fill_inside; rewrite ?length_insert; lia|].
      split; [discriminate|]. intros k [= <-]. split; [lia|reflexivity].
    + destruct (IH fuel size (i + 1) v (<[Z.to_nat i := v]> buff) (after w d1 (calls w ++ [v])))
        as (b & pos & d & smp & Hrun & Hlb & Hls & Hbefore & Hsmp & Hzero & Hnone & Hsome);
        try assumption; try lia.
      { now rewrite length_insert. }
      rewrite Hrun. exists b, pos, d, (v :: smp).
      cbn [after stoch_hist stoch_prev entropy drawn calls]. rewrite <- app_assoc.
      split; [reflexivity|]. rewrite length_insert in *.
      replace (Z.to_nat (i + 1)) with (S (Z.to_nat i)) in * by lia.
      unfold described. cbn [length first_zero].
      destruct (Z.eqb_spec v 0) as [?|_]; [contradiction|].
      split; [exact Hlb|].
      split; [lia|].
      split; [intros j Hj; rewrite Hbefore by lia; apply list_lookup_insert_ne; lia|].
      split.
      { intros [|k] v' Hk.
        - injection Hk as <-. rewrite Nat.add_0_r, Hbefore by lia.
          now apply list_lookup_insert_eq.
        - rewrite lookup_cons in Hk.
          replace (Z.to_nat i + S k)%nat with (S (Z.to_nat i) + k)%nat by lia.
          now apply Hsmp. }
      split; [intros j Hj; apply Hzero; lia|].
      destruct (first_zero smp) as [k|]; cbn [fmap option_fmap option_map].
      * split; [discriminate|]. intros k' [= <-].
        destruct (Hsome k eq_refl) as [-> ->]. split; [lia|reflexivity].
      * split; [|discriminate]. intros _.
        destruct (Hnone eq_refl) as [-> ->]. split; reflexivity.
Qed.

(** If the model is trained and the size fits an [int], [pos] starts at
    [size] and the position of a terminator does not wrap. *)
Lemma stoch_hist_gen_trained fuel buff size w :
  wf w -> model.total (stoch_hist w) <> 0 -> 0 <= size <= INT_MAX ->
  length buff = Z.to_nat size -> (256 <= fuel)%nat ->
  exists b pos d smp,
    stoch_hist_gen fuel buff size w = Some ((b, pos), after w d (calls w ++ smp)) /\
    described buff b 0 size (Z.to_nat size) pos smp.
Proof.
  intros [Hwf _] Hnz Hsize Hlen Hfuel. unfold stoch_hist_gen. unfold bind at 1.
  destruct (stoch_hist_gen_choose_eq size w) as (pos0 & prev & d0 & -> & Hp & _ & Htr & _).
  destruct (Htr Hnz) as [-> ->]. unfold bind at 1. cbn [fst snd].
  assert (Hint : int size = size).
  { apply int_small. unfold INT_MAX in Hsize. change (2 ^ 31 - 1) with 2147483647 in Hsize. lia. }
  rewrite Hint.
  destruct (stoch_hist_gen_loop_active (Z.to_nat size) fuel size 0 prev buff
              (after w (S (drawn w)) (calls w)))
    as (b & pos & d & smp & -> & Hd); try assumption; try lia.
  exists b, pos, d, smp. split; [|exact Hd].
  unfold ret. cbn [fst snd after stoch_hist stoch_prev entropy drawn calls].
  do 3 f_equal. apply size_t_small.
  destruct Hd as (_ & Hls & _ & _ & _ & Hnone & Hsome).
  unfold INT_MAX in Hsize. change (2 ^ 31 - 1) with 2147483647 in Hsize.
  destruct (first_zero smp) as [k|] eqn:Hk.
  - destruct (Hsome k eq_refl) as [-> Hl]. lia.
  - destruct (Hnone eq_refl) as [-> _]. lia.
Qed.

(** When [size] does not fit the [int] that holds [pos], a trained model
    generates nothing: the loop only pads, and the call returns the
    wrapped value of [pos]. *)
Lemma stoch_hist_gen_oversized fuel buff size w :
  model.total (stoch_hist w) <> 0 -> size_t (int size) <> size ->
  stoch_hist_gen fuel buff size w
  = Some ((zero_fill (Z.to_nat size) 0 buff, size_t (int size)),
          after w (S (drawn w)) (calls w)).
Proof.
  intros Hnz Hne. unfold stoch_hist_gen. unfold bind at 1.
  destruct (stoch_hist_gen_choose_eq size w) as (pos0 & prev & d0 & -> & _ & _ & Htr & _).
  destruct (Htr Hnz) as [-> ->]. unfold bind at 1. cbn [fst snd].
  rewrite stoch_hist_gen_loop_inactive by exact Hne. reflexivity.
Qed.

(** C4 (as the code has it): on a well-formed state with
    [stoch_hist.total] not 0, for a size between 1 and [INT_MAX] and a
    buffer of that size, [stoch_hist_gen] returns and obeys the rule of
    the terminator: if the first 0 the sampler returns is its i-th
    result, the sampler is called no more, positions i to size-1 hold 0
    and the logical length is i; if the sampler never returns 0 the
    logical length is [size]; the logical length lies in [0, size]. *)
Theorem generate_stops_at_terminator fuel buff size w :
  wf w -> model.total (stoch_hist w) <> 0 -> 1 <= size <= INT_MAX ->
  length buff = Z.to_nat size -> (256 <= fuel)%nat ->
  generates_by_rule fuel buff size w.
Proof.
  intros Hwf Hnz Hsize Hlen Hfuel.
  destruct (stoch_hist_gen_trained fuel buff size w)
    as (b & pos & d & smp & Hrun & Hlb & Hls & _ & Hsmp & Hzero & Hnone & Hsome);
    try assumption; try lia.
  exists b, pos, (after w d (calls w ++ smp)), smp.
  split; [exact Hrun|]. split; [reflexivity|].
  unfold terminator_rule. split; [lia|].
  split.
  { destruct (first_zero smp) as [k|] eqn:Hk.
    - destruct (Hsome k eq_refl) as [-> Hl]. lia.
    - destruct (Hnone eq_refl) as [-> _]. lia. }
  split; [intros k v Hk; apply (Hsmp k v Hk)|].
  split.
  - intros i Hi. destruct (Hsome i Hi) as [-> Hl]. split; [reflexivity|].
    split; [exact Hl|]. intros j Hj.
    destruct (decide (j = i)) as [->|Hne].
    + apply (Hsmp i 0), first_zero_lookup, Hi.
    + apply Hzero. lia.
  - intros Hn. apply Hnone, Hn.
Qed.

Lemma generate_stops_at_terminator_witness :
  (wf (train [x41; x41; x41] (world_init (rnd_of [2; 1; 0]))) /\
   model.total (stoch_hist (train [x41; x41; x41] (world_init (rnd_of [2; 1; 0])))) <> 0 /\
   1 <= 3 <= INT_MAX /\ length [7; 7; 7] = Z.to_nat 3 /\ (256 <= 256)%nat) /\
  generates_by_rule 256 [7; 7; 7] 3 (train [x41; x41; x41] (world_init (rnd_of [2; 1; 0]))).
Proof.
  assert (H1 : wf (train [x41; x41; x41] (world_init (rnd_of [2; 1; 0]))))
    by apply train_wf, wf_init.
  assert (H2 : model.total (stoch_hist (train [x41; x41; x41] (world_init (rnd_of [2; 1; 0])))) <> 0)
    by (vm_compute; discriminate).
  assert (H3 : 1 <= 3 <= INT_MAX) by (vm_compute; split; discriminate).
  split; [repeat split; try assumption; try reflexivity; try apply H1; try apply H3; lia|].
  apply (generate_stops_at_terminator 256 [7; 7; 7] 3
           (train [x41; x41; x41] (world_init (rnd_of [2; 1; 0]))) H1 H2 H3 eq_refl).
  lia.
Defined.

(** The rule fails where the claim has no restriction: on the untrained
    model no symbol is sampled, yet the logical length is 0 and not the
    size; and a size of 2^31 makes [pos] negative, so that a trained
    model generates nothing and returns a length above the size. *)
Lemma generate_rule_counterexample :
  ~ generates_by_rule 256 [7] 1 (world_init (rnd_of [])) /\
  ~ generates_by_rule 256 (replicate (Z.to_nat 2147483648) 7) 2147483648
      (train [x41] (world_init (rnd_of []))).
Proof.
  split.
  - intros (b & pos & w' & smp & Hrun & Hcalls & _ & _ & _ & _ & Hnone).
    rewrite stoch_hist_gen_untrained in Hrun; [|reflexivity|lia|reflexivity].
    injection Hrun as <- <- <-. cbn [calls world_init app] in Hcalls. subst smp.
    specialize (Hnone eq_refl). discriminate.
  - intros (b & pos & w' & smp & Hrun & _ & _ & Hpos & _).
    pose proof (stoch_hist_gen_oversized 256 (replicate (Z.to_nat 2147483648) 7)
                  2147483648 (train [x41] (world_init (rnd_of [])))) as H.
    assert (Hv : size_t (int 2147483648) = 18446744071562067968) by reflexivity.
    assert (Hm : model.total (stoch_hist (train [x41] (world_init (rnd_of [])))) = 1)
      by (vm_compute; reflexivity).
    rewrite Hv, Hm in H.
    specialize (H ltac:(discriminate) ltac:(discriminate)).
    revert H. generalize (zero_fill (Z.to_nat 2147483648) 0 (replicate (Z.to_nat 2147483648) 7)).
    intros b0 H. rewrite H in Hrun. injection Hrun as _ <- _. lia.
Qed.

(** ** The training cursor *)

Lemma stoch_hists_clear_prev w :
  exists w', stoch_hists_clear w = Some (tt, w') /\ stoch_prev w' = stoch_prev w.
Proof. eexists. split; reflexivity. Qed.

Lemma stoch_hist_clear_prev h w :
  exists w', stoch_hist_clear h w = Some (tt, w') /\ stoch_prev w' = stoch_prev w.
Proof. eexists. split; reflexivity. Qed.

Lemma first_byte_counted x :
  rd (_stoch_hist.data (hist_at (updated 0 (byte_val x) model_zero) 0)) (byte_val x) = 1.
Proof.
  pose proof (byte_val_range x) as Hx.
  unfold updated. rewrite hist_at_model_zero by lia.
  unfold model_zero at 1. cbn [model.data model.total].
  rewrite hist_at_insert_eq by (rewrite length_replicate; unfold STOCH_HIST_SIZE; lia).
  cbn [_stoch_hist.data hist_zero].
  rewrite rd_insert_eq by (rewrite length_replicate; unfold STOCH_HIST_SIZE; lia).
  rewrite rd_replicate. destruct (decide _); reflexivity.
Qed.

(** C10: the static storage [stoch_prev] starts at 0, so the first byte
    [x] of the first call of [stoch_write] is counted in the histogram
    of context 0: the state after that byte has [data[0].data[x] = 1]
    (it was 0) and [stoch_prev = x], and the rest of the chunk is
    trained from there.  Every call of [stoch_write] on a non-empty
    chunk leaves the last byte in [stoch_prev]; the two reset functions
    and [stoch_hist_gen] return with [stoch_prev] as it was (and on a
    well-formed state [stoch_hist_gen] does return). *)
Theorem cursor_starts_at_zero rnd x rest tmp h fuel buff size w :
  stoch_prev (world_init rnd) = 0 /\
  (exists w1,
     exec (stoch_write [x]) (world_init rnd) = Some w1 /\
     exec (stoch_write (x :: rest)) (world_init rnd) = exec (stoch_write rest) w1 /\
     rd (_stoch_hist.data (hist_at (stoch_hist (world_init rnd)) 0)) (byte_val x) = 0 /\
     rd (_stoch_hist.data (hist_at (stoch_hist w1) 0)) (byte_val x) = 1 /\
     stoch_prev w1 = byte_val x) /\
  (exists w', exec (stoch_write (tmp ++ [x])) w = Some w' /\ stoch_prev w' = byte_val x) /\
  (exists w', stoch_hists_clear w = Some (tt, w') /\ stoch_prev w' = stoch_prev w) /\
  (exists w', stoch_hist_clear h w = Some (tt, w') /\ stoch_prev w' = stoch_prev w) /\
  (forall o w', stoch_hist_gen fuel buff size w = Some (o, w') ->
                stoch_prev w' = stoch_prev w) /\
  (wf w -> (256 <= fuel)%nat ->
   exists o w', stoch_hist_gen fuel buff size w = Some (o, w') /\
                stoch_prev w' = stoch_prev w).
Proof.
  split; [reflexivity|]. split.
  { exists (train [x] (world_init rnd)).
    pose proof (ready_init rnd) as Hr.
    split; [apply exec_stoch_write, Hr|].
    split; [rewrite !exec_stoch_write; [reflexivity|apply (train_ready [x]), Hr|exact Hr]|].
    split.
    { cbn [world_init stoch_hist]. pose proof (byte_val_range x).
      rewrite hist_at_model_zero by lia. unfold hist_zero. cbn [_stoch_hist.data].
      rewrite rd_replicate. destruct (decide _); reflexivity. }
    split; [apply first_byte_counted|reflexivity]. }
  split; [apply stoch_write_sets_prev|].
  split; [apply stoch_hists_clear_prev|].
  split; [apply stoch_hist_clear_prev|].
  assert (Hgen : forall o w', stoch_hist_gen fuel buff size w = Some (o, w') ->
                              stoch_prev w' = stoch_prev w).
  { intros o w' H. destruct (stoch_hist_gen_frame _ _ _ _ _ _ H) as (d & smp & -> & _).
    reflexivity. }
  split; [exact Hgen|].
  intros Hwf Hfuel. destruct (stoch_hist_gen_returns fuel buff size w Hwf Hfuel) as (o & w' & H).
  exists o, w'. split; [exact H|]. apply (Hgen o w' H).
Qed.

Lemma cursor_starts_at_zero_witness :
  (wf (train [x41; x41; x41] (world_init (rnd_of [2; 1]))) /\ (256 <= 256)%nat) /\
  exists o w',
    stoch_hist_gen 256 [7] 1 (train [x41; x41; x41] (world_init (rnd_of [2; 1]))) = Some (o, w') /\
    stoch_prev w' = stoch_prev (train [x41; x41; x41] (world_init (rnd_of [2; 1]))).
Proof.
  split; [split; [apply train_wf, wf_init|lia]|].
  apply (proj2 (proj2 (proj2 (proj2 (proj2 (proj2
           (cursor_starts_at_zero (rnd_of []) x41 [] [] 0 256 [7] 1
              (train [x41; x41; x41] (world_init (rnd_of [2; 1])))))))))).
  - apply train_wf, wf_init.
  - lia.
Defined.

(** * Further properties of src/stoch2.c *)

(** ** What training counts *)

Lemma updated_shaped h x m : shaped m -> shaped (updated h x m).
Proof.
  intros [Hl Hall]. unfold updated. split; cbn [model.data].
  - now rewrite length_insert.
  - destruct (decide (Z.to_nat h < length (model.data m))%nat) as [Hlt|Hge].
    + apply Forall_insert; [exact Hall|]. cbn [_stoch_hist.data].
      rewrite length_insert.
      apply (Forall_lookup_1 _ _ _ _ Hall (hist_at_lookup m h Hlt)).
    + rewrite list_insert_ge by lia. exact Hall.
Qed.

Lemma hist_at_insert (l : list _stoch_hist.t) t i j v :
  (Z.to_nat i < length l)%nat -> 0 <= i -> 0 <= j ->
  hist_at (model.mk (<[Z.to_nat i := v]> l) t) j
  = if j =? i then v else hist_at (model.mk l t) j.
Proof.
  intros Hi Hi0 Hj0. destruct (Z.eqb_spec j i) as [->|Hne].
  - now apply hist_at_insert_eq.
  - unfold hist_at. cbn [model.data]. rewrite list_lookup_insert_ne by lia. reflexivity.
Qed.

Lemma rd_insert (l : list Z) i j v :
  (Z.to_nat i < length l)%nat -> 0 <= i -> 0 <= j ->
  rd (<[Z.to_nat i := v]> l) j = if j =? i then v else rd l j.
Proof.
  intros Hi Hi0 Hj0. destruct (Z.eqb_spec j i) as [->|Hne].
  - now apply rd_insert_eq.
  - unfold rd. rewrite list_lookup_insert_ne by lia. reflexivity.
Qed.

(** The counters and totals of the model after one update. *)
Lemma updated_lookup h x m a b :
  shaped m -> 0 <= h < 256 -> 0 <= x < 256 -> 0 <= a -> 0 <= b ->
  rd (_stoch_hist.data (hist_at (updated h x m) a)) b
  = (if (a =? h) && (b =? x) then uint (rd (_stoch_hist.data (hist_at m a)) b + 1)
     else rd (_stoch_hist.data (hist_at m a)) b) /\
  _stoch_hist.total (hist_at (updated h x m) a)
  = (if a =? h then uint (_stoch_hist.total (hist_at m a) + 1)
     else _stoch_hist.total (hist_at m a)).
Proof.
  intros [Hl Hall] Hh Hx Ha Hb.
  assert (Hlt : (Z.to_nat h < length (model.data m))%nat) by lia.
  pose proof (Forall_lookup_1 _ _ _ _ Hall (hist_at_lookup m h Hlt)) as Hlh.
  unfold updated. rewrite hist_at_insert by lia.
  destruct m as [hs g]. cbn [model.data model.total] in *.
  destruct (Z.eqb_spec a h) as [->|Hne]; cbn [andb _stoch_hist.data _stoch_hist.total].
  - split; [|reflexivity]. rewrite rd_insert by lia.
    destruct (Z.eqb_spec b x) as [->|_]; reflexivity.
  - split; reflexivity.
Qed.

(** X1: [stoch_hist_update] on the histogram [h] with the byte [x]
    adds one (in 32-bit arithmetic) to the counter of [x] in [h], to the
    total of [h] and to [stoch_hist.total], and changes no other counter
    and no other total; [stoch_prev] stays. *)
Theorem stoch_hist_update_one_counter h x w :
  shaped (stoch_hist w) -> 0 <= h < 256 ->
  exists w',
    stoch_hist_update h x w = Some (tt, w') /\
    shaped (stoch_hist w') /\
    stoch_prev w' = stoch_prev w /\
    model.total (stoch_hist w') = uint (model.total (stoch_hist w) + 1) /\
    forall a b, 0 <= a < 256 -> 0 <= b < 256 ->
      rd (_stoch_hist.data (hist_at (stoch_hist w') a)) b
      = (if (a =? h) && (b =? byte_val x)
         then uint (rd (_stoch_hist.data (hist_at (stoch_hist w) a)) b + 1)
         else rd (_stoch_hist.data (hist_at (stoch_hist w) a)) b) /\
      _stoch_hist.total (hist_at (stoch_hist w') a)
      = (if a =? h then uint (_stoch_hist.total (hist_at (stoch_hist w) a) + 1)
         else _stoch_hist.total (hist_at (stoch_hist w) a)).
Proof.
  intros Hs Hh. pose proof Hs as [Hl _].
  eexists. split; [apply stoch_hist_update_eq; lia|].
  cbn [stoch_hist stoch_prev set_stoch_hist].
  split; [now apply updated_shaped|]. split; [reflexivity|]. split; [reflexivity|].
  intros a b Ha Hb. apply updated_lookup; try assumption; try lia.
  apply byte_val_range.
Qed.

Lemma stoch_hist_update_one_counter_witness :
  (shaped (stoch_hist (world_init (rnd_of []))) /\ 0 <= 65 < 256) /\
  exists w',
    stoch_hist_update 65 x42 (world_init (rnd_of [])) = Some (tt, w') /\
    shaped (stoch_hist w') /\
    stoch_prev w' = stoch_prev (world_init (rnd_of [])) /\
    model.total (stoch_hist w') = uint (model.total (stoch_hist (world_init (rnd_of []))) + 1) /\
    forall a b, 0 <= a < 256 -> 0 <= b < 256 ->
      rd (_stoch_hist.data (hist_at (stoch_hist w') a)) b
      = (if (a =? 65) && (b =? byte_val x42)
         then uint (rd (_stoch_hist.data (hist_at (stoch_hist (world_init (rnd_of []))) a)) b + 1)
         else rd (_stoch_hist.data (hist_at (stoch_hist (world_init (rnd_of []))) a)) b) /\
      _stoch_hist.total (hist_at (stoch_hist w') a)
      = (if a =? 65
         then uint (_stoch_hist.total (hist_at (stoch_hist (world_init (rnd_of []))) a) + 1)
         else _stoch_hist.total (hist_at (stoch_hist (world_init (rnd_of []))) a)).
Proof.
  assert (Hs : shaped (stoch_hist (world_init (rnd_of [])))) by apply wf_shaped, wf_init.
  split; [split; [exact Hs|lia]|].
  apply (stoch_hist_update_one_counter 65 x42 (world_init (rnd_of [])) Hs). lia.
Defined.


Lemma train_shaped tmp : forall w, shaped (stoch_hist w) -> shaped (stoch_hist (train tmp w)).
Proof.
  induction tmp as [|x tmp IH]; intros w Hs; [exact Hs|].
  cbn [train]. apply IH. cbn [stoch_hist set_stoch_prev set_stoch_hist].
  now apply updated_shaped.
Qed.

Lemma count_pairs_cons a b x y l :
  count_pairs a b (x :: y :: l)
  = (if (x =? a) && (y =? b) then 1 else 0) + count_pairs a b (y :: l).
Proof. reflexivity. Qed.

Lemma train_counts tmp : forall w (base : Z -> Z -> Z),
  shaped (stoch_hist w) -> 0 <= stoch_prev w < 256 ->
  (forall a b, 0 <= a < 256 -> 0 <= b < 256 ->
     rd (_stoch_hist.data (hist_at (stoch_hist w) a)) b = uint (base a b)) ->
  forall a b, 0 <= a < 256 -> 0 <= b < 256 ->
    rd (_stoch_hist.data (hist_at (stoch_hist (train tmp w)) a)) b
    = uint (base a b + count_pairs a b (stoch_prev w :: (byte_val <$> tmp))).
Proof.
  induction tmp as [|x tmp IH]; intros w base Hs Hp Hbase a b Ha Hb.
  - cbn. rewrite Z.add_0_r. now apply Hbase.
  - pose proof (byte_val_range x) as Hx.
    cbn [train fmap list_fmap]. rewrite count_pairs_cons.
    rewrite (IH _ (fun a b => base a b
               + (if (stoch_prev w =? a) && (byte_val x =? b) then 1 else 0)));
      cbn [stoch_hist stoch_prev set_stoch_prev set_stoch_hist];
      try assumption.
    + f_equal. lia.
    + now apply updated_shaped.
    + intros a' b' Ha' Hb'.
      destruct (updated_lookup (stoch_prev w) (byte_val x) (stoch_hist w) a' b')
        as [-> _]; try assumption; try lia.
      rewrite (Hbase a' b') by assumption.
      rewrite (Z.eqb_sym a'), (Z.eqb_sym b').
      destruct ((stoch_prev w =? a') && (byte_val x =? b')).
      * now rewrite uint_add_l.
      * now rewrite Z.add_0_r.
Qed.

Lemma train_grand tmp : forall w,
  model.total (stoch_hist (train tmp w))
  = uint (model.total (stoch_hist w) + Z.of_nat (length tmp)) \/
  (tmp = [] /\ train tmp w = w).
Proof.
  induction tmp as [|x tmp IH]; intros w; [right; split; reflexivity|].
  left. cbn [train]. destruct (IH (set_stoch_prev (byte_val x)
    (set_stoch_hist (updated (stoch_prev w) (byte_val x) (stoch_hist w)) w)))
    as [->|[-> ->]]; cbn [stoch_hist set_stoch_prev set_stoch_hist updated model.total length].
  - rewrite uint_add_l. f_equal. lia.
  - reflexivity.
Qed.

(** X2: after any calls of [stoch_write] on the module as loaded, the
    counter of the byte [b] in the histogram of the context [a] is the
    number of times [b] came right after [a] in the stream made of a
    leading 0 and all the bytes written, and [stoch_hist.total] is the
    number of bytes written, both in 32-bit arithmetic. *)
Theorem stoch_write_counts_transitions rnd chunks a b :
  0 <= a < 256 -> 0 <= b < 256 ->
  exists w,
    exec (stoch_write_all chunks) (world_init rnd) = Some w /\
    rd (_stoch_hist.data (hist_at (stoch_hist w) a)) b
    = uint (count_pairs a b (0 :: (byte_val <$> concat chunks))) /\
    model.total (stoch_hist w) = uint (Z.of_nat (length (concat chunks))).
Proof.
  intros Ha Hb. exists (train (concat chunks) (world_init rnd)).
  split; [apply exec_stoch_write_all, ready_init|]. split.
  - rewrite (train_counts (concat chunks) (world_init rnd) (fun _ _ => 0));
      try assumption.
    + reflexivity.
    + apply wf_shaped, wf_init.
    + cbn [world_init stoch_prev]. lia.
    + intros a' b' Ha' Hb'. cbn [world_init stoch_hist].
      rewrite hist_at_model_zero by lia. unfold hist_zero. cbn [_stoch_hist.data].
      rewrite rd_replicate. destruct (decide _); reflexivity.
  - destruct (train_grand (concat chunks) (world_init rnd)) as [->|[-> ->]]; reflexivity.
Qed.

Lemma stoch_write_counts_transitions_witness :
  (0 <= 65 < 256 /\ 0 <= 66 < 256) /\
  exists w,
    exec (stoch_write_all [[x41; x42]; [x41]; [x42; x42]]) (world_init (rnd_of [])) = Some w /\
    rd (_stoch_hist.data (hist_at (stoch_hist w) 65)) 66
    = uint (count_pairs 65 66 (0 :: (byte_val <$> concat [[x41; x42]; [x41]; [x42; x42]]))) /\
    model.total (stoch_hist w)
    = uint (Z.of_nat (length (concat [[x41; x42]; [x41]; [x42; x42]]))).
Proof.
  split; [lia|].
  apply (stoch_write_counts_transitions (rnd_of []) [[x41; x42]; [x41]; [x42; x42]] 65 66); lia.
Defined.

(** X3: a call of [stoch_write] on a well-formed state returns the
    number of bytes it was given and leaves a well-formed state: 256
    histograms of 256 counters, each total the sum of its counters and
    [stoch_hist.total] the sum of the totals, in 32-bit arithmetic. *)
Theorem stoch_write_keeps_totals tmp w :
  wf w ->
  exists w', stoch_write tmp w = Some (Z.of_nat (length tmp), w') /\ wf w'.
Proof.
  intros Hwf. exists (train tmp w).
  split; [|apply train_wf, Hwf].
  apply stoch_write_eq. destruct Hwf as [(Hl & _) Hp]. split; assumption.
Qed.

Lemma stoch_write_keeps_totals_witness :
  wf (world_init (rnd_of [])) /\
  exists w', stoch_write [x41; x00; x42] (world_init (rnd_of []))
             = Some (Z.of_nat (length [x41; x00; x42]), w') /\ wf w'.
Proof.
  split; [apply wf_init|].
  apply (stoch_write_keeps_totals [x41; x00; x42] (world_init (rnd_of []))), wf_init.
Defined.

Lemma count_pairs_bound a b l : forall x,
  0 <= count_pairs a b (x :: l) <= Z.of_nat (length l).
Proof.
  induction l as [|y l IH]; intros x; [cbn; lia|].
  rewrite count_pairs_cons. specialize (IH y). cbn [length].
  destruct ((x =? a) && (y =? b)); lia.
Qed.

(** X4: while fewer than 2^32 bytes have been written to the module as
    loaded, in any number of calls, nothing has wrapped: the counter of
    [b] in the histogram of [a] is exactly the number of times [b] came
    right after [a] in the stream made of a leading 0 and the bytes
    written, every histogram's total is exactly the sum of its counters,
    and [stoch_hist.total] is exactly the number of bytes written. *)
Theorem training_exact_below_overflow rnd (chunks : list (list byte)) a b :
  Z.of_nat (length (concat chunks)) < 4294967296 ->
  0 <= a < 256 -> 0 <= b < 256 ->
  exists w,
    exec (stoch_write_all chunks) (world_init rnd) = Some w /\
    totals_exact (stoch_hist w) /\
    model.total (stoch_hist w) = Z.of_nat (length (concat chunks)) /\
    rd (_stoch_hist.data (hist_at (stoch_hist w) a)) b
    = count_pairs a b (0 :: (byte_val <$> concat chunks)).
Proof.
  intros Hlim Ha Hb.
  destruct (totals_exact_below_overflow rnd chunks Hlim) as (w & Hexec & Hte & Htot).
  exists w. split; [exact Hexec|]. split; [exact Hte|]. split; [exact Htot|].
  rewrite (exec_stoch_write_all chunks (world_init rnd) (ready_init rnd)) in Hexec.
  injection Hexec as <-.
  rewrite (train_counts (concat chunks) (world_init rnd) (fun _ _ => 0));
    try assumption.
  - pose proof (count_pairs_bound a b (byte_val <$> concat chunks) 0) as Hbd.
    rewrite length_fmap in Hbd. rewrite Z.add_0_l. apply uint_small. lia.
  - apply wf_shaped, wf_init.
  - cbn [world_init stoch_prev]. lia.
  - intros a' b' Ha' Hb'. cbn [world_init stoch_hist].
    rewrite hist_at_model_zero by lia. unfold hist_zero. cbn [_stoch_hist.data].
    rewrite rd_replicate. destruct (decide _); reflexivity.
Qed.

Lemma training_exact_below_overflow_witness :
  (Z.of_nat (length (concat [[x41; x42]; [x41; x42]])) < 4294967296 /\
   0 <= 65 < 256 /\ 0 <= 66 < 256) /\
  exists w,
    exec (stoch_write_all [[x41; x42]; [x41; x42]]) (world_init (rnd_of [])) = Some w /\
    totals_exact (stoch_hist w) /\
    model.total (stoch_hist w) = Z.of_nat (length (concat [[x41; x42]; [x41; x42]])) /\
    rd (_stoch_hist.data (hist_at (stoch_hist w) 65)) 66
    = count_pairs 65 66 (0 :: (byte_val <$> concat [[x41; x42]; [x41; x42]])).
Proof.
  split; [cbn; lia|].
  apply (training_exact_below_overflow (rnd_of []) [[x41; x42]; [x41; x42]] 65 66);
    cbn; lia.
Defined.

(** ** What the reset functions do *)

(** X5: on every state whose arrays have their 256 entries,
    [stoch_hists_clear] and [stoch_hist_clear] (on any of the 256
    histograms) return with the state exactly as they found it: no
    counter and no total is changed. *)
Theorem reset_functions_change_nothing w :
  shaped (stoch_hist w) ->
  stoch_hists_clear w = Some (tt, w) /\
  forall h, 0 <= h < 256 -> stoch_hist_clear h w = Some (tt, w).
Proof.
  intros Hs. split; [now apply stoch_hists_clear_noop|].
  intros h Hh. now apply stoch_hist_clear_noop.
Qed.

Lemma reset_functions_change_nothing_witness :
  shaped (stoch_hist (train [x41; x42] (world_init (rnd_of [])))) /\
  (stoch_hists_clear (train [x41; x42] (world_init (rnd_of [])))
   = Some (tt, train [x41; x42] (world_init (rnd_of []))) /\
   forall h, 0 <= h < 256 ->
     stoch_hist_clear h (train [x41; x42] (world_init (rnd_of [])))
     = Some (tt, train [x41; x42] (world_init (rnd_of [])))).
Proof.
  assert (Hs : shaped (stoch_hist (train [x41; x42] (world_init (rnd_of [])))))
    by apply wf_shaped, train_wf, wf_init.
  split; [exact Hs|].
  apply (reset_functions_change_nothing (train [x41; x42] (world_init (rnd_of []))) Hs).
Defined.

(** ** What the sampler returns *)

Lemma stoch_hist_val_loop_counted fuel h p v : forall i val tot,
  0 <= i < 256 -> 0 <= tot < 4294967296 -> tot < p ->
  stoch_hist_val_loop fuel h p i val tot = Some v ->
  rd (_stoch_hist.data h) v <> 0.
Proof.
  induction fuel as [|fuel IH]; intros i val tot Hi Htot Hlt H; [discriminate|].
  cbn [stoch_hist_val_loop] in H.
  replace (i <? STOCH_HIST_SIZE) with true in H
    by (symmetry; apply Z.ltb_lt; unfold STOCH_HIST_SIZE; lia).
  destruct (Z.geb_spec (uint (tot + rd (_stoch_hist.data h) i)) p) as [Hge|Hlt'].
  - injection H as <-. intros Hz. rewrite Hz, Z.add_0_r, uint_small in Hge; lia.
  - apply (IH _ _ _ (uchar_range _) (uint_range _) Hlt' H).
Qed.

Lemma stoch_hist_val_loop_first fuel h p v :
  0 <= p -> stoch_hist_val_loop fuel h p 0 0 0 = Some v ->
  v <> 0 -> rd (_stoch_hist.data h) v <> 0.
Proof.
  intros Hp H Hv. destruct (Z.eq_dec p 0) as [->|Hnz].
  - destruct fuel as [|fuel]; [discriminate|]. cbn [stoch_hist_val_loop] in H.
    change (0 <? STOCH_HIST_SIZE) with true in H. cbn match in H.
    pose proof (uint_range (0 + rd (_stoch_hist.data h) 0)).
    destruct (Z.geb_spec (uint (0 + rd (_stoch_hist.data h) 0)) 0); [|lia].
    injection H as <-. contradiction.
  - apply (stoch_hist_val_loop_counted fuel h p v 0 0 0); try lia. exact H.
Qed.

(** A symbol other than 0 that the sampler returns has a counter other
    than 0, on every state. *)
Lemma stoch_hist_val_counted fuel h prev w v w' :
  stoch_hist_val fuel h prev w = Some (v, w') ->
  v <> 0 -> rd (_stoch_hist.data (hist_at (stoch_hist w) h)) v <> 0.
Proof.
  unfold stoch_hist_val, bind, gets.
  destruct (_stoch_hist.total (hist_at (stoch_hist w) h) =? 0).
  - intros [= <- _] Hv. contradiction.
  - unfold get_random_bytes.
    destruct (stoch_hist_val_loop fuel _ _ 0 0 0) as [val|] eqn:Hl; [|discriminate].
    intros [= <- _]. apply (stoch_hist_val_loop_first _ _ _ _ (proj1 (uint_range _)) Hl).
Qed.

(** X6: on a well-formed histogram whose total is not 0, a call of
    [stoch_hist_val] draws one random value and returns the least symbol
    at which the running sum of the counters (in 32-bit arithmetic)
    reaches p, the value drawn, reduced modulo the total and cut to its
    low 8 bits; the symbol is a byte. *)
Theorem sampler_returns_least_reaching fuel h prev w :
  wf_hist (hist_at (stoch_hist w) h) ->
  _stoch_hist.total (hist_at (stoch_hist w) h) <> 0 -> (256 <= fuel)%nat ->
  exists v,
    stoch_hist_val fuel h prev w = Some (v, after w (S (drawn w)) (calls w ++ [v])) /\
    0 <= v < 256 /\
    drawn_p w h
    <= uint (sumZ (take (S (Z.to_nat v)) (_stoch_hist.data (hist_at (stoch_hist w) h)))) /\
    forall u, 0 <= u < v ->
      uint (sumZ (take (S (Z.to_nat u)) (_stoch_hist.data (hist_at (stoch_hist w) h))))
      < drawn_p w h.
Proof.
  intros Hwf Hnz Hfuel. unfold stoch_hist_val, bind, gets.
  destruct (Z.eqb_spec (_stoch_hist.total (hist_at (stoch_hist w) h)) 0) as [?|_];
    [contradiction|].
  unfold get_random_bytes.
  destruct (stoch_hist_val_loop_stops 256 fuel (hist_at (stoch_hist w) h)
              (drawn_p w h) 0 0 0) as (v & Hv & Hr & Hreach & Hleast); try lia.
  - apply Hwf.
  - reflexivity.
  - apply drawn_p_le; assumption.
  - unfold drawn_p in Hv. rewrite Hv. exists v.
    split; [reflexivity|]. split; [lia|]. split; [exact Hreach|exact Hleast].
Qed.

Lemma sampler_returns_least_reaching_witness :
  (wf_hist (hist_at (stoch_hist (train [x41; x41; x42] (world_init (rnd_of [5])))) 65) /\
   _stoch_hist.total (hist_at (stoch_hist (train [x41; x41; x42] (world_init (rnd_of [5])))) 65)
   <> 0 /\ (256 <= 256)%nat) /\
  exists v,
    stoch_hist_val 256 65 65 (train [x41; x41; x42] (world_init (rnd_of [5])))
    = Some (v, after (train [x41; x41; x42] (world_init (rnd_of [5])))
                 (S (drawn (train [x41; x41; x42] (world_init (rnd_of [5])))))
                 (calls (train [x41; x41; x42] (world_init (rnd_of [5]))) ++ [v])) /\
    0 <= v < 256 /\
    drawn_p (train [x41; x41; x42] (world_init (rnd_of [5]))) 65
    <= uint (sumZ (take (S (Z.to_nat v))
         (_stoch_hist.data
            (hist_at (stoch_hist (train [x41; x41; x42] (world_init (rnd_of [5])))) 65)))) /\
    forall u, 0 <= u < v ->
      uint (sumZ (take (S (Z.to_nat u))
         (_stoch_hist.data
            (hist_at (stoch_hist (train [x41; x41; x42] (world_init (rnd_of [5])))) 65))))
      < drawn_p (train [x41; x41; x42] (world_init (rnd_of [5]))) 65.
Proof.
  assert (H1 : wf_hist (hist_at (stoch_hist (train [x41; x41; x42] (world_init (rnd_of [5])))) 65)).
  { apply wf_hist_at; [apply train_wf, wf_init|lia]. }
  assert (H2 : _stoch_hist.total
                 (hist_at (stoch_hist (train [x41; x41; x42] (world_init (rnd_of [5])))) 65) <> 0)
    by (vm_compute; discriminate).
  split; [split; [exact H1|split; [exact H2|lia]]|].
  apply (sampler_returns_least_reaching 256 65 65
           (train [x41; x41; x42] (world_init (rnd_of [5]))) H1 H2). lia.
Defined.

(** X7: whatever the state, a call of [stoch_hist_val] that returns a
    symbol other than 0 returns one whose counter in the histogram is
    not 0; on a histogram whose total is 0 the call returns 0 and draws
    nothing; and the call leaves [stoch_hist] and [stoch_prev] alone. *)
Theorem sampler_returns_counted_symbols fuel h prev w :
  (forall v w', stoch_hist_val fuel h prev w = Some (v, w') ->
     (v <> 0 -> rd (_stoch_hist.data (hist_at (stoch_hist w) h)) v <> 0) /\
     stoch_hist w' = stoch_hist w /\ stoch_prev w' = stoch_prev w) /\
  (_stoch_hist.total (hist_at (stoch_hist w) h) = 0 ->
     stoch_hist_val fuel h prev w = Some (0, after w (drawn w) (calls w ++ [0]))).
Proof.
  split.
  - intros v w' H. split; [now apply (stoch_hist_val_counted _ _ _ _ _ _ H)|].
    destruct (stoch_hist_val_frame _ _ _ _ _ _ H) as (d & -> & _). split; reflexivity.
  - intros Hz. unfold stoch_hist_val, bind, gets. rewrite Hz. reflexivity.
Qed.

Lemma sampler_returns_counted_symbols_witness :
  _stoch_hist.total (hist_at (stoch_hist (world_init (rnd_of [3]))) 7) = 0 /\
  stoch_hist_val 256 7 7 (world_init (rnd_of [3]))
  = Some (0, after (world_init (rnd_of [3])) (drawn (world_init (rnd_of [3])))
               (calls (world_init (rnd_of [3])) ++ [0])).
Proof.
  split; [reflexivity|].
  apply (proj2 (sampler_returns_counted_symbols 256 7 7 (world_init (rnd_of [3])))).
  reflexivity.
Defined.

(** ** The starting context *)

Lemma hist_at_total m j :
  _stoch_hist.total (hist_at m j)
  = default 0 ((_stoch_hist.total <$> model.data m) !! Z.to_nat j).
Proof.
  unfold hist_at. rewrite list_lookup_fmap.
  destruct (model.data m !! Z.to_nat j); reflexivity.
Qed.

Lemma sumZ_bound B l :
  Forall (fun c => 0 <= c < B) l -> 0 <= sumZ l <= B * Z.of_nat (length l).
Proof.
  induction 1 as [|a l Ha _ IH]; unfold sumZ in *; cbn [foldr length]; lia.
Qed.

Lemma wf_totals_range m :
  wf_model m -> Forall (fun c => 0 <= c < 4294967296) (_stoch_hist.total <$> model.data m).
Proof.
  intros (_ & Hall & _). apply Forall_fmap. eapply Forall_impl; [exact Hall|].
  intros h [_ Ht]. cbn. rewrite Ht. apply uint_range.
Qed.

(** The walk over the contexts stops at the first one whose running sum
    of totals reaches [i]. *)
Lemma stoch_hist_gen_start_stops n : forall f m i j tot prev,
  length (model.data m) = 256%nat ->
  Forall (fun c => 0 <= c < 4294967296) (_stoch_hist.total <$> model.data m) ->
  0 <= j -> (1 <= n)%nat -> j + Z.of_nat n = 256 -> (n <= f)%nat ->
  tot = sumZ (take (Z.to_nat j) (_stoch_hist.total <$> model.data m)) ->
  i <= sumZ (_stoch_hist.total <$> model.data m) ->
  exists c, stoch_hist_gen_start f m i j tot prev = c /\
    j <= c < 256 /\
    i <= sumZ (take (S (Z.to_nat c)) (_stoch_hist.total <$> model.data m)) /\
    forall u, j <= u < c ->
      sumZ (take (S (Z.to_nat u)) (_stoch_hist.total <$> model.data m)) < i.
Proof.
  induction n as [|n IH]; intros f m i j tot prev Hlen Hall Hj Hn Hjn Hf Htot Hi; [lia|].
  destruct f as [|f]; [lia|]. cbn [stoch_hist_gen_start].
  replace (j <? STOCH_HIST_SIZE) with true
    by (symmetry; apply Z.ltb_lt; unfold STOCH_HIST_SIZE; lia).
  set (T := _stoch_hist.total <$> model.data m) in *.
  assert (HlT : length T = 256%nat) by (unfold T; now rewrite length_fmap).
  assert (Hnn : Forall (fun c => 0 <= c) T).
  { eapply Forall_impl; [exact Hall|]. cbn. intros; lia. }
  pose proof (sumZ_bound _ _ Hall) as Hb. rewrite HlT in Hb.
  pose proof (sumZ_take_le T (S (Z.to_nat j)) Hnn) as Hps.
  assert (Hstep : size_t (tot + _stoch_hist.total (hist_at m j))
                  = sumZ (take (S (Z.to_nat j)) T)).
  { rewrite hist_at_total. fold T. rewrite Htot, <- sumZ_take_S by lia.
    apply size_t_small. lia. }
  rewrite Hstep. rewrite uchar_small by lia.
  destruct (Z.geb_spec (sumZ (take (S (Z.to_nat j)) T)) i) as [Hge|Hlt].
  - exists j. repeat split; try lia.
  - assert (Hj' : j <> 255).
    { intros ->. rewrite take_ge in Hlt by lia. lia. }
    destruct (IH f m i (j + 1) (sumZ (take (S (Z.to_nat j)) T)) j)
      as (c & Hc & Hr & Hreach & Hleast); try assumption; try lia.
    { fold T. replace (Z.to_nat (j + 1)) with (S (Z.to_nat j)) by lia. reflexivity. }
    exists c. fold T in Hreach, Hleast. repeat split; try lia; try assumption.
    intros u Hu. destruct (Z.eq_dec u j) as [->|Hne]; [lia|]. apply Hleast. lia.
Qed.

(** X8: on a well-formed model whose grand total is not 0,
    [stoch_hist_gen] draws one random value, reduces it modulo the grand
    total to i, and starts in the least context at which the running sum
    of the contexts' totals reaches i.  That context is a byte, and
    unless it is context 0 its histogram is not empty. *)
Theorem start_context_least_reaching size w :
  wf_model (stoch_hist w) -> model.total (stoch_hist w) <> 0 ->
  exists c,
    stoch_hist_gen_choose size w = Some ((int size, c), after w (S (drawn w)) (calls w)) /\
    0 <= c < 256 /\
    drawn_i w
    <= sumZ (take (S (Z.to_nat c)) (_stoch_hist.total <$> model.data (stoch_hist w))) /\
    (forall u, 0 <= u < c ->
       sumZ (take (S (Z.to_nat u)) (_stoch_hist.total <$> model.data (stoch_hist w)))
       < drawn_i w) /\
    (c <> 0 -> _stoch_hist.total (hist_at (stoch_hist w) c) <> 0).
Proof.
  intros Hwf Hnz. pose proof Hwf as (Hlen & Hall & Hg).
  pose proof (wf_totals_range _ Hwf) as Hrange.
  remember (_stoch_hist.total <$> model.data (stoch_hist w)) as T eqn:HT.
  assert (Hnn : Forall (fun c => 0 <= c) T).
  { eapply Forall_impl; [exact Hrange|]. cbn. intros; lia. }
  assert (Hgpos : 0 < model.total (stoch_hist w) <= sumZ T).
  { pose proof (uint_range (sumZ T)). pose proof (sumZ_nonneg _ Hnn).
    split; [lia|]. rewrite Hg. unfold uint. apply Z.mod_le; lia. }
  assert (Hi : 0 <= drawn_i w < model.total (stoch_hist w)).
  { unfold drawn_i. apply Z.mod_pos_bound. lia. }
  assert (HlT : length T = 256%nat) by (subst T; now rewrite length_fmap).
  unfold stoch_hist_gen_choose, bind, gets.
  destruct (Z.eqb_spec (model.total (stoch_hist w)) 0) as [?|_]; [contradiction|].
  unfold get_random_bytes, ret.
  destruct (stoch_hist_gen_start_stops 256 257 (stoch_hist w) (drawn_i w) 0 0 0 Hlen)
    as (c & Hc & Hr & Hreach & Hleast); rewrite <- ?HT; try assumption; try lia.
  { reflexivity. }
  rewrite <- HT in Hreach, Hleast. unfold drawn_i in Hc.
  cbn [stoch_hist entropy drawn calls set_drawn]. rewrite Hc.
  exists c. split; [reflexivity|]. split; [lia|]. split; [exact Hreach|].
  split; [exact Hleast|].
  intros Hc0 Hz.
  assert (Hprev : sumZ (take (S (Z.to_nat (c - 1))) T) < drawn_i w) by (apply Hleast; lia).
  replace (S (Z.to_nat (c - 1))) with (Z.to_nat c) in Hprev by lia.
  rewrite sumZ_take_S in Hreach by lia.
  rewrite hist_at_total, <- HT in Hz. lia.
Qed.

Lemma start_context_least_reaching_witness :
  (wf_model (stoch_hist (train [x41; x42] (world_init (rnd_of [1])))) /\
   model.total (stoch_hist (train [x41; x42] (world_init (rnd_of [1])))) <> 0) /\
  exists c,
    stoch_hist_gen_choose 4 (train [x41; x42] (world_init (rnd_of [1])))
    = Some ((int 4, c), after (train [x41; x42] (world_init (rnd_of [1])))
                          (S (drawn (train [x41; x42] (world_init (rnd_of [1])))))
                          (calls (train [x41; x42] (world_init (rnd_of [1]))))) /\
    0 <= c < 256 /\
    drawn_i (train [x41; x42] (world_init (rnd_of [1])))
    <= sumZ (take (S (Z.to_nat c))
         (_stoch_hist.total <$> model.data (stoch_hist (train [x41; x42] (world_init (rnd_of [1])))))) /\
    (forall u, 0 <= u < c ->
       sumZ (take (S (Z.to_nat u))
         (_stoch_hist.total <$> model.data (stoch_hist (train [x41; x42] (world_init (rnd_of [1]))))))
       < drawn_i (train [x41; x42] (world_init (rnd_of [1])))) /\
    (c <> 0 ->
     _stoch_hist.total (hist_at (stoch_hist (train [x41; x42] (world_init (rnd_of [1])))) c) <> 0).
Proof.
  assert (H1 : wf_model (stoch_hist (train [x41; x42] (world_init (rnd_of [1])))))
    by apply train_wf, wf_init.
  assert (H2 : model.total (stoch_hist (train [x41; x42] (world_init (rnd_of [1])))) <> 0)
    by (vm_compute; discriminate).
  split; [split; assumption|].
  apply (start_context_least_reaching 4 (train [x41; x42] (world_init (rnd_of [1]))) H1 H2).
Defined.

(** ** What the generator emits *)

Lemma stoch_hist_gen_loop_follows n : forall fuel size i pos prev buff w b p w',
  0 <= i -> (Z.to_nat i + n = length buff)%nat ->
  stoch_hist_gen_loop fuel size n i pos prev buff w = Some ((b, p), w') ->
  exists smp, calls w' = calls w ++ smp /\ follows (stoch_hist w) prev smp.
Proof.
  induction n as [|n IH]; intros fuel size i pos prev buff w b p w' Hi Hlen H;
    cbn [stoch_hist_gen_loop] in H.
  - injection H as _ _ <-. exists []. now rewrite app_nil_r.
  - destruct (size_t pos =? size).
    + unfold bind in H at 1.
      destruct (stoch_hist_val fuel prev prev w) as [[v w1]|] eqn:Hv; [|discriminate].
      pose proof (stoch_hist_val_counted _ _ _ _ _ _ Hv) as Hcount.
      destruct (stoch_hist_val_frame _ _ _ _ _ _ Hv) as (d1 & -> & _).
      rewrite rd_insert_eq in H by lia.
      apply IH in H as (smp & Hcalls & Hf); [|lia|rewrite length_insert; lia].
      cbn [after stoch_hist calls] in *.
      exists (v :: smp). rewrite Hcalls, <- app_assoc. split; [reflexivity|].
      split; assumption.
    + apply IH in H as (smp & Hcalls & Hf); [|lia|rewrite length_insert; lia].
      exists smp. split; assumption.
Qed.

Lemma stoch_hist_gen_follows fuel buff size w o w' :
  length buff = Z.to_nat size ->
  stoch_hist_gen fuel buff size w = Some (o, w') ->
  exists p0 c d0 smp,
    stoch_hist_gen_choose size w = Some ((p0, c), after w d0 (calls w)) /\
    calls w' = calls w ++ smp /\ follows (stoch_hist w) c smp.
Proof.
  intros Hlen H. unfold stoch_hist_gen in H. unfold bind in H at 1.
  destruct (stoch_hist_gen_choose_eq size w) as (p0 & c & d0 & Hc & _).
  rewrite Hc in H. unfold bind in H at 1. cbn [fst snd] in H.
  destruct (stoch_hist_gen_loop fuel size (Z.to_nat size) 0 p0 c buff
              (after w d0 (calls w))) as [[[b p] w1]|] eqn:Hl; [|discriminate].
  injection H as _ <-.
  apply stoch_hist_gen_loop_follows in Hl as (smp & Hcalls & Hf); [|lia|simpl; lia].
  cbn [after stoch_hist calls] in *.
  exists p0, c, d0, smp. split; [exact Hc|]. split; assumption.
Qed.

Lemma first_zero_nonzero l : forall k v,
  l !! k = Some v ->
  match first_zero l with Some i => (k < i)%nat | None => True end ->
  v <> 0.
Proof.
  induction l as [|x l IH]; intros k v Hk Hz; [rewrite lookup_nil in Hk; discriminate|].
  cbn [first_zero] in Hz. destruct (Z.eqb_spec x 0) as [->|Hx]; [lia|].
  destruct k as [|k]; cbn in Hk.
  - injection Hk as <-. exact Hx.
  - apply (IH k v Hk). destruct (first_zero l); cbn in Hz; [lia|exact I].
Qed.

Lemma follows_lookup m smp : forall c k v,
  follows m c smp -> smp !! k = Some v -> v <> 0 ->
  rd (_stoch_hist.data
        (hist_at m (match k with O => c | S k' => default 0 (smp !! k') end))) v <> 0.
Proof.
  induction smp as [|x smp IH]; intros c k v Hf Hk Hv;
    [rewrite lookup_nil in Hk; discriminate|].
  destruct Hf as [Hx Hf]. destruct k as [|k]; cbn in Hk.
  - injection Hk as <-. now apply Hx.
  - specialize (IH x k v Hf Hk Hv). destruct k as [|k]; exact IH.
Qed.

(** X9: a call of [stoch_hist_gen] on a trained, well-formed model only
    emits transitions that were trained: each of the bytes before the
    logical length is not 0 and has a counter that is not 0 in the
    histogram of the byte emitted before it, the first one in the
    histogram of the starting context the call chose. *)
Theorem generated_bytes_follow_training fuel buff size w :
  wf w -> model.total (stoch_hist w) <> 0 -> 1 <= size <= INT_MAX ->
  length buff = Z.to_nat size -> (256 <= fuel)%nat ->
  exists b pos w' p0 c w0,
    stoch_hist_gen fuel buff size w = Some ((b, pos), w') /\
    stoch_hist_gen_choose size w = Some ((p0, c), w0) /\
    0 <= pos <= size /\
    forall k, (k < Z.to_nat pos)%nat ->
      rd b (Z.of_nat k) <> 0 /\
      rd (_stoch_hist.data
            (hist_at (stoch_hist w)
               (match k with O => c | S k' => rd b (Z.of_nat k') end)))
         (rd b (Z.of_nat k)) <> 0.
Proof.
  intros Hwf Hnz Hsize Hlen Hfuel.
  destruct (stoch_hist_gen_trained fuel buff size w)
    as (b & pos & d & smp & Hrun & Hlb & Hls & _ & Hsmp & _ & Hnone & Hsome);
    try assumption; try lia.
  destruct (stoch_hist_gen_follows _ _ _ _ _ _ Hlen Hrun)
    as (p0 & c & d0 & smp' & Hc & Hcalls & Hf).
  cbn [after calls] in Hcalls. apply app_inv_head in Hcalls. subst smp'.
  assert (Hpos : 0 <= pos <= size /\ (Z.to_nat pos <= length smp)%nat /\
                 match first_zero smp with
                 | Some i => Z.to_nat pos = i
                 | None => True
                 end).
  { destruct (first_zero smp) as [i|].
    - destruct (Hsome i eq_refl) as [-> Hl]. lia.
    - destruct (Hnone eq_refl) as [-> Hl]. lia. }
  destruct Hpos as (Hp & Hple & Hpz).
  exists b, pos, (after w d (calls w ++ smp)), p0, c, (after w d0 (calls w)).
  split; [exact Hrun|]. split; [exact Hc|]. split; [exact Hp|].
  intros k Hk.
  destruct (lookup_lt_is_Some_2 smp k ltac:(lia)) as [v Hv].
  assert (Hbk : rd b (Z.of_nat k) = v).
  { unfold rd. rewrite Nat2Z.id. now rewrite (Hsmp k v Hv : b !! k = Some v). }
  assert (Hvz : v <> 0).
  { apply (first_zero_nonzero smp k v Hv). destruct (first_zero smp); [lia|exact I]. }
  rewrite Hbk. split; [exact Hvz|].
  pose proof (follows_lookup _ _ c k v Hf Hv Hvz) as Hfl.
  destruct k as [|k]; [exact Hfl|].
  destruct (lookup_lt_is_Some_2 smp k ltac:(lia)) as [v' Hv'].
  rewrite Hv' in Hfl. cbn [default from_option id] in Hfl.
  unfold rd at 2. rewrite Nat2Z.id, (Hsmp k v' Hv' : b !! k = Some v'). exact Hfl.
Qed.

Lemma generated_bytes_follow_training_witness :
  (wf (train [x41; x41; x41] (world_init (rnd_of [2; 1; 0]))) /\
   model.total (stoch_hist (train [x41; x41; x41] (world_init (rnd_of [2; 1; 0])))) <> 0 /\
   1 <= 3 <= INT_MAX /\ length [7; 7; 7] = Z.to_nat 3 /\ (256 <= 256)%nat) /\
  exists b pos w' p0 c w0,
    stoch_hist_gen 256 [7; 7; 7] 3 (train [x41; x41; x41] (world_init (rnd_of [2; 1; 0])))
    = Some ((b, pos), w') /\
    stoch_hist_gen_choose 3 (train [x41; x41; x41] (world_init (rnd_of [2; 1; 0])))
    = Some ((p0, c), w0) /\
    0 <= pos <= 3 /\
    forall k, (k < Z.to_nat pos)%nat ->
      rd b (Z.of_nat k) <> 0 /\
      rd (_stoch_hist.data
            (hist_at (stoch_hist (train [x41; x41; x41] (world_init (rnd_of [2; 1; 0]))))
               (match k with O => c | S k' => rd b (Z.of_nat k') end)))
         (rd b (Z.of_nat k)) <> 0.
Proof.
  assert (H1 : wf (train [x41; x41; x41] (world_init (rnd_of [2; 1; 0]))))
    by apply train_wf, wf_init.
  assert (H2 : model.total (stoch_hist (train [x41; x41; x41] (world_init (rnd_of [2; 1; 0])))) <> 0)
    by (vm_compute; discriminate).
  assert (H3 : 1 <= 3 <= INT_MAX) by (vm_compute; split; discriminate).
  split; [repeat split; try assumption; try reflexivity; try apply H1; try apply H3; lia|].
  apply (generated_bytes_follow_training 256 [7; 7; 7] 3
           (train [x41; x41; x41] (world_init (rnd_of [2; 1; 0]))) H1 H2 H3 eq_refl).
  lia.
Defined.

(** ** Reading from the device *)

Lemma ssize_t_small z : -9223372036854775808 <= z <= 9223372036854775807 -> ssize_t z = z.
Proof.
  intros H. unfold ssize_t. change (2 ^ 63) with 9223372036854775808.
  change (2 ^ 64) with 18446744073709551616. rewrite Z.mod_small; lia.
Qed.

(** On a well-formed state and for a size an [int] holds, the generator
    returns a buffer padded with 0 from the logical length on. *)
Lemma stoch_hist_gen_padded fuel buff size w :
  wf w -> 1 <= size <= INT_MAX -> length buff = Z.to_nat size -> (256 <= fuel)%nat ->
  exists b pos d smp,
    stoch_hist_gen fuel buff size w = Some ((b, pos), after w d (calls w ++ smp)) /\
    length b = Z.to_nat size /\ 0 <= pos <= size /\
    forall j, (Z.to_nat pos <= j < Z.to_nat size)%nat -> b !! j = Some 0.
Proof.
  intros Hwf Hsize Hlen Hfuel.
  destruct (Z.eq_dec (model.total (stoch_hist w)) 0) as [Hz|Hnz].
  - exists (replicate (Z.to_nat size) 0), 0, (drawn w), [].
    rewrite app_nil_r, after_same.
    split; [apply stoch_hist_gen_untrained; [exact Hz|lia|exact Hlen]|].
    split; [apply length_replicate|]. split; [lia|].
    intros j Hj. apply lookup_replicate_2. lia.
  - destruct (stoch_hist_gen_trained fuel buff size w)
      as (b & pos & d & smp & Hrun & Hlb & Hls & _ & Hsmp & Hzero & Hnone & Hsome);
      try assumption; try lia.
    exists b, pos, d, smp. split; [exact Hrun|]. split; [lia|].
    destruct (first_zero smp) as [i|] eqn:Hfz.
    + destruct (Hsome i eq_refl) as [-> Hl]. split; [lia|].
      intros j Hj. destruct (decide (j = i)) as [->|Hne].
      * apply (Hsmp i 0), first_zero_lookup, Hfz.
      * apply Hzero. lia.
    + destruct (Hnone eq_refl) as [-> Hl]. split; [lia|]. intros j Hj. lia.
Qed.

(** X10: on a well-formed state, [stoch_read] of [count] bytes (at least
    1, at most [INT_MAX]) hands the caller the [count] bytes
    [stoch_hist_gen] produced, with the last one replaced by 0, and
    returns the logical length n of the generator, between 0 and
    [count]: every byte from position n on is 0, and the last byte is 0
    even when n is [count].  [stoch_hist] and [stoch_prev] are left as
    they were. *)
Theorem stoch_read_pads_and_terminates fuel tmp count w :
  wf w -> 1 <= count <= INT_MAX -> length tmp = Z.to_nat count -> (256 <= fuel)%nat ->
  exists b buf n w',
    stoch_hist_gen fuel tmp count w = Some ((b, n), w') /\
    stoch_read fuel tmp count w = Some ((buf, n), w') /\
    buf = <[Z.to_nat (count - 1) := 0]> b /\
    length buf = Z.to_nat count /\
    0 <= n <= count /\
    buf !! Z.to_nat (count - 1) = Some 0 /\
    (forall j, (Z.to_nat n <= j < Z.to_nat count)%nat -> buf !! j = Some 0) /\
    stoch_hist w' = stoch_hist w /\ stoch_prev w' = stoch_prev w.
Proof.
  intros Hwf Hcount Hlen Hfuel.
  destruct (stoch_hist_gen_padded fuel tmp count w Hwf Hcount Hlen Hfuel)
    as (b & n & d & smp & Hrun & Hlb & Hn & Hpad).
  assert (Hmax : count <= 2147483647) by (unfold INT_MAX in Hcount; lia).
  exists b, (<[Z.to_nat (count - 1) := 0]> b), n, (after w d (calls w ++ smp)).
  split; [exact Hrun|]. split.
  { unfold stoch_read, bind. rewrite Hrun. cbn [fst snd]. unfold ret.
    rewrite take_ge by (rewrite length_insert; lia).
    rewrite ssize_t_small by lia. reflexivity. }
  split; [reflexivity|]. split; [now rewrite length_insert|]. split; [exact Hn|].
  split; [apply list_lookup_insert_eq; lia|]. split; [|split; reflexivity].
  intros j Hj. destruct (decide (j = Z.to_nat (count - 1))) as [->|Hne].
  - apply list_lookup_insert_eq. lia.
  - rewrite list_lookup_insert_ne by lia. now apply Hpad.
Qed.

Lemma stoch_read_pads_and_terminates_witness :
  (wf (train [x41; x41; x41] (world_init (rnd_of [2; 1; 1]))) /\ 1 <= 2 <= INT_MAX /\
   length [7; 7] = Z.to_nat 2 /\ (256 <= 256)%nat) /\
  exists b buf n w',
    stoch_hist_gen 256 [7; 7] 2 (train [x41; x41; x41] (world_init (rnd_of [2; 1; 1])))
    = Some ((b, n), w') /\
    stoch_read 256 [7; 7] 2 (train [x41; x41; x41] (world_init (rnd_of [2; 1; 1])))
    = Some ((buf, n), w') /\
    buf = <[Z.to_nat (2 - 1) := 0]> b /\
    length buf = Z.to_nat 2 /\
    0 <= n <= 2 /\
    buf !! Z.to_nat (2 - 1) = Some 0 /\
    (forall j, (Z.to_nat n <= j < Z.to_nat 2)%nat -> buf !! j = Some 0) /\
    stoch_hist w' = stoch_hist (train [x41; x41; x41] (world_init (rnd_of [2; 1; 1]))) /\
    stoch_prev w' = stoch_prev (train [x41; x41; x41] (world_init (rnd_of [2; 1; 1]))).
Proof.
  assert (H1 : wf (train [x41; x41; x41] (world_init (rnd_of [2; 1; 1]))))
    by apply train_wf, wf_init.
  assert (H2 : 1 <= 2 <= INT_MAX) by (vm_compute; split; discriminate).
  split; [split; [exact H1|split; [exact H2|split; [reflexivity|lia]]]|].
  apply (stoch_read_pads_and_terminates 256 [7; 7] 2
           (train [x41; x41; x41] (world_init (rnd_of [2; 1; 1]))) H1 H2 eq_refl).
  lia.
Defined.

(** ** Loading the module *)

(** X11: [stoch_init] hands a negative result of [register_chrdev] back
    and touches nothing.  When the registration succeeds on the module
    as loaded, it returns 0 and the module is untrained: a [stoch_read]
    of any [count] of at least 1 then returns 0 and a buffer of zeros,
    and changes nothing. *)
Theorem stoch_init_starts_untrained rnd result fuel tmp count w :
  (result < 0 -> stoch_init result w = Some (result, w)) /\
  (0 <= result -> 1 <= count -> length tmp = Z.to_nat count ->
     stoch_init result (world_init rnd) = Some (0, world_init rnd) /\
     stoch_read fuel tmp count (world_init rnd)
     = Some ((replicate (Z.to_nat count) 0, 0), world_init rnd)).
Proof.
  split.
  - intros Hr. unfold stoch_init. now rewrite (proj2 (Z.ltb_lt _ _) Hr).
  - intros Hr Hcount Hlen. split.
    + unfold stoch_init. rewrite (proj2 (Z.ltb_ge _ _) Hr). unfold bind.
      rewrite stoch_hists_clear_noop by apply wf_shaped, wf_init. reflexivity.
    + unfold stoch_read, bind.
      rewrite stoch_hist_gen_untrained; [|reflexivity|exact Hcount|exact Hlen].
      cbn [fst snd]. unfold ret. rewrite insert_replicate.
      rewrite take_ge by (rewrite length_replicate; lia). reflexivity.
Qed.

Lemma stoch_init_starts_untrained_witness :
  (-1 < 0 /\
   stoch_init (-1) (train [x41] (world_init (rnd_of [4])))
   = Some (-1, train [x41] (world_init (rnd_of [4])))) /\
  (0 <= 0 /\ 1 <= 3 /\ length [9; 9; 9] = Z.to_nat 3) /\
  (stoch_init 0 (world_init (rnd_of [4])) = Some (0, world_init (rnd_of [4])) /\
   stoch_read 256 [9; 9; 9] 3 (world_init (rnd_of [4]))
   = Some ((replicate (Z.to_nat 3) 0, 0), world_init (rnd_of [4]))).
Proof.
  split.
  { split; [lia|].
    apply (proj1 (stoch_init_starts_untrained (rnd_of [4]) (-1) 256 [9; 9; 9] 3
                    (train [x41] (world_init (rnd_of [4]))))). lia. }
  split; [split; [lia|split; [lia|reflexivity]]|].
  apply (proj2 (stoch_init_starts_untrained (rnd_of [4]) 0 256 [9; 9; 9] 3
                  (world_init (rnd_of [4])))); [lia|lia|reflexivity].
Defined.

(** * Properties of src/stoch.c *)

(** ** Reset *)

Lemma stoch0_after_same w :
  stoch0_after w (Stoch0.drawn w) (Stoch0.calls w) = w.
Proof. destruct w; reflexivity. Qed.

Lemma stoch0_set_same w : Stoch0.set_stoch_hist (Stoch0.stoch_hist w) w = w.
Proof. destruct w; reflexivity. Qed.

(** The loop of [stoch_hist_clear] stores 0 in the counters from [i]
    up to 255 and leaves the total. *)
Lemma stoch0_clear_loop n : forall fuel i w,
  0 <= i -> i + Z.of_nat n = 256 -> (n < fuel)%nat ->
  Stoch0.stoch_hist_clear_loop fuel i w
  = Some (tt, Stoch0.set_stoch_hist
                (_stoch_hist.mk (zero_fill n i (_stoch_hist.data (Stoch0.stoch_hist w)))
                                (_stoch_hist.total (Stoch0.stoch_hist w))) w).
Proof.
  induction n as [|n IH]; intros fuel i w Hi Hin Hf; (destruct fuel as [|fuel]; [lia|]);
    cbn [Stoch0.stoch_hist_clear_loop zero_fill].
  - replace (i <? STOCH_HIST_SIZE) with false
      by (symmetry; apply Z.ltb_ge; unfold STOCH_HIST_SIZE; lia).
    destruct w as [[d t] e dr c]. reflexivity.
  - replace (i <? STOCH_HIST_SIZE) with true
      by (symmetry; apply Z.ltb_lt; unfold STOCH_HIST_SIZE; lia).
    unfold Stoch0.bind, Stoch0.modify. rewrite int_small by lia.
    rewrite IH by lia. reflexivity.
Qed.

Lemma stoch0_clear_eq w :
  length (_stoch_hist.data (Stoch0.stoch_hist w)) = 256%nat ->
  Stoch0.stoch_hist_clear w = Some (tt, Stoch0.set_stoch_hist hist_zero w).
Proof.
  intros Hlen. unfold Stoch0.stoch_hist_clear. unfold Stoch0.bind at 1.
  rewrite (stoch0_clear_loop 256 257 0 w) by lia.
  assert (Hz : zero_fill 256 0 (_stoch_hist.data (Stoch0.stoch_hist w)) = replicate 256 0)
    by (rewrite <- Hlen; apply zero_fill_all).
  unfold Stoch0.modify, Stoch0.set_stoch_hist.
  cbn [Stoch0.stoch_hist Stoch0.entropy Stoch0.drawn Stoch0.calls
       _stoch_hist.data _stoch_hist.total].
  rewrite Hz. reflexivity.
Qed.

(** X12: unlike the reset of src/stoch2.c, [stoch_hist_clear] of
    src/stoch.c does clear: from every state of the 256-counter
    histogram it returns with all counters and the total at 0, and it
    touches nothing else. *)
Theorem stoch0_clear_zeroes w :
  length (_stoch_hist.data (Stoch0.stoch_hist w)) = 256%nat ->
  exists w',
    Stoch0.stoch_hist_clear w = Some (tt, w') /\
    _stoch_hist.total (Stoch0.stoch_hist w') = 0 /\
    length (_stoch_hist.data (Stoch0.stoch_hist w')) = 256%nat /\
    (forall x, rd (_stoch_hist.data (Stoch0.stoch_hist w')) x = 0) /\
    Stoch0.entropy w' = Stoch0.entropy w /\ Stoch0.drawn w' = Stoch0.drawn w /\
    Stoch0.calls w' = Stoch0.calls w.
Proof.
  intros Hlen. exists (Stoch0.set_stoch_hist hist_zero w).
  split; [now apply stoch0_clear_eq|]. split; [reflexivity|]. split; [reflexivity|].
  split; [|repeat split; reflexivity].
  intros x. unfold Stoch0.set_stoch_hist, hist_zero.
  cbn [Stoch0.stoch_hist _stoch_hist.data]. rewrite rd_replicate.
  now destruct (decide _).
Qed.

Lemma stoch0_clear_zeroes_witness :
  length (_stoch_hist.data (Stoch0.stoch_hist
            (stoch0_train [x41; x42] (Stoch0.world_init (rnd_of []))))) = 256%nat /\
  exists w',
    Stoch0.stoch_hist_clear (stoch0_train [x41; x42] (Stoch0.world_init (rnd_of [])))
    = Some (tt, w') /\
    _stoch_hist.total (Stoch0.stoch_hist w') = 0 /\
    length (_stoch_hist.data (Stoch0.stoch_hist w')) = 256%nat /\
    (forall x, rd (_stoch_hist.data (Stoch0.stoch_hist w')) x = 0) /\
    Stoch0.entropy w' = Stoch0.entropy (stoch0_train [x41; x42] (Stoch0.world_init (rnd_of []))) /\
    Stoch0.drawn w' = Stoch0.drawn (stoch0_train [x41; x42] (Stoch0.world_init (rnd_of []))) /\
    Stoch0.calls w' = Stoch0.calls (stoch0_train [x41; x42] (Stoch0.world_init (rnd_of []))).
Proof.
  assert (H : length (_stoch_hist.data (Stoch0.stoch_hist
                (stoch0_train [x41; x42] (Stoch0.world_init (rnd_of []))))) = 256%nat)
    by (vm_compute; reflexivity).
  split; [exact H|].
  apply (stoch0_clear_zeroes (stoch0_train [x41; x42] (Stoch0.world_init (rnd_of []))) H).
Defined.

(** ** Training *)

Lemma stoch0_update_eq x w :
  Stoch0.stoch_hist_update x w
  = Some (tt, Stoch0.set_stoch_hist (stoch0_updated (byte_val x) (Stoch0.stoch_hist w)) w).
Proof.
  unfold Stoch0.stoch_hist_update. pose proof (byte_val_range x) as Hx.
  rewrite int_small by lia.
  replace ((0 <=? byte_val x) && (byte_val x <? STOCH_HIST_SIZE)) with true.
  - reflexivity.
  - symmetry. apply andb_true_iff. split; [apply Z.leb_le|apply Z.ltb_lt; unfold STOCH_HIST_SIZE]; lia.
Qed.

Lemma stoch0_write_loop_eq tmp : forall w,
  Stoch0.stoch_write_loop tmp w = Some (tt, stoch0_train tmp w).
Proof.
  induction tmp as [|x tmp IH]; intros w; cbn [Stoch0.stoch_write_loop stoch0_train];
    [reflexivity|].
  unfold Stoch0.bind. rewrite stoch0_update_eq. apply IH.
Qed.

Lemma stoch0_write_eq tmp w :
  Stoch0.stoch_write tmp w = Some (Z.of_nat (length tmp), stoch0_train tmp w).
Proof.
  unfold Stoch0.stoch_write, Stoch0.bind. rewrite stoch0_write_loop_eq. reflexivity.
Qed.

Lemma stoch0_train_frame tmp : forall w,
  stoch0_train tmp w = Stoch0.set_stoch_hist (Stoch0.stoch_hist (stoch0_train tmp w)) w.
Proof.
  induction tmp as [|x tmp IH]; intros w; cbn [stoch0_train].
  - symmetry. apply stoch0_set_same.
  - etransitivity; [apply IH|]. reflexivity.
Qed.

Lemma stoch0_train_counts tmp : forall w (c : Z -> Z) t,
  length (_stoch_hist.data (Stoch0.stoch_hist w)) = 256%nat ->
  (forall x, 0 <= x < 256 -> rd (_stoch_hist.data (Stoch0.stoch_hist w)) x = uint (c x)) ->
  _stoch_hist.total (Stoch0.stoch_hist w) = uint t ->
  length (_stoch_hist.data (Stoch0.stoch_hist (stoch0_train tmp w))) = 256%nat /\
  (forall x, 0 <= x < 256 ->
     rd (_stoch_hist.data (Stoch0.stoch_hist (stoch0_train tmp w))) x
     = uint (c x + count_occ x (byte_val <$> tmp))) /\
  _stoch_hist.total (Stoch0.stoch_hist (stoch0_train tmp w))
  = uint (t + Z.of_nat (length tmp)).
Proof.
  induction tmp as [|a tmp IH]; intros w c t Hlen Hc Ht; cbn [stoch0_train].
  - split; [exact Hlen|]. split.
    + intros x Hx. cbn [fmap list_fmap count_occ]. rewrite Z.add_0_r. now apply Hc.
    + cbn [length]. now rewrite Z.add_0_r.
  - pose proof (byte_val_range a) as Ha.
    destruct (IH (Stoch0.set_stoch_hist (stoch0_updated (byte_val a) (Stoch0.stoch_hist w)) w)
                (fun x => if x =? byte_val a then c x + 1 else c x) (t + 1))
      as (Hl & Hcnt & Htot).
    + cbn [Stoch0.set_stoch_hist Stoch0.stoch_hist stoch0_updated _stoch_hist.data].
      now rewrite length_insert.
    + intros x Hx.
      cbn [Stoch0.set_stoch_hist Stoch0.stoch_hist stoch0_updated _stoch_hist.data].
      rewrite rd_insert by lia.
      destruct (Z.eqb_spec x (byte_val a)) as [->|_].
      * rewrite Hc by lia. apply uint_add_l.
      * now apply Hc.
    + cbn [Stoch0.set_stoch_hist Stoch0.stoch_hist stoch0_updated _stoch_hist.total].
      rewrite Ht. apply uint_add_l.
    + split; [exact Hl|]. split.
      * intros x Hx. rewrite (Hcnt x Hx), fmap_cons. cbn [count_occ]. f_equal.
        destruct (Z.eqb_spec x (byte_val a)) as [->|Hne].
        -- rewrite Z.eqb_refl. lia.
        -- destruct (Z.eqb_spec (byte_val a) x) as [He|_]; [congruence|lia].
      * rewrite Htot. cbn [length]. f_equal. lia.
Qed.

Lemma stoch0_updated_wf x h : 0 <= x < 256 -> wf_hist h -> wf_hist (stoch0_updated x h).
Proof.
  intros Hx [Hl Ht]. split; cbn [stoch0_updated _stoch_hist.data _stoch_hist.total].
  - now rewrite length_insert.
  - rewrite sumZ_insert by lia. rewrite Ht, uint_add_l.
    unfold rd. symmetry. apply uint_bump.
Qed.

Lemma stoch0_train_wf tmp : forall w,
  wf_hist (Stoch0.stoch_hist w) -> wf_hist (Stoch0.stoch_hist (stoch0_train tmp w)).
Proof.
  induction tmp as [|a tmp IH]; intros w Hwf; cbn [stoch0_train]; [exact Hwf|].
  apply IH. cbn [Stoch0.set_stoch_hist Stoch0.stoch_hist].
  apply stoch0_updated_wf; [apply byte_val_range|exact Hwf].
Qed.

(** X13: on a histogram of 256 counters that hold 32-bit values,
    [stoch_write] of src/stoch.c returns the number of bytes written,
    adds to the counter of every byte value x the number of times x
    occurs among the bytes written, and adds their number to the total,
    both in 32-bit arithmetic; it draws no random value and calls the
    sampler never. *)
Theorem stoch0_write_counts_bytes tmp w :
  length (_stoch_hist.data (Stoch0.stoch_hist w)) = 256%nat ->
  (forall x, 0 <= x < 256 -> 0 <= rd (_stoch_hist.data (Stoch0.stoch_hist w)) x < 4294967296) ->
  0 <= _stoch_hist.total (Stoch0.stoch_hist w) < 4294967296 ->
  exists w',
    Stoch0.stoch_write tmp w = Some (Z.of_nat (length tmp), w') /\
    length (_stoch_hist.data (Stoch0.stoch_hist w')) = 256%nat /\
    (forall x, 0 <= x < 256 ->
       rd (_stoch_hist.data (Stoch0.stoch_hist w')) x
       = uint (rd (_stoch_hist.data (Stoch0.stoch_hist w)) x + count_occ x (byte_val <$> tmp))) /\
    _stoch_hist.total (Stoch0.stoch_hist w')
    = uint (_stoch_hist.total (Stoch0.stoch_hist w) + Z.of_nat (length tmp)) /\
    Stoch0.entropy w' = Stoch0.entropy w /\ Stoch0.drawn w' = Stoch0.drawn w /\
    Stoch0.calls w' = Stoch0.calls w.
Proof.
  intros Hlen Hc Ht. exists (stoch0_train tmp w).
  split; [apply stoch0_write_eq|].
  destruct (stoch0_train_counts tmp w (rd (_stoch_hist.data (Stoch0.stoch_hist w)))
              (_stoch_hist.total (Stoch0.stoch_hist w)) Hlen) as (Hl & Hcnt & Htot).
  - intros x Hx. symmetry. apply uint_small, Hc, Hx.
  - symmetry. apply uint_small, Ht.
  - split; [exact Hl|]. split; [exact Hcnt|]. split; [exact Htot|].
    rewrite (stoch0_train_frame tmp w). repeat split; reflexivity.
Qed.

Lemma stoch0_write_counts_bytes_witness :
  (length (_stoch_hist.data (Stoch0.stoch_hist (Stoch0.world_init (rnd_of [])))) = 256%nat /\
   (forall x, 0 <= x < 256 ->
      0 <= rd (_stoch_hist.data (Stoch0.stoch_hist (Stoch0.world_init (rnd_of [])))) x
      < 4294967296) /\
   0 <= _stoch_hist.total (Stoch0.stoch_hist (Stoch0.world_init (rnd_of []))) < 4294967296) /\
  exists w',
    Stoch0.stoch_write [x41; x42; x41] (Stoch0.world_init (rnd_of []))
    = Some (Z.of_nat (length [x41; x42; x41]), w') /\
    length (_stoch_hist.data (Stoch0.stoch_hist w')) = 256%nat /\
    (forall x, 0 <= x < 256 ->
       rd (_stoch_hist.data (Stoch0.stoch_hist w')) x
       = uint (rd (_stoch_hist.data (Stoch0.stoch_hist (Stoch0.world_init (rnd_of [])))) x
               + count_occ x (byte_val <$> [x41; x42; x41]))) /\
    _stoch_hist.total (Stoch0.stoch_hist w')
    = uint (_stoch_hist.total (Stoch0.stoch_hist (Stoch0.world_init (rnd_of [])))
            + Z.of_nat (length [x41; x42; x41])) /\
    Stoch0.entropy w' = Stoch0.entropy (Stoch0.world_init (rnd_of [])) /\
    Stoch0.drawn w' = Stoch0.drawn (Stoch0.world_init (rnd_of [])) /\
    Stoch0.calls w' = Stoch0.calls (Stoch0.world_init (rnd_of [])).
Proof.
  assert (H1 : length (_stoch_hist.data (Stoch0.stoch_hist (Stoch0.world_init (rnd_of []))))
               = 256%nat) by reflexivity.
  assert (H2 : forall x, 0 <= x < 256 ->
             0 <= rd (_stoch_hist.data (Stoch0.stoch_hist (Stoch0.world_init (rnd_of [])))) x
             < 4294967296).
  { intros x Hx. unfold Stoch0.world_init, hist_zero.
    cbn [Stoch0.stoch_hist _stoch_hist.data]. rewrite rd_replicate.
    destruct (decide _); lia. }
  assert (H3 : 0 <= _stoch_hist.total (Stoch0.stoch_hist (Stoch0.world_init (rnd_of [])))
               < 4294967296) by (cbn; lia).
  split; [split; [exact H1|split; [exact H2|exact H3]]|].
  apply (stoch0_write_counts_bytes [x41; x42; x41] (Stoch0.world_init (rnd_of [])) H1 H2 H3).
Defined.

(** X14: [stoch_write] of src/stoch.c keeps the histogram well formed:
    if the total is the sum of the 256 counters in 32-bit arithmetic
    before the call, it is so after it, whatever is written and also
    when counters wrap around. *)
Theorem stoch0_write_keeps_total tmp w :
  wf_hist (Stoch0.stoch_hist w) ->
  exists w',
    Stoch0.stoch_write tmp w = Some (Z.of_nat (length tmp), w') /\
    wf_hist (Stoch0.stoch_hist w').
Proof.
  intros Hwf. exists (stoch0_train tmp w).
  split; [apply stoch0_write_eq|now apply stoch0_train_wf].
Qed.

Lemma stoch0_write_keeps_total_witness :
  wf_hist (Stoch0.stoch_hist (Stoch0.world_init (rnd_of []))) /\
  exists w',
    Stoch0.stoch_write [x41; x42] (Stoch0.world_init (rnd_of []))
    = Some (Z.of_nat (length [x41; x42]), w') /\
    wf_hist (Stoch0.stoch_hist w').
Proof.
  split; [apply wf_hist_zero|].
  apply (stoch0_write_keeps_total [x41; x42] (Stoch0.world_init (rnd_of [])) wf_hist_zero).
Defined.

(** ** The sampler *)

Lemma stoch0_drawn_p_le w :
  wf_hist (Stoch0.stoch_hist w) -> _stoch_hist.total (Stoch0.stoch_hist w) <> 0 ->
  stoch0_drawn_p w <= uint (sumZ (_stoch_hist.data (Stoch0.stoch_hist w))).
Proof.
  intros [_ Ht] Hnz. rewrite <- Ht. unfold stoch0_drawn_p.
  set (t := _stoch_hist.total (Stoch0.stoch_hist w)) in *.
  set (j := Stoch0.entropy w (Stoch0.drawn w) mod 2 ^ (8 * 4)).
  assert (0 < t) by (pose proof (uint_range (sumZ (_stoch_hist.data (Stoch0.stoch_hist w)))); lia).
  pose proof (Z.mod_pos_bound j t ltac:(lia)) as Hr.
  pose proof (uchar_range (j mod t)) as Hc.
  rewrite uint_small by lia.
  assert (uchar (j mod t) <= j mod t); [|lia].
  unfold uchar. apply Z.mod_le; [lia|]. change (2 ^ 8) with 256. lia.
Qed.

(** What a call of [stoch_hist_val] of src/stoch.c does on a well-formed
    histogram. *)
Lemma stoch0_hist_val_spec fuel w :
  wf_hist (Stoch0.stoch_hist w) -> (256 <= fuel)%nat ->
  exists v d,
    Stoch0.stoch_hist_val fuel w = Some (v, stoch0_after w d (Stoch0.calls w ++ [v])) /\
    0 <= v < 256 /\
    (v <> 0 -> rd (_stoch_hist.data (Stoch0.stoch_hist w)) v <> 0) /\
    (_stoch_hist.total (Stoch0.stoch_hist w) = 0 -> v = 0 /\ d = Stoch0.drawn w) /\
    (_stoch_hist.total (Stoch0.stoch_hist w) <> 0 ->
       d = S (Stoch0.drawn w) /\
       stoch0_drawn_p w
       <= uint (sumZ (take (S (Z.to_nat v)) (_stoch_hist.data (Stoch0.stoch_hist w)))) /\
       forall u, 0 <= u < v ->
         uint (sumZ (take (S (Z.to_nat u)) (_stoch_hist.data (Stoch0.stoch_hist w))))
         < stoch0_drawn_p w).
Proof.
  intros Hwf Hfuel. unfold Stoch0.stoch_hist_val, Stoch0.bind, Stoch0.gets.
  destruct (Z.eqb_spec (_stoch_hist.total (Stoch0.stoch_hist w)) 0) as [Hz|Hnz].
  - exists 0, (Stoch0.drawn w). split; [reflexivity|]. split; [lia|].
    split; [intros H; now contradiction H|]. split; [split; reflexivity|].
    intros H. contradiction.
  - unfold Stoch0.get_random_bytes.
    destruct (stoch_hist_val_loop_stops 256 fuel (Stoch0.stoch_hist w)
                (stoch0_drawn_p w) 0 0 0) as (v & Hv & Hr & Hreach & Hleast); try lia.
    + apply Hwf.
    + reflexivity.
    + apply stoch0_drawn_p_le; assumption.
    + pose proof Hv as Hv'. unfold stoch0_drawn_p in Hv. rewrite Hv.
      exists v, (S (Stoch0.drawn w)). split; [reflexivity|]. split; [lia|].
      split.
      { apply (stoch_hist_val_loop_first fuel _ (stoch0_drawn_p w) v); [|exact Hv'].
        apply uint_range. }
      split; [intros H; contradiction|]. intros _.
      split; [reflexivity|]. split; [exact Hreach|exact Hleast].
Qed.

(** X15: on a well-formed histogram whose total is not 0,
    [stoch_hist_val] of src/stoch.c draws one random value and returns
    the least byte value at which the running sum of the counters (in
    32-bit arithmetic) reaches p, the value drawn, reduced modulo the
    total and cut to its low 8 bits; a result other than 0 has a counter
    other than 0, and the histogram is left as it was. *)
Theorem stoch0_sampler_least_reaching fuel w :
  wf_hist (Stoch0.stoch_hist w) -> _stoch_hist.total (Stoch0.stoch_hist w) <> 0 ->
  (256 <= fuel)%nat ->
  exists v,
    Stoch0.stoch_hist_val fuel w
    = Some (v, stoch0_after w (S (Stoch0.drawn w)) (Stoch0.calls w ++ [v])) /\
    0 <= v < 256 /\
    (v <> 0 -> rd (_stoch_hist.data (Stoch0.stoch_hist w)) v <> 0) /\
    stoch0_drawn_p w
    <= uint (sumZ (take (S (Z.to_nat v)) (_stoch_hist.data (Stoch0.stoch_hist w)))) /\
    forall u, 0 <= u < v ->
      uint (sumZ (take (S (Z.to_nat u)) (_stoch_hist.data (Stoch0.stoch_hist w))))
      < stoch0_drawn_p w.
Proof.
  intros Hwf Hnz Hfuel.
  destruct (stoch0_hist_val_spec fuel w Hwf Hfuel) as (v & d & Hv & Hr & Hc & _ & Ht).
  destruct (Ht Hnz) as (-> & Hreach & Hleast).
  exists v. repeat split; try assumption; lia.
Qed.

Lemma stoch0_sampler_least_reaching_witness :
  (wf_hist (Stoch0.stoch_hist (stoch0_train [x41; x42; x42] (Stoch0.world_init (rnd_of [5])))) /\
   _stoch_hist.total (Stoch0.stoch_hist
      (stoch0_train [x41; x42; x42] (Stoch0.world_init (rnd_of [5])))) <> 0 /\
   (256 <= 256)%nat) /\
  exists v,
    Stoch0.stoch_hist_val 256 (stoch0_train [x41; x42; x42] (Stoch0.world_init (rnd_of [5])))
    = Some (v, stoch0_after (stoch0_train [x41; x42; x42] (Stoch0.world_init (rnd_of [5])))
                 (S (Stoch0.drawn (stoch0_train [x41; x42; x42] (Stoch0.world_init (rnd_of [5])))))
                 (Stoch0.calls (stoch0_train [x41; x42; x42] (Stoch0.world_init (rnd_of [5])))
                  ++ [v])) /\
    0 <= v < 256 /\
    (v <> 0 ->
     rd (_stoch_hist.data (Stoch0.stoch_hist
           (stoch0_train [x41; x42; x42] (Stoch0.world_init (rnd_of [5]))))) v <> 0) /\
    stoch0_drawn_p (stoch0_train [x41; x42; x42] (Stoch0.world_init (rnd_of [5])))
    <= uint (sumZ (take (S (Z.to_nat v))
                     (_stoch_hist.data (Stoch0.stoch_hist
                        (stoch0_train [x41; x42; x42] (Stoch0.world_init (rnd_of [5]))))))) /\
    forall u, 0 <= u < v ->
      uint (sumZ (take (S (Z.to_nat u))
                    (_stoch_hist.data (Stoch0.stoch_hist
                       (stoch0_train [x41; x42; x42] (Stoch0.world_init (rnd_of [5])))))))
      < stoch0_drawn_p (stoch0_train [x41; x42; x42] (Stoch0.world_init (rnd_of [5]))).
Proof.
  assert (H1 : wf_hist (Stoch0.stoch_hist
                 (stoch0_train [x41; x42; x42] (Stoch0.world_init (rnd_of [5])))))
    by apply stoch0_train_wf, wf_hist_zero.
  assert (H2 : _stoch_hist.total (Stoch0.stoch_hist
                 (stoch0_train [x41; x42; x42] (Stoch0.world_init (rnd_of [5])))) <> 0)
    by (vm_compute; discriminate).
  split; [split; [exact H1|split; [exact H2|lia]]|].
  apply (stoch0_sampler_least_reaching 256
           (stoch0_train [x41; x42; x42] (Stoch0.world_init (rnd_of [5]))) H1 H2).
  lia.
Defined.

(** ** The generator *)

Lemma stoch0_gen_loop_inactive n : forall fuel size i pos buff w,
  size_t pos <> size ->
  Stoch0.stoch_hist_gen_loop fuel size n i pos buff w = Some ((zero_fill n i buff, pos), w).
Proof.
  induction n as [|n IH]; intros fuel size i pos buff w Hne;
    cbn [Stoch0.stoch_hist_gen_loop zero_fill]; [reflexivity|].
  destruct (Z.eqb_spec (size_t pos) size) as [He|_]; [contradiction|].
  now apply IH.
Qed.

(** The loop of [stoch_hist_gen] of src/stoch.c while [pos] is [size]. *)
Lemma stoch0_gen_loop_active n : forall fuel size i buff w,
  wf_hist (Stoch0.stoch_hist w) -> (256 <= fuel)%nat ->
  0 <= i -> i + Z.of_nat n = size -> size <= INT_MAX ->
  length buff = Z.to_nat size ->
  exists b pos d smp,
    Stoch0.stoch_hist_gen_loop fuel size n i size buff w
    = Some ((b, pos), stoch0_after w d (Stoch0.calls w ++ smp)) /\
    described buff b (Z.to_nat i) size n pos smp /\
    (forall k v, smp !! k = Some v -> v <> 0 ->
       rd (_stoch_hist.data (Stoch0.stoch_hist w)) v <> 0) /\
    (_stoch_hist.total (Stoch0.stoch_hist w) <> 0 ->
       d = (Stoch0.drawn w + length smp)%nat) /\
    (_stoch_hist.total (Stoch0.stoch_hist w) = 0 ->
       d = Stoch0.drawn w /\ forall k v, smp !! k = Some v -> v = 0).
Proof.
  unfold INT_MAX. change (2 ^ 31 - 1) with 2147483647.
  induction n as [|n IH]; intros fuel size i buff w Hwf Hfuel Hi Hin Hmax Hlen;
    cbn [Stoch0.stoch_hist_gen_loop].
  - exists buff, size, (Stoch0.drawn w), []. rewrite app_nil_r, stoch0_after_same.
    split; [reflexivity|]. split.
    { unfold described. cbn [length first_zero].
      repeat split; try reflexivity; try lia; try discriminate. }
    split; [intros k v Hk; rewrite lookup_nil in Hk; discriminate|].
    split; [intros _; cbn [length]; lia|].
    intros _. split; [reflexivity|]. intros k v Hk. rewrite lookup_nil in Hk. discriminate.
  - rewrite size_t_small by lia. rewrite Z.eqb_refl.
    destruct (stoch0_hist_val_spec fuel w Hwf Hfuel) as (v & d1 & Hv & Hr & Hc & Hz1 & Hnz1).
    unfold Stoch0.bind at 1. rewrite Hv.
    assert (Hilt : (Z.to_nat i < length buff)%nat) by lia.
    rewrite rd_insert_eq by exact Hilt.
    destruct (Z.eqb_spec v 0) as [->|Hnz].
    + rewrite int_small by lia.
      rewrite stoch0_gen_loop_inactive by (rewrite size_t_small; lia).
      exists (zero_fill n (i + 1) (<[Z.to_nat i := 0]> buff)), i, d1, [0].
      split; [reflexivity|]. split.
      { unfold described. cbn [length first_zero Z.eqb].
        split; [now rewrite zero_fill_length, length_insert|].
        split; [lia|].
        split; [intros j Hj; rewrite zero_fill_before by lia;
                apply list_lookup_insert_ne; lia|].
        split.
        { intros [|k] v Hk; [|rewrite lookup_cons, lookup_nil in Hk; discriminate].
          injection Hk as <-. rewrite Nat.add_0_r, zero_fill_before by lia.
          now apply list_lookup_insert_eq. }
        split; [intros j Hj; apply zero_fill_inside; rewrite ?length_insert; lia|].
        split; [discriminate|]. intros k [= <-]. split; [lia|reflexivity]. }
      split.
      { intros [|k] v Hk Hv0; [|rewrite lookup_cons, lookup_nil in Hk; discriminate].
        injection Hk as <-. contradiction. }
      split.
      { intros Ht. destruct (Hnz1 Ht) as [-> _]. cbn [length]. lia. }
      intros Ht. destruct (Hz1 Ht) as [_ ->]. split; [reflexivity|].
      intros [|k] v Hk; [|rewrite lookup_cons, lookup_nil in Hk; discriminate].
      now injection Hk as <-.
    + destruct (IH fuel size (i + 1) (<[Z.to_nat i := v]> buff)
                  (stoch0_after w d1 (Stoch0.calls w ++ [v])))
        as (b & pos & d & smp & Hrun & (Hlb & Hls & Hbefore & Hsmp & Hzero & Hnone & Hsome)
            & Hcnt & Hdn & Hdz);
        try assumption; try lia.
      { now rewrite length_insert. }
      rewrite Hrun. exists b, pos, d, (v :: smp).
      cbn [stoch0_after Stoch0.stoch_hist Stoch0.entropy Stoch0.drawn Stoch0.calls] in *.
      rewrite <- app_assoc.
      split; [reflexivity|]. rewrite length_insert in *.
      replace (Z.to_nat (i + 1)) with (S (Z.to_nat i)) in * by lia.
      split.
      { unfold described. cbn [length first_zero].
        destruct (Z.eqb_spec v 0) as [?|_]; [contradiction|].
        split; [exact Hlb|].
        split; [lia|].
        split; [intros j Hj; rewrite Hbefore by lia; apply list_lookup_insert_ne; lia|].
        split.
        { intros [|k] v' Hk.
          - injection Hk as <-. rewrite Nat.add_0_r, Hbefore by lia.
            now apply list_lookup_insert_eq.
          - rewrite lookup_cons in Hk.
            replace (Z.to_nat i + S k)%nat with (S (Z.to_nat i) + k)%nat by lia.
            now apply Hsmp. }
        split; [intros j Hj; apply Hzero; lia|].
        destruct (first_zero smp) as [k|]; cbn [fmap option_fmap option_map].
        * split; [discriminate|]. intros k' [= <-].
          destruct (Hsome k eq_refl) as [-> ->]. split; [lia|reflexivity].
        * split; [|discriminate]. intros _.
          destruct (Hnone eq_refl) as [-> ->]. split; reflexivity. }
      split.
      { intros [|k] v' Hk Hv0.
        - injection Hk as <-. now apply Hc.
        - rewrite lookup_cons in Hk. now apply (Hcnt k v'). }
      split.
      { intros Ht. rewrite (Hdn Ht). destruct (Hnz1 Ht) as [-> _]. cbn [length]. lia. }
      intros Ht. destruct (Hz1 Ht) as [Hv0 _]. contradiction.
Qed.

Lemma described_rule buff b size pos smp :
  0 <= size -> length buff = Z.to_nat size ->
  described buff b 0 size (Z.to_nat size) pos smp ->
  terminator_rule size b pos smp.
Proof.
  intros Hsize Hlen (Hlb & Hls & _ & Hsmp & Hzero & Hnone & Hsome).
  unfold terminator_rule. split; [lia|].
  split.
  { destruct (first_zero smp) as [k|] eqn:Hk.
    - destruct (Hsome k eq_refl) as [-> Hl]. lia.
    - destruct (Hnone eq_refl) as [-> _]. lia. }
  split; [intros k v Hk; apply (Hsmp k v Hk)|].
  split.
  - intros i Hi. destruct (Hsome i Hi) as [-> Hl]. split; [reflexivity|].
    split; [exact Hl|]. intros j Hj.
    destruct (decide (j = i)) as [->|Hne].
    + apply (Hsmp i 0), first_zero_lookup, Hi.
    + apply Hzero. lia.
  - intros Hn. apply Hnone, Hn.
Qed.

(** A call of [stoch_hist_gen] of src/stoch.c on a well-formed
    histogram, for a size an [int] holds. *)
Lemma stoch0_gen_described fuel buff size w :
  wf_hist (Stoch0.stoch_hist w) -> 0 <= size <= INT_MAX ->
  length buff = Z.to_nat size -> (256 <= fuel)%nat ->
  exists b pos d smp,
    Stoch0.stoch_hist_gen fuel buff size w
    = Some ((b, pos), stoch0_after w d (Stoch0.calls w ++ smp)) /\
    described buff b 0 size (Z.to_nat size) pos smp /\
    (forall k v, smp !! k = Some v -> v <> 0 ->
       rd (_stoch_hist.data (Stoch0.stoch_hist w)) v <> 0) /\
    (_stoch_hist.total (Stoch0.stoch_hist w) <> 0 ->
       d = (Stoch0.drawn w + length smp)%nat) /\
    (_stoch_hist.total (Stoch0.stoch_hist w) = 0 ->
       d = Stoch0.drawn w /\ forall k v, smp !! k = Some v -> v = 0).
Proof.
  intros Hwf Hsize Hlen Hfuel. unfold Stoch0.stoch_hist_gen.
  assert (Hmax : size <= 2147483647)
    by (unfold INT_MAX in Hsize; change (2 ^ 31 - 1) with 2147483647 in Hsize; lia).
  rewrite int_small by lia.
  destruct (stoch0_gen_loop_active (Z.to_nat size) fuel size 0 buff w)
    as (b & pos & d & smp & Hrun & Hd & Hrest); try assumption; try lia.
  unfold Stoch0.bind. rewrite Hrun.
  exists b, pos, d, smp. split; [|split; [exact Hd|exact Hrest]].
  unfold Stoch0.ret. cbn [fst snd]. do 3 f_equal. apply size_t_small.
  destruct Hd as (_ & Hls & _ & _ & _ & Hnone & Hsome).
  destruct (first_zero smp) as [k|] eqn:Hk.
  - destruct (Hsome k eq_refl) as [-> Hl]. lia.
  - destruct (Hnone eq_refl) as [-> _]. lia.
Qed.

(** X16: on a well-formed histogram, for a size between 1 and [INT_MAX]
    and a buffer of that size, [stoch_hist_gen] of src/stoch.c returns
    and obeys the rule of the terminator; it calls the sampler at least
    once, every byte other than 0 it emits has a counter other than 0,
    and the histogram is left as it was.  On a trained histogram it
    draws one random value for each call of the sampler; on an untrained
    one it draws none, calls the sampler exactly once, gets 0 and
    returns the logical length 0. *)
Theorem stoch0_generate_by_rule fuel buff size w :
  wf_hist (Stoch0.stoch_hist w) -> 1 <= size <= INT_MAX ->
  length buff = Z.to_nat size -> (256 <= fuel)%nat ->
  exists b pos d smp,
    Stoch0.stoch_hist_gen fuel buff size w
    = Some ((b, pos), stoch0_after w d (Stoch0.calls w ++ smp)) /\
    terminator_rule size b pos smp /\
    (1 <= length smp)%nat /\
    (forall k v, smp !! k = Some v -> v <> 0 ->
       rd (_stoch_hist.data (Stoch0.stoch_hist w)) v <> 0) /\
    (_stoch_hist.total (Stoch0.stoch_hist w) <> 0 ->
       d = (Stoch0.drawn w + length smp)%nat) /\
    (_stoch_hist.total (Stoch0.stoch_hist w) = 0 ->
       d = Stoch0.drawn w /\ smp = [0] /\ pos = 0).
Proof.
  intros Hwf Hsize Hlen Hfuel.
  destruct (stoch0_gen_described fuel buff size w Hwf) as (b & pos & d & smp & Hrun & Hd & Hc & Hn & Hz);
    try assumption; try lia.
  exists b, pos, d, smp. split; [exact Hrun|].
  split; [apply (described_rule buff); [lia|exact Hlen|exact Hd]|].
  destruct Hd as (_ & Hls & _ & _ & _ & Hnone & Hsome).
  assert (Hone : (1 <= length smp)%nat).
  { destruct (first_zero smp) as [k|] eqn:Hk.
    - destruct (Hsome k eq_refl) as [_ ->]. lia.
    - destruct (Hnone eq_refl) as [_ ->]. lia. }
  split; [exact Hone|]. split; [exact Hc|]. split; [exact Hn|].
  intros Ht. destruct (Hz Ht) as [-> Hall]. split; [reflexivity|].
  destruct smp as [|v smp]; [cbn [length] in Hone; lia|].
  pose proof (Hall 0%nat v eq_refl) as ->.
  destruct (Hsome 0%nat eq_refl) as [-> Hl].
  cbn [length] in Hl. destruct smp; [|discriminate]. split; reflexivity.
Qed.

Lemma stoch0_generate_by_rule_witness :
  (wf_hist (Stoch0.stoch_hist (stoch0_train [x41; x42; x42] (Stoch0.world_init (rnd_of [2; 1; 0])))) /\
   1 <= 3 <= INT_MAX /\ length [7; 7; 7] = Z.to_nat 3 /\ (256 <= 256)%nat) /\
  exists b pos d smp,
    Stoch0.stoch_hist_gen 256 [7; 7; 7] 3
      (stoch0_train [x41; x42; x42] (Stoch0.world_init (rnd_of [2; 1; 0])))
    = Some ((b, pos),
            stoch0_after (stoch0_train [x41; x42; x42] (Stoch0.world_init (rnd_of [2; 1; 0]))) d
              (Stoch0.calls (stoch0_train [x41; x42; x42] (Stoch0.world_init (rnd_of [2; 1; 0])))
               ++ smp)) /\
    terminator_rule 3 b pos smp /\
    (1 <= length smp)%nat /\
    (forall k v, smp !! k = Some v -> v <> 0 ->
       rd (_stoch_hist.data (Stoch0.stoch_hist
             (stoch0_train [x41; x42; x42] (Stoch0.world_init (rnd_of [2; 1; 0]))))) v <> 0) /\
    (_stoch_hist.total (Stoch0.stoch_hist
        (stoch0_train [x41; x42; x42] (Stoch0.world_init (rnd_of [2; 1; 0])))) <> 0 ->
       d = Nat.add (Stoch0.drawn (stoch0_train [x41; x42; x42] (Stoch0.world_init (rnd_of [2; 1; 0]))))
                   (length smp)) /\
    (_stoch_hist.total (Stoch0.stoch_hist
        (stoch0_train [x41; x42; x42] (Stoch0.world_init (rnd_of [2; 1; 0])))) = 0 ->
       d = Stoch0.drawn (stoch0_train [x41; x42; x42] (Stoch0.world_init (rnd_of [2; 1; 0]))) /\
       smp = [0] /\ pos = 0).
Proof.
  assert (H1 : wf_hist (Stoch0.stoch_hist
                 (stoch0_train [x41; x42; x42] (Stoch0.world_init (rnd_of [2; 1; 0])))))
    by apply stoch0_train_wf, wf_hist_zero.
  assert (H2 : 1 <= 3 <= INT_MAX) by (vm_compute; split; discriminate).
  split; [split; [exact H1|split; [exact H2|split; [reflexivity|lia]]]|].
  apply (stoch0_generate_by_rule 256 [7; 7; 7] 3
           (stoch0_train [x41; x42; x42] (Stoch0.world_init (rnd_of [2; 1; 0]))) H1 H2 eq_refl).
  lia.
Defined.

(** ** The untrained histogram *)

(** With the total at 0 the generator of src/stoch.c calls the sampler
    once, which returns 0 without drawing, and pads the whole buffer. *)
Lemma stoch0_gen_untrained fuel buff size w :
  _stoch_hist.total (Stoch0.stoch_hist w) = 0 -> 1 <= size <= INT_MAX ->
  length buff = Z.to_nat size ->
  Stoch0.stoch_hist_gen fuel buff size w
  = Some ((replicate (Z.to_nat size) 0, 0),
          stoch0_after w (Stoch0.drawn w) (Stoch0.calls w ++ [0])).
Proof.
  intros Hz Hsize Hlen.
  assert (Hmax : size <= 2147483647)
    by (unfold INT_MAX in Hsize; change (2 ^ 31 - 1) with 2147483647 in Hsize; lia).
  assert (Hval : Stoch0.stoch_hist_val fuel w
                 = Some (0, stoch0_after w (Stoch0.drawn w) (Stoch0.calls w ++ [0]))).
  { unfold Stoch0.stoch_hist_val, Stoch0.bind, Stoch0.gets. rewrite Hz. reflexivity. }
  unfold Stoch0.stoch_hist_gen. rewrite int_small by lia.
  destruct (Z.to_nat size) as [|n] eqn:Hn; [lia|].
  cbn [Stoch0.stoch_hist_gen_loop]. rewrite size_t_small by lia. rewrite Z.eqb_refl.
  unfold Stoch0.bind. rewrite Hval.
  rewrite rd_insert_eq by lia. change (0 =? 0) with true. cbn match.
  rewrite int_small by lia.
  rewrite stoch0_gen_loop_inactive by (rewrite size_t_small; lia).
  unfold Stoch0.ret. cbn [fst snd]. rewrite size_t_small by lia.
  change (zero_fill n (0 + 1) (<[Z.to_nat 0 := 0]> buff)) with (zero_fill (S n) 0 buff).
  rewrite <- Hlen, zero_fill_all. reflexivity.
Qed.

(** X17: in src/stoch.c, generating right after [stoch_hist_clear]
    gives nothing, whatever was written before: for a size between 1
    and [INT_MAX] the buffer comes back filled with zeros and the
    logical length is 0; the sampler is called once, returns 0 and draws
    no random value. *)
Theorem stoch0_clear_then_generate fuel buff size w :
  length (_stoch_hist.data (Stoch0.stoch_hist w)) = 256%nat ->
  1 <= size <= INT_MAX -> length buff = Z.to_nat size ->
  Stoch0.bind Stoch0.stoch_hist_clear (fun _ => Stoch0.stoch_hist_gen fuel buff size) w
  = Some ((replicate (Z.to_nat size) 0, 0),
          Stoch0.mkWorld hist_zero (Stoch0.entropy w) (Stoch0.drawn w) (Stoch0.calls w ++ [0])).
Proof.
  intros Hl Hsize Hlen. unfold Stoch0.bind. rewrite stoch0_clear_eq by exact Hl.
  rewrite stoch0_gen_untrained; [reflexivity|reflexivity|exact Hsize|exact Hlen].
Qed.

Lemma stoch0_clear_then_generate_witness :
  (length (_stoch_hist.data (Stoch0.stoch_hist
             (stoch0_train [x41; x42] (Stoch0.world_init (rnd_of [3]))))) = 256%nat /\
   1 <= 2 <= INT_MAX /\ length [7; 7] = Z.to_nat 2) /\
  Stoch0.bind Stoch0.stoch_hist_clear (fun _ => Stoch0.stoch_hist_gen 256 [7; 7] 2)
    (stoch0_train [x41; x42] (Stoch0.world_init (rnd_of [3])))
  = Some ((replicate (Z.to_nat 2) 0, 0),
          Stoch0.mkWorld hist_zero
            (Stoch0.entropy (stoch0_train [x41; x42] (Stoch0.world_init (rnd_of [3]))))
            (Stoch0.drawn (stoch0_train [x41; x42] (Stoch0.world_init (rnd_of [3]))))
            (Stoch0.calls (stoch0_train [x41; x42] (Stoch0.world_init (rnd_of [3]))) ++ [0])).
Proof.
  assert (H1 : length (_stoch_hist.data (Stoch0.stoch_hist
                 (stoch0_train [x41; x42] (Stoch0.world_init (rnd_of [3]))))) = 256%nat)
    by (vm_compute; reflexivity).
  assert (H2 : 1 <= 2 <= INT_MAX) by (vm_compute; split; discriminate).
  split; [split; [exact H1|split; [exact H2|reflexivity]]|].
  apply (stoch0_clear_then_generate 256 [7; 7] 2
           (stoch0_train [x41; x42] (Stoch0.world_init (rnd_of [3]))) H1 H2 eq_refl).
Defined.

(** ** Loading the module and reading from the device *)

(** X18: [stoch_init] of src/stoch.c hands a negative result of
    [register_chrdev] back and touches nothing; when the registration
    succeeds it returns 0 and leaves the histogram cleared, all counters
    and the total at 0, whatever it held. *)
Theorem stoch0_init_clears result w :
  (result < 0 -> Stoch0.stoch_init result w = Some (result, w)) /\
  (0 <= result -> length (_stoch_hist.data (Stoch0.stoch_hist w)) = 256%nat ->
   Stoch0.stoch_init result w = Some (0, Stoch0.set_stoch_hist hist_zero w)).
Proof.
  split.
  - intros Hr. unfold Stoch0.stoch_init. now rewrite (proj2 (Z.ltb_lt _ _) Hr).
  - intros Hr Hl. unfold Stoch0.stoch_init. rewrite (proj2 (Z.ltb_ge _ _) Hr).
    unfold Stoch0.bind. rewrite stoch0_clear_eq by exact Hl. reflexivity.
Qed.

Lemma stoch0_init_clears_witness :
  (-1 < 0 /\
   Stoch0.stoch_init (-1) (stoch0_train [x41] (Stoch0.world_init (rnd_of [])))
   = Some (-1, stoch0_train [x41] (Stoch0.world_init (rnd_of [])))) /\
  (0 <= 0 /\
   length (_stoch_hist.data (Stoch0.stoch_hist
             (stoch0_train [x41] (Stoch0.world_init (rnd_of []))))) = 256%nat) /\
  Stoch0.stoch_init 0 (stoch0_train [x41] (Stoch0.world_init (rnd_of [])))
  = Some (0, Stoch0.set_stoch_hist hist_zero
               (stoch0_train [x41] (Stoch0.world_init (rnd_of [])))).
Proof.
  assert (H : length (_stoch_hist.data (Stoch0.stoch_hist
                (stoch0_train [x41] (Stoch0.world_init (rnd_of []))))) = 256%nat)
    by (vm_compute; reflexivity).
  split.
  { split; [lia|].
    apply (proj1 (stoch0_init_clears (-1) (stoch0_train [x41] (Stoch0.world_init (rnd_of []))))).
    lia. }
  split; [split; [lia|exact H]|].
  apply (proj2 (stoch0_init_clears 0 (stoch0_train [x41] (Stoch0.world_init (rnd_of [])))));
    [lia|exact H].
Defined.

(** X19: on a well-formed histogram, [stoch_read] of src/stoch.c for
    [count] bytes (at least 1, at most [INT_MAX]) hands the caller the
    [count] bytes [stoch_hist_gen] produced, with the last one replaced
    by 0, and returns the logical length n of the generator, between 0
    and [count]: every byte from position n on is 0, and the last byte
    is 0 even when n is [count].  The histogram is left as it was. *)
Theorem stoch0_read_pads_and_terminates fuel tmp count w :
  wf_hist (Stoch0.stoch_hist w) -> 1 <= count <= INT_MAX ->
  length tmp = Z.to_nat count -> (256 <= fuel)%nat ->
  exists b buf n w',
    Stoch0.stoch_hist_gen fuel tmp count w = Some ((b, n), w') /\
    Stoch0.stoch_read fuel tmp count w = Some ((buf, n), w') /\
    buf = <[Z.to_nat (count - 1) := 0]> b /\
    length buf = Z.to_nat count /\
    0 <= n <= count /\
    buf !! Z.to_nat (count - 1) = Some 0 /\
    (forall j, (Z.to_nat n <= j < Z.to_nat count)%nat -> buf !! j = Some 0) /\
    Stoch0.stoch_hist w' = Stoch0.stoch_hist w.
Proof.
  intros Hwf Hcount Hlen Hfuel.
  destruct (stoch0_gen_described fuel tmp count w Hwf)
    as (b & n & d & smp & Hrun & Hd & _); try assumption; try lia.
  destruct (described_rule tmp b count n smp ltac:(lia) Hlen Hd)
    as (Hlb & Hn & _ & Hsome & Hnone).
  assert (Hmax : count <= 2147483647)
    by (unfold INT_MAX in Hcount; change (2 ^ 31 - 1) with 2147483647 in Hcount; lia).
  assert (Hpad : forall j, (Z.to_nat n <= j < Z.to_nat count)%nat -> b !! j = Some 0).
  { intros j Hj. destruct (first_zero smp) as [i|] eqn:Hfz.
    - destruct (Hsome i eq_refl) as (-> & _ & Hz). apply Hz. lia.
    - rewrite (Hnone eq_refl) in Hj. lia. }
  exists b, (<[Z.to_nat (count - 1) := 0]> b), n,
         (stoch0_after w d (Stoch0.calls w ++ smp)).
  split; [exact Hrun|]. split.
  { unfold Stoch0.stoch_read, Stoch0.bind. rewrite Hrun. cbn [fst snd]. unfold Stoch0.ret.
    rewrite take_ge by (rewrite length_insert; lia).
    rewrite ssize_t_small by lia. reflexivity. }
  split; [reflexivity|]. split; [now rewrite length_insert|]. split; [exact Hn|].
  split; [apply list_lookup_insert_eq; lia|]. split; [|reflexivity].
  intros j Hj. destruct (decide (j = Z.to_nat (count - 1))) as [->|Hne].
  - apply list_lookup_insert_eq. lia.
  - rewrite list_lookup_insert_ne by lia. now apply Hpad.
Qed.

Lemma stoch0_read_pads_and_terminates_witness :
  (wf_hist (Stoch0.stoch_hist (stoch0_train [x41; x42] (Stoch0.world_init (rnd_of [1; 1])))) /\
   1 <= 2 <= INT_MAX /\ length [7; 7] = Z.to_nat 2 /\ (256 <= 256)%nat) /\
  exists b buf n w',
    Stoch0.stoch_hist_gen 256 [7; 7] 2
      (stoch0_train [x41; x42] (Stoch0.world_init (rnd_of [1; 1]))) = Some ((b, n), w') /\
    Stoch0.stoch_read 256 [7; 7] 2
      (stoch0_train [x41; x42] (Stoch0.world_init (rnd_of [1; 1]))) = Some ((buf, n), w') /\
    buf = <[Z.to_nat (2 - 1) := 0]> b /\
    length buf = Z.to_nat 2 /\
    0 <= n <= 2 /\
    buf !! Z.to_nat (2 - 1) = Some 0 /\
    (forall j, (Z.to_nat n <= j < Z.to_nat 2)%nat -> buf !! j = Some 0) /\
    Stoch0.stoch_hist w'
    = Stoch0.stoch_hist (stoch0_train [x41; x42] (Stoch0.world_init (rnd_of [1; 1]))).
Proof.
  assert (H1 : wf_hist (Stoch0.stoch_hist
                 (stoch0_train [x41; x42] (Stoch0.world_init (rnd_of [1; 1])))))
    by apply stoch0_train_wf, wf_hist_zero.
  assert (H2 : 1 <= 2 <= INT_MAX) by (vm_compute; split; discriminate).
  split; [split; [exact H1|split; [exact H2|split; [reflexivity|lia]]]|].
  apply (stoch0_read_pads_and_terminates 256 [7; 7] 2
           (stoch0_train [x41; x42] (Stoch0.world_init (rnd_of [1; 1]))) H1 H2 eq_refl).
  lia.
Defined.

(** * Sizes an [int] does not hold *)

(** [int pos = size] changes a size above [INT_MAX]: converted back to
    [size_t] for the comparison [pos == size], it differs from [size]. *)
Lemma int_size_t_differs size :
  INT_MAX < size < 18446744071562067968 ->
  size_t (int size) <> size /\
  (size < 4294967296 -> size_t (int size) = size + 18446744069414584320).
Proof.
  unfold INT_MAX, size_t, int. change (2 ^ 31 - 1) with 2147483647.
  change (2 ^ 31) with 2147483648. change (2 ^ 32) with 4294967296.
  change (2 ^ 64) with 18446744073709551616. intros Hs.
  pose proof (Z.mod_pos_bound (size + 2147483648) 4294967296 ltac:(lia)) as Hr.
  set (r := (size + 2147483648) mod 4294967296) in *.
  destruct (Z_lt_le_dec (r - 2147483648) 0) as [Hneg|Hpos].
  - assert (He : (r - 2147483648) mod 18446744073709551616
                 = r - 2147483648 + 18446744073709551616).
    { rewrite <- (Z_mod_plus_full (r - 2147483648) 1 18446744073709551616).
      rewrite Z.mod_small by lia. lia. }
    rewrite He. split; [lia|]. intros Hlt.
    assert (r = size - 2147483648); [|lia].
    unfold r. rewrite <- (Z_mod_plus_full (size + 2147483648) (-1) 4294967296).
    rewrite Z.mod_small by lia. lia.
  - rewrite Z.mod_small by lia. split; [lia|]. intros Hlt.
    assert (r = size - 2147483648); [|lia].
    unfold r. rewrite <- (Z_mod_plus_full (size + 2147483648) (-1) 4294967296).
    rewrite Z.mod_small by lia. lia.
Qed.

(** X20: in src/stoch2.c a trained model asked for more than [INT_MAX]
    bytes (and fewer than 2^64 - 2^31) generates nothing: [pos] does not
    hold the size, so the loop never calls the sampler and fills the
    whole buffer with zeros; the one random value of the start context
    is drawn all the same, and the value returned is not the size (for
    a size below 2^32 it is the size plus 2^64 - 2^32). *)
Theorem generate_oversized_pads fuel buff size w :
  model.total (stoch_hist w) <> 0 -> INT_MAX < size < 18446744071562067968 ->
  length buff = Z.to_nat size ->
  stoch_hist_gen fuel buff size w
  = Some ((replicate (Z.to_nat size) 0, size_t (int size)),
          after w (S (drawn w)) (calls w)) /\
  size_t (int size) <> size /\
  (size < 4294967296 -> size_t (int size) = size + 18446744069414584320).
Proof.
  intros Hnz Hsize Hlen. destruct (int_size_t_differs size Hsize) as [Hne Hval].
  split; [|split; [exact Hne|exact Hval]].
  rewrite stoch_hist_gen_oversized by assumption.
  rewrite <- Hlen, zero_fill_all. reflexivity.
Qed.

Lemma generate_oversized_pads_witness :
  (model.total (stoch_hist (train [x41] (world_init (rnd_of [])))) <> 0 /\
   INT_MAX < 2147483648 < 18446744071562067968 /\
   length (replicate (Z.to_nat 2147483648) 7) = Z.to_nat 2147483648) /\
  (stoch_hist_gen 256 (replicate (Z.to_nat 2147483648) 7) 2147483648
     (train [x41] (world_init (rnd_of [])))
   = Some ((replicate (Z.to_nat 2147483648) 0, size_t (int 2147483648)),
           after (train [x41] (world_init (rnd_of [])))
             (S (drawn (train [x41] (world_init (rnd_of [])))))
             (calls (train [x41] (world_init (rnd_of []))))) /\
   size_t (int 2147483648) <> 2147483648 /\
   (2147483648 < 4294967296 -> size_t (int 2147483648) = 2147483648 + 18446744069414584320)).
Proof.
  assert (H1 : model.total (stoch_hist (train [x41] (world_init (rnd_of [])))) <> 0)
    by (vm_compute; discriminate).
  assert (H2 : INT_MAX < 2147483648 < 18446744071562067968)
    by (split; vm_compute; reflexivity).
  assert (H3 : length (replicate (Z.to_nat 2147483648) 7) = Z.to_nat 2147483648)
    by apply length_replicate.
  exact (conj (conj H1 (conj H2 H3))
           (generate_oversized_pads 256 (replicate (Z.to_nat 2147483648) 7) 2147483648
              (train [x41] (world_init (rnd_of []))) H1 H2 H3)).
Defined.

Lemma stoch0_gen_oversized fuel buff size w :
  size_t (int size) <> size ->
  Stoch0.stoch_hist_gen fuel buff size w
  = Some ((zero_fill (Z.to_nat size) 0 buff, size_t (int size)), w).
Proof.
  intros Hne. unfold Stoch0.stoch_hist_gen, Stoch0.bind.
  rewrite stoch0_gen_loop_inactive by exact Hne. reflexivity.
Qed.

(** X21: in src/stoch.c a request for more than [INT_MAX] bytes (and
    fewer than 2^64 - 2^31) generates nothing on any histogram: the
    sampler is never called, no random value is drawn, the whole buffer
    is filled with zeros and the state is untouched; the value returned
    is not the size. *)
Theorem stoch0_generate_oversized_pads fuel buff size w :
  INT_MAX < size < 18446744071562067968 -> length buff = Z.to_nat size ->
  Stoch0.stoch_hist_gen fuel buff size w
  = Some ((replicate (Z.to_nat size) 0, size_t (int size)), w) /\
  size_t (int size) <> size /\
  (size < 4294967296 -> size_t (int size) = size + 18446744069414584320).
Proof.
  intros Hsize Hlen. destruct (int_size_t_differs size Hsize) as [Hne Hval].
  split; [|split; [exact Hne|exact Hval]].
  rewrite stoch0_gen_oversized by assumption.
  rewrite <- Hlen, zero_fill_all. reflexivity.
Qed.

Lemma stoch0_generate_oversized_pads_witness :
  (INT_MAX < 2147483648 < 18446744071562067968 /\
   length (replicate (Z.to_nat 2147483648) 7) = Z.to_nat 2147483648) /\
  (Stoch0.stoch_hist_gen 256 (replicate (Z.to_nat 2147483648) 7) 2147483648
     (stoch0_train [x41] (Stoch0.world_init (rnd_of [])))
   = Some ((replicate (Z.to_nat 2147483648) 0, size_t (int 2147483648)),
           stoch0_train [x41] (Stoch0.world_init (rnd_of []))) /\
   size_t (int 2147483648) <> 2147483648 /\
   (2147483648 < 4294967296 -> size_t (int 2147483648) = 2147483648 + 18446744069414584320)).
Proof.
  assert (H2 : INT_MAX < 2147483648 < 18446744071562067968)
    by (split; vm_compute; reflexivity).
  assert (H3 : length (replicate (Z.to_nat 2147483648) 7) = Z.to_nat 2147483648)
    by apply length_replicate.
  exact (conj (conj H2 H3)
           (stoch0_generate_oversized_pads 256 (replicate (Z.to_nat 2147483648) 7) 2147483648
              (stoch0_train [x41] (Stoch0.world_init (rnd_of []))) H2 H3)).
Defined.
